(** * pypwrctrl: the command-line front end [main.py]

    A shallow embedding of [src/pypwrctrl/main.py] and of the parts of the
    Python library it calls, followed by the properties of the registry,
    the configuration codec and the command router.

    Conventions of the model.
    - Python [str] is [string]; the characters are taken as ASCII code
      points (the case folding, the digit class and the white space of the
      functions below are the ASCII ones).
    - Python [int] is [Z]; the interpreter's limit on the length of decimal
      numerals is not modelled.
    - A Python exception is a constructor of [PyError]; only its class is
      kept, not its message.
    - A [dict] is an association list in insertion order: assigning to a key
      that is present keeps its position.
    - The configuration file is its text.  [ConfigParser.write] and
      [ConfigParser.read] are modelled on that text, on a system whose line
      separator is the line feed.  How the file system treats a write is a
      parameter of the session ([storage]); a file that cannot be opened
      for reading is a missing file, as [read] ignores it.
    - Whether the network collaborator answers a request is a parameter of
      the session ([answers]); every request that is sent is recorded in
      the session's trace, answered or not. *)

From Stdlib Require Import ZArith Ascii Lia.
From stdpp Require Import base list sorting gmap sets strings.

(** ** Exceptions and results *)

Inductive PyError : Type :=
  | ValueError
  | DuplicateSectionError
  | NoSectionError
  | NoOptionError
  | InterpolationSyntaxError
  | InterpolationMissingOptionError
  | InterpolationDepthError
  | DuplicateOptionError
  | MissingSectionHeaderError
  | ParsingError
  | OSError
  | NetworkFailure
  | DuplicateAddress.

Inductive Res (A : Type) : Type :=
  | Ok (a : A)
  | Raise (e : PyError).
Arguments Ok {A} a.
Arguments Raise {A} e.

Definition res_bind {A B} (c : Res A) (k : A → Res B) : Res B :=
  match c with
  | Ok a => k a
  | Raise e => Raise e
  end.

Notation "'let?' x ':=' c 'in' k" := (res_bind c (λ x, k))
  (at level 10, x pattern, c at level 100, k at level 200).

Fixpoint res_foldl {A B} (f : B → A → Res B) (b : B) (l : list A) : Res B :=
  match l with
  | [] => Ok b
  | x :: r => let? b' := f b x in res_foldl f b' r
  end.

(** ** Python built-ins used by [main.py] *)

Module Py.

(** The value of an ASCII decimal digit, [None] for any other character. *)
Definition digit_value (c : ascii) : option Z :=
  let code := Z.of_nat (nat_of_ascii c) in
  if (48 <=? code)%Z && (code <=? 57)%Z then Some (code - 48)%Z else None.

Definition is_digit (c : ascii) : bool :=
  match digit_value c with Some _ => true | None => false end.

Definition digit_char (d : Z) : ascii :=
  match d with
  | 0 => "0" | 1 => "1" | 2 => "2" | 3 => "3" | 4 => "4"
  | 5 => "5" | 6 => "6" | 7 => "7" | 8 => "8" | _ => "9"
  end%char%Z.

(** White space skipped by [int()] around an ASCII numeral. *)
Definition is_space (c : ascii) : bool :=
  let code := nat_of_ascii c in
  (9 <=? code) && (code <=? 13) || (code =? 32).

(** [str.lower] on ASCII. *)
Definition lower_char (c : ascii) : ascii :=
  let n := nat_of_ascii c in
  if (65 <=? n) && (n <=? 90) then ascii_of_nat (n + 32) else c.

Fixpoint lower (s : string) : string :=
  match s with
  | EmptyString => EmptyString
  | String c r => String (lower_char c) (lower r)
  end.

(** ['%' in s] *)
Fixpoint contains_percent (s : string) : bool :=
  match s with
  | EmptyString => false
  | String c r => if decide (c = "%"%char) then true else contains_percent r
  end.

(** [s[n:]] *)
Fixpoint slice_from (n : nat) (s : string) : string :=
  match n, s with
  | O, _ => s
  | S n', String _ r => slice_from n' r
  | S _, EmptyString => EmptyString
  end.

(** [s.startswith(p)], giving the remainder. *)
Fixpoint strip_prefix (p s : string) : option string :=
  match p, s with
  | EmptyString, _ => Some s
  | String a p', String b s' =>
      if decide (a = b) then strip_prefix p' s' else None
  | String _ _, EmptyString => None
  end.

(** Decimal digits of a non-negative number, most significant first. *)
Fixpoint dec_digits (fuel : nat) (n : Z) : list Z :=
  match fuel with
  | O => []
  | S f => if (n <? 10)%Z then [n]
           else dec_digits f (n / 10)%Z ++ [(n mod 10)%Z]
  end.

Definition digits_string (ds : list Z) : string :=
  foldr (λ d s, String (digit_char d) s) EmptyString ds.

Definition str_nonneg (n : Z) : string :=
  digits_string (dec_digits (S (Z.to_nat (Z.log2 n))) n).

(** [str(n)] for an [int]. *)
Definition str (n : Z) : string :=
  if (n <? 0)%Z then String "-" (str_nonneg (- n)) else str_nonneg n.

Fixpoint lstrip (s : string) : string :=
  match s with
  | String c r => if is_space c then lstrip r else s
  | EmptyString => EmptyString
  end.

Fixpoint rstrip (s : string) : string :=
  match s with
  | EmptyString => EmptyString
  | String c r =>
      match rstrip r with
      | EmptyString => if is_space c then EmptyString else String c EmptyString
      | r' => String c r'
      end
  end.

(** The digits of a numeral: groups of digits separated by single
    underscores.  [prev] tells whether the previous character was a
    digit. *)
Fixpoint parse_digits (acc : Z) (prev : bool) (s : string) : option Z :=
  match s with
  | EmptyString => if prev then Some acc else None
  | String c r =>
      match digit_value c with
      | Some d => parse_digits (10 * acc + d) true r
      | None =>
          if decide (c = "_"%char) then
            if prev then parse_digits acc false r else None
          else None
      end
  end.

Definition parse_int (s : string) : option Z :=
  match rstrip (lstrip s) with
  | String "-" r => Z.opp <$> parse_digits 0 false r
  | String "+" r => parse_digits 0 false r
  | t => parse_digits 0 false t
  end.

(** [int(s)] for a [str]. *)
Definition int (s : string) : Res Z :=
  match parse_int s with
  | Some n => Ok n
  | None => Raise ValueError
  end.

(** White space of [str.strip], of [str.rstrip] and of the pattern class
    [\s]: the characters 9 to 13 and 28 to 32. *)
Definition is_whitespace (c : ascii) : bool :=
  let code := nat_of_ascii c in
  (9 <=? code) && (code <=? 13) || (28 <=? code) && (code <=? 32).

(** [s.lstrip()] *)
Fixpoint str_lstrip (s : string) : string :=
  match s with
  | EmptyString => EmptyString
  | String c r => if is_whitespace c then str_lstrip r else s
  end.

(** [s.rstrip()] *)
Fixpoint str_rstrip (s : string) : string :=
  match s with
  | EmptyString => EmptyString
  | String c r =>
      match str_rstrip r with
      | EmptyString =>
          if is_whitespace c then EmptyString else String c EmptyString
      | kept => String c kept
      end
  end.

(** [s.strip()] *)
Definition str_strip (s : string) : string := str_rstrip (str_lstrip s).

(** [s[:n]] *)
Fixpoint slice_to (n : nat) (s : string) : string :=
  match n, s with
  | S n', String c r => String c (slice_to n' r)
  | _, _ => EmptyString
  end.

(** [re.match('plug_' + '\d+', option)]: the pattern is anchored at the
    start of [option] only, so anything may follow the first digit. *)
Definition re_match_prefix_digits (prefix option : string) : bool :=
  match strip_prefix prefix option with
  | Some (String c _) => is_digit c
  | _ => false
  end.

End Py.


(** ** The [configparser] module of the Python library

    The parts of [ConfigParser] that [main.py] calls, with the parser's
    default settings: option names are lower-cased, the section [DEFAULT]
    lends its options to every section, and values go through
    [BasicInterpolation]. *)

Module configparser.

(** *** Dictionaries in insertion order *)

Fixpoint dict_get {V} (k : string) (d : list (string * V)) : option V :=
  match d with
  | [] => None
  | (k', v) :: r => if decide (k = k') then Some v else dict_get k r
  end.

(** [d[k] = v] *)
Fixpoint dict_set {V} (k : string) (v : V) (d : list (string * V))
    : list (string * V) :=
  match d with
  | [] => [(k, v)]
  | (k', v') :: r =>
      if decide (k = k') then (k, v) :: r else (k', v') :: dict_set k v r
  end.

Definition dict_has {V} (k : string) (d : list (string * V)) : bool :=
  match dict_get k d with Some _ => true | None => false end.

(** [d.update(e)] *)
Definition dict_update {V} (d e : list (string * V)) : list (string * V) :=
  foldl (λ acc kv, dict_set kv.1 kv.2 acc) d e.

Definition dict_keys {V} (d : list (string * V)) : list string := d.*1.

(** *** Parser state *)

Record ConfigParser : Type := {
  cp_defaults : list (string * string);
  cp_sections : list (string * list (string * string))
}.

Definition DEFAULTSECT : string := "DEFAULT".
Definition MAX_INTERPOLATION_DEPTH : nat := 10.

(** [ConfigParser()] *)
Definition new : ConfigParser := {| cp_defaults := []; cp_sections := [] |}.

Definition optionxform (option : string) : string := Py.lower option.

Definition sections (cfg : ConfigParser) : list string :=
  dict_keys (cp_sections cfg).

Definition add_section (cfg : ConfigParser) (section : string)
    : Res ConfigParser :=
  if decide (section = DEFAULTSECT) then Raise ValueError
  else if dict_has section (cp_sections cfg) then Raise DuplicateSectionError
  else Ok {| cp_defaults := cp_defaults cfg;
             cp_sections := cp_sections cfg ++ [(section, [])] |}.

Definition has_option (cfg : ConfigParser) (section option : string) : bool :=
  if bool_decide (section = EmptyString) || bool_decide (section = DEFAULTSECT) then
    dict_has (optionxform option) (cp_defaults cfg)
  else
    match dict_get section (cp_sections cfg) with
    | None => false
    | Some sectdict =>
        dict_has (optionxform option) sectdict
        || dict_has (optionxform option) (cp_defaults cfg)
    end.

Definition options (cfg : ConfigParser) (section : string)
    : Res (list string) :=
  match dict_get section (cp_sections cfg) with
  | None => Raise NoSectionError
  | Some sectdict => Ok (dict_keys (dict_update sectdict (cp_defaults cfg)))
  end.

(** The chain of the section's own options and the defaults, as the
    lookup function of the [ChainMap] that [_unify_values] builds. *)
Definition unify_values (cfg : ConfigParser) (section : string)
    : Res (string → option string) :=
  let chain sectiondict k :=
    match dict_get k sectiondict with
    | Some v => Some v
    | None => dict_get k (cp_defaults cfg)
    end in
  match dict_get section (cp_sections cfg) with
  | Some sectiondict => Ok (chain sectiondict)
  | None =>
      if decide (section = DEFAULTSECT) then Ok (chain [])
      else Raise NoSectionError
  end.

(** *** [BasicInterpolation] *)

(** [rest.find("%")], as the text before the first ["%"] and the rest. *)
Fixpoint break_percent (s : string) : string * string :=
  match s with
  | EmptyString => (EmptyString, EmptyString)
  | String c r =>
      if decide (c = "%"%char) then (EmptyString, s)
      else let '(a, b) := break_percent r in (String c a, b)
  end.

Fixpoint span_name (s : string) : string * string :=
  match s with
  | EmptyString => (EmptyString, EmptyString)
  | String c r =>
      if decide (c = ")"%char) then (EmptyString, s)
      else let '(a, b) := span_name r in (String c a, b)
  end.

(** [_KEYCRE.match(s)] for [_KEYCRE = %\(([^)]+)\)s]: the name and the
    text after the match. *)
Definition keycre_match (s : string) : option (string * string) :=
  match s with
  | String "%" (String "(" r) =>
      match span_name r with
      | (String c n, String ")" (String "s" r')) => Some (String c n, r')
      | _ => None
      end
  | _ => None
  end.

Fixpoint interpolate_some (levels : nat) (map : string → option string)
    (rest accum : string) {struct levels} : Res string :=
  match levels with
  | O => Raise InterpolationDepthError
  | S levels' =>
      (fix loop (steps : nat) (rest accum : string) {struct steps}
          : Res string :=
         match steps, rest with
         | O, _ => Ok accum
         | S _, EmptyString => Ok accum
         | S steps', String _ _ =>
             let '(text, rest) := break_percent rest in
             match rest with
             | EmptyString => Ok (accum +:+ text)
             | String _ (String "%" rest') =>
                 loop steps' rest' (accum +:+ text +:+ "%")
             | String _ (String "(" _) =>
                 match keycre_match rest with
                 | None => Raise InterpolationSyntaxError
                 | Some (name, rest') =>
                     match map (optionxform name) with
                     | None => Raise InterpolationMissingOptionError
                     | Some v =>
                         if Py.contains_percent v then
                           let? accum' :=
                             interpolate_some levels' map v (accum +:+ text) in
                           loop steps' rest' accum'
                         else loop steps' rest' (accum +:+ text +:+ v)
                     end
                 end
             | String _ _ => Raise InterpolationSyntaxError
             end
         end) (S (String.length rest)) rest accum
  end.

Definition before_get (map : string → option string) (value : string)
    : Res string :=
  interpolate_some MAX_INTERPOLATION_DEPTH map value EmptyString.

(** [value.replace('%%', '')] *)
Fixpoint remove_escaped (s : string) : string :=
  match s with
  | String "%" (String "%" r) => remove_escaped r
  | String c r => String c (remove_escaped r)
  | EmptyString => EmptyString
  end.

(** [_KEYCRE.sub('', s)] *)
Fixpoint keycre_sub (steps : nat) (s : string) : string :=
  match steps, s with
  | O, _ => s
  | S _, EmptyString => EmptyString
  | S steps', String c r =>
      match keycre_match s with
      | Some (_, r') => keycre_sub steps' r'
      | None => String c (keycre_sub steps' r)
      end
  end.

Definition before_set (value : string) : Res string :=
  let tmp_value := remove_escaped value in
  let tmp_value := keycre_sub (String.length tmp_value) tmp_value in
  if Py.contains_percent tmp_value then Raise ValueError else Ok value.

(** *** Reading and writing options *)

Definition get (cfg : ConfigParser) (section option : string) : Res string :=
  let? d := unify_values cfg section in
  match d (optionxform option) with
  | None => Raise NoOptionError
  | Some value => before_get d value
  end.

(** [get(section, option, fallback=fallback)] *)
Definition get_fallback (cfg : ConfigParser) (section option fallback : string)
    : Res string :=
  match unify_values cfg section with
  | Raise NoSectionError => Ok fallback
  | Raise e => Raise e
  | Ok d =>
      match d (optionxform option) with
      | None => Ok fallback
      | Some value => before_get d value
      end
  end.

(** [getint(section, option, fallback=fallback)] *)
Definition getint_fallback (cfg : ConfigParser) (section option : string)
    (fallback : Z) : Res Z :=
  match get cfg section option with
  | Ok value => Py.int value
  | Raise NoSectionError | Raise NoOptionError => Ok fallback
  | Raise e => Raise e
  end.

Definition set (cfg : ConfigParser) (section option value : string)
    : Res ConfigParser :=
  let? value :=
    match value with
    | EmptyString => Ok value
    | _ => before_set value
    end in
  if bool_decide (section = EmptyString) || bool_decide (section = DEFAULTSECT) then
    Ok {| cp_defaults := dict_set (optionxform option) value (cp_defaults cfg);
          cp_sections := cp_sections cfg |}
  else
    match dict_get section (cp_sections cfg) with
    | None => Raise NoSectionError
    | Some sectdict =>
        Ok {| cp_defaults := cp_defaults cfg;
              cp_sections :=
                dict_set section
                  (dict_set (optionxform option) value sectdict)
                  (cp_sections cfg) |}
    end.

(** *** Writing the file

    [write] with the default delimiter [" = "]; the parser is not in the
    mode that allows options without a value, and [before_write] of
    [BasicInterpolation] returns the value unchanged. *)

Definition line_feed : ascii := ascii_of_nat 10.
Definition carriage_return : ascii := ascii_of_nat 13.
Definition tabulator : ascii := ascii_of_nat 9.

(** [value.replace('\n', '\n\t')] *)
Fixpoint replace_newlines (s : string) : string :=
  match s with
  | EmptyString => EmptyString
  | String c r =>
      if decide (c = line_feed) then
        String line_feed (String tabulator (replace_newlines r))
      else String c (replace_newlines r)
  end.

Definition terminated (line : string) : string :=
  line +:+ String line_feed EmptyString.

(** The strings that [_write_section] hands to [fp.write], in order. *)
Definition write_section (section_name : string)
    (section_items : list (string * string)) : list string :=
  terminated ("[" +:+ section_name +:+ "]")
  :: ((λ item, terminated (item.1 +:+ " = " +:+ replace_newlines item.2))
        <$> section_items)
  ++ [terminated EmptyString].

Definition join_strings (chunks : list string) : string :=
  foldr String.append EmptyString chunks.

(** [parser.write(fp)]: the text that the file receives. *)
Definition write (cfg : ConfigParser) : string :=
  join_strings
    ((match cp_defaults cfg with
      | [] => []
      | _ :: _ => write_section DEFAULTSECT (cp_defaults cfg)
      end)
     ++ concat ((λ s, write_section s.1 s.2) <$> cp_sections cfg)).

(** *** Reading the file

    [read] on a new parser, with the parser's default settings: strict,
    the delimiters [=] and [:], the comment prefixes [#] and [;] for whole
    lines, no inline comments, empty lines kept in values. *)

(** The text as a file opened for reading delivers it: a carriage return,
    with or without a line feed after it, is a line feed. *)
Fixpoint universal_newlines (s : string) : string :=
  match s with
  | EmptyString => EmptyString
  | String c r =>
      if decide (c = carriage_return) then
        match r with
        | String c' r' =>
            if decide (c' = line_feed) then String line_feed (universal_newlines r')
            else String line_feed (universal_newlines r)
        | EmptyString => String line_feed EmptyString
        end
      else String c (universal_newlines r)
  end.

(** The lines that the iteration over the file yields, each with its line
    feed; the last one has none when the text does not end with one. *)
Fixpoint readlines (s : string) : list string :=
  match s with
  | EmptyString => []
  | String c r =>
      if decide (c = line_feed) then String c EmptyString :: readlines r
      else
        match readlines r with
        | [] => [String c EmptyString]
        | line :: rest => String c line :: rest
        end
  end.

(** [line.strip().startswith(prefix)] for one of the comment prefixes. *)
Definition is_comment (stripped : string) : bool :=
  match stripped with
  | String c _ => bool_decide (c = "#"%char) || bool_decide (c = ";"%char)
  | EmptyString => false
  end.

(** [NONSPACECRE.search(line)]: the position of the first character that
    is not white space. *)
Fixpoint first_nonspace (line : string) : option nat :=
  match line with
  | EmptyString => None
  | String c r =>
      if Py.is_whitespace c then S <$> first_nonspace r else Some 0
  end.

(** The text before the last ["]"] of [s]. *)
Fixpoint before_last_bracket (s : string) : option string :=
  match s with
  | EmptyString => None
  | String c r =>
      match before_last_bracket r with
      | Some header => Some (String c header)
      | None => if decide (c = "]"%char) then Some EmptyString else None
      end
  end.

(** [SECTCRE.match(value)] for [SECTCRE = \[(?P<header>.+)\]]: the header.
    The pattern is anchored at the start only and [.+] is greedy, so the
    header ends before the last ["]"] of the line; it is not empty.  The
    value has no line feed in it. *)
Definition sectcre_match (value : string) : option string :=
  match value with
  | String "[" r =>
      match before_last_bracket r with
      | Some (String c header) => Some (String c header)
      | _ => None
      end
  | _ => None
  end.

Definition is_delimiter (c : ascii) : bool :=
  bool_decide (c = "="%char) || bool_decide (c = ":"%char).

(** The text before the first delimiter of [s] and the text after it. *)
Fixpoint break_delimiter (s : string) : option (string * string) :=
  match s with
  | EmptyString => None
  | String c r =>
      if is_delimiter c then Some (EmptyString, r)
      else
        match break_delimiter r with
        | Some (before, after) => Some (String c before, after)
        | None => None
        end
  end.

(** [_optcre.match(value)]: the groups [option] and [value] of the
    pattern, which is a lazy run of any characters for the option, white
    space, one of the delimiters, white space, and the rest of the line for
    the value.  The option is the shortest text that white space and a
    delimiter follow, so it ends before the white space that precedes the
    first delimiter; the value starts after the white space that follows
    the delimiter. *)
Definition optcre_match (value : string) : option (string * string) :=
  match break_delimiter value with
  | Some (before, after) => Some (Py.str_rstrip before, Py.str_lstrip after)
  | None => None
  end.

(** The dictionary that [cursect] refers to. *)
Inductive Cursect : Type :=
  | InDefaults
  | InSection (sectname : string).

(** The state of [_read]: the two dictionaries of the parser, whose
    values are lists of lines until they are joined, and the local
    variables of the loop.  [sectname] is kept with [cursect]; the set
    [elements_added] holds section names and pairs of a section name and an
    option name. *)
Record Reader : Type := {
  rd_defaults : list (string * list string);
  rd_sections : list (string * list (string * list string));
  added_sections : list string;
  added_options : list (string * string);
  cursect : option Cursect;
  optname : option string;
  indent_level : nat;
  parsing_error : bool
}.

Definition reader_start : Reader :=
  {| rd_defaults := []; rd_sections := []; added_sections := [];
     added_options := []; cursect := None; optname := None;
     indent_level := 0; parsing_error := false |}.

Definition sectname_of (cs : Cursect) : string :=
  match cs with
  | InDefaults => DEFAULTSECT
  | InSection sectname => sectname
  end.

Definition current_options (st : Reader) (cs : Cursect)
    : list (string * list string) :=
  match cs with
  | InDefaults => rd_defaults st
  | InSection sectname => default [] (dict_get sectname (rd_sections st))
  end.

Definition store_options (cs : Cursect) (opts : list (string * list string))
    (st : Reader) : Reader :=
  {| rd_defaults := match cs with InDefaults => opts | _ => rd_defaults st end;
     rd_sections :=
       match cs with
       | InDefaults => rd_sections st
       | InSection sectname => dict_set sectname opts (rd_sections st)
       end;
     added_sections := added_sections st;
     added_options := added_options st;
     cursect := cursect st;
     optname := optname st;
     indent_level := indent_level st;
     parsing_error := parsing_error st |}.

(** [cursect[optname].append(text)] *)
Definition append_line (cs : Cursect) (name text : string) (st : Reader)
    : Reader :=
  match dict_get name (current_options st cs) with
  | Some lines =>
      store_options cs (dict_set name (lines ++ [text]) (current_options st cs)) st
  | None => st
  end.

(** An [optname] that is neither [None] nor empty. *)
Definition option_open (st : Reader) : option (Cursect * string) :=
  match cursect st, optname st with
  | Some cs, Some (String c r) => Some (cs, String c r)
  | _, _ => None
  end.

(** The branch of a section header. *)
Definition enter_section (sectname : string) (cur_indent_level : nat)
    (st : Reader) : Res Reader :=
  if dict_has sectname (rd_sections st) then
    if bool_decide (sectname ∈ added_sections st) then
      Raise DuplicateSectionError
    else
      Ok {| rd_defaults := rd_defaults st; rd_sections := rd_sections st;
            added_sections := sectname :: added_sections st;
            added_options := added_options st;
            cursect := Some (InSection sectname); optname := None;
            indent_level := cur_indent_level;
            parsing_error := parsing_error st |}
  else if decide (sectname = DEFAULTSECT) then
    Ok {| rd_defaults := rd_defaults st; rd_sections := rd_sections st;
          added_sections := added_sections st;
          added_options := added_options st;
          cursect := Some InDefaults; optname := None;
          indent_level := cur_indent_level;
          parsing_error := parsing_error st |}
  else
    Ok {| rd_defaults := rd_defaults st;
          rd_sections := rd_sections st ++ [(sectname, [])];
          added_sections := sectname :: added_sections st;
          added_options := added_options st;
          cursect := Some (InSection sectname); optname := None;
          indent_level := cur_indent_level;
          parsing_error := parsing_error st |}.

(** The branch of an option line. *)
Definition enter_option (cs : Cursect) (value : string)
    (cur_indent_level : nat) (st : Reader) : Res Reader :=
  match optcre_match value with
  | Some (name, optval) =>
      let failed :=
        parsing_error st
        || match name with EmptyString => true | String _ _ => false end in
      let name := optionxform (Py.str_rstrip name) in
      if bool_decide ((sectname_of cs, name) ∈ added_options st) then
        Raise DuplicateOptionError
      else
        Ok (store_options cs
              (dict_set name [Py.str_strip optval] (current_options st cs))
              {| rd_defaults := rd_defaults st; rd_sections := rd_sections st;
                 added_sections := added_sections st;
                 added_options := (sectname_of cs, name) :: added_options st;
                 cursect := cursect st; optname := Some name;
                 indent_level := cur_indent_level;
                 parsing_error := failed |})
  | None =>
      Ok {| rd_defaults := rd_defaults st; rd_sections := rd_sections st;
            added_sections := added_sections st;
            added_options := added_options st;
            cursect := cursect st; optname := optname st;
            indent_level := cur_indent_level;
            parsing_error := true |}
  end.

(** One turn of the loop of [_read]. *)
Definition read_line (st : Reader) (line : string) : Res Reader :=
  let comment := is_comment (Py.str_strip line) in
  let value := if comment then EmptyString else Py.str_strip line in
  match value with
  | EmptyString =>
      match option_open st with
      | Some (cs, name) =>
          if comment then Ok st else Ok (append_line cs name EmptyString st)
      | None => Ok st
      end
  | String _ _ =>
      let cur_indent_level := default 0 (first_nonspace line) in
      match option_open st with
      | Some (cs, name) =>
          if indent_level st <? cur_indent_level then
            Ok (append_line cs name value st)
          else
            match sectcre_match value with
            | Some sectname => enter_section sectname cur_indent_level st
            | None => enter_option cs value cur_indent_level st
            end
      | None =>
          match sectcre_match value with
          | Some sectname => enter_section sectname cur_indent_level st
          | None =>
              match cursect st with
              | None => Raise MissingSectionHeaderError
              | Some cs => enter_option cs value cur_indent_level st
              end
          end
      end
  end.

(** ['\n'.join(lines)] *)
Fixpoint join_lines (lines : list string) : string :=
  match lines with
  | [] => EmptyString
  | [line] => line
  | line :: rest => line +:+ String line_feed (join_lines rest)
  end.

(** [_join_multiline_values] on one dictionary. *)
Definition join_multiline_values (opts : list (string * list string))
    : list (string * string) :=
  (λ item, (item.1, Py.str_rstrip (join_lines item.2))) <$> opts.

(** [_read] on the text of the file. *)
Definition read_text (text : string) : Res ConfigParser :=
  let? st := res_foldl read_line reader_start
               (readlines (universal_newlines text)) in
  if parsing_error st then Raise ParsingError
  else
    Ok {| cp_defaults := join_multiline_values (rd_defaults st);
          cp_sections :=
            (λ s, (s.1, join_multiline_values s.2)) <$> rd_sections st |}.

(** [read([filename])] on a new parser; [None] is a file that is missing
    or cannot be opened, which [read] passes over. *)
Definition read (file : option string) : Res ConfigParser :=
  match file with
  | None => Ok new
  | Some text => read_text text
  end.

End configparser.

Import configparser.

(** ** The [pypwrctrl] package: plugs, devices and the registry

    [main.py] imports [PlugMaster] from the package; the classes are not
    part of [main.py] and are modelled from the specification. *)

(** Modelled from the spec: the tri-state of a plug.  [print_master]
    compares the state with [0] and tests its truth value, so the states
    are the integers [-1] (unknown), [0] (off) and [1] (on). *)
Inductive State : Type := On | Off | Unknown.

Definition state_code (s : State) : Z :=
  match s with On => 1 | Off => 0 | Unknown => -1 end.

Definition state_of_bool (b : bool) : State := if b then On else Off.

Module Plug.
(** Modelled from the spec: the class [Plug] with its fields [index],
    [name] and [state]. *)
Record t : Type := mk { index : Z; name : string; state : State }.
End Plug.

Module Device.
(** Modelled from the spec: the class [Device] with its fields
    [address], [name] and [plugs]. *)
Record t : Type := mk { address : string; name : string; plugs : list Plug.t }.
End Device.

(** Modelled from the spec: the class [PlugMaster] (the registry) with the
    ports, the credentials and the devices in insertion order. *)
Record PlugMaster : Type := {
  pin : Z;
  pout : Z;
  user : string;
  password : string;
  devices : list Device.t
}.

(** A device object is identified by its position in [devices], a plug
    object by the position of its device and its own position in [plugs]. *)
Abbreviation DeviceRef := nat (only parsing).
Abbreviation PlugRef := (nat * nat)%type (only parsing).

(** Modelled from the spec: the predicate [matches(pattern, candidate)]
    that decides name and address searches. *)
Class Matching : Type := matches : string → string → bool.

Fixpoint occurs_in (p s : string) : bool :=
  match Py.strip_prefix p s with
  | Some _ => true
  | None =>
      match s with
      | EmptyString => false
      | String _ r => occurs_in p r
      end
  end.

(** Modelled from the spec: the default policy, a case-insensitive
    substring comparison. *)
#[global] Instance matches_substring : Matching :=
  λ pattern candidate, occurs_in (Py.lower pattern) (Py.lower candidate).

Fixpoint matching_positions {A} (P : A → bool) (i : nat) (l : list A)
    : list nat :=
  match l with
  | [] => []
  | x :: r =>
      if P x then i :: matching_positions P (S i) r
      else matching_positions P (S i) r
  end.

Section Search.
Context `{!Matching}.

(** Modelled from the spec: [PlugMaster.search_device(pattern)], every
    device whose name or address matches. *)
Definition search_device (master : PlugMaster) (pattern : string)
    : gset DeviceRef :=
  list_to_set
    (matching_positions
       (λ d, matches pattern (Device.name d)
             || matches pattern (Device.address d))
       0 (devices master)).

(** Modelled from the spec: [Device.search_plug(pattern)], the plugs of
    this device whose name matches. *)
Definition device_search_plug (master : PlugMaster) (device : DeviceRef)
    (pattern : string) : gset PlugRef :=
  match devices master !! device with
  | None => ∅
  | Some d =>
      list_to_set
        (pair device
           <$> matching_positions (λ p, matches pattern (Plug.name p))
                 0 (Device.plugs d))
  end.

(** Modelled from the spec: [PlugMaster.search_plug(pattern)], the union
    over all devices of each device's own search. *)
Definition search_plug (master : PlugMaster) (pattern : string)
    : gset PlugRef :=
  ⋃ ((λ device, device_search_plug master device pattern)
       <$> seq 0 (length (devices master))).
End Search.

(** ** The session: registry, configuration file, output and network *)

Inductive Request : Type :=
  | SwitchRequest (plug : PlugRef) (state : bool)
  | ResetRequest (device : DeviceRef).

(** How the file system treats the write of [save]: the file can be
    written; it cannot be opened for writing; or it can be opened, which
    empties it, and takes [room] characters before the write fails. *)
Inductive Storage : Type :=
  | Writable
  | Unwritable
  | Exhausted (room : nat).

Record World : Type := {
  master : PlugMaster;                 (* the session's registry object *)
  config_file : option string;         (* the text of CONFIG_FILE, if any *)
  stdout : list string;                (* the lines printed so far *)
  requests : list Request;             (* the requests sent to devices *)
  network : list Device.t;             (* what a discovery would find *)
  answers : Request → bool;            (* the requests that get an answer *)
  storage : Storage                    (* the file system under CONFIG_FILE *)
}.

Definition with_master (m : PlugMaster) (w : World) : World :=
  {| master := m; config_file := config_file w; stdout := stdout w;
     requests := requests w; network := network w; answers := answers w;
     storage := storage w |}.

Definition with_config_file (f : option string) (w : World) : World :=
  {| master := master w; config_file := f; stdout := stdout w;
     requests := requests w; network := network w; answers := answers w;
     storage := storage w |}.

Definition with_stdout (o : list string) (w : World) : World :=
  {| master := master w; config_file := config_file w; stdout := o;
     requests := requests w; network := network w; answers := answers w;
     storage := storage w |}.

Definition with_requests (r : list Request) (w : World) : World :=
  {| master := master w; config_file := config_file w; stdout := stdout w;
     requests := r; network := network w; answers := answers w;
     storage := storage w |}.

(** A computation changes the world and returns a value or raises. *)
Definition M (A : Type) : Type := World → Res A * World.

Definition ret {A} (a : A) : M A := λ w, (Ok a, w).

Definition bind {A B} (c : M A) (k : A → M B) : M B :=
  λ w, match c w with
       | (Ok a, w') => k a w'
       | (Raise e, w') => (Raise e, w')
       end.

Definition lift {A} (r : Res A) : M A := λ w, (r, w).

Notation "'let!' x ':=' c 'in' k" := (bind c (λ x, k))
  (at level 10, x pattern, c at level 100, k at level 200).
Notation "c >>> k" := (bind c (λ _, k))
  (at level 100, k at level 200, right associativity).

Fixpoint for_each {A} (l : list A) (body : A → M unit) : M unit :=
  match l with
  | [] => ret tt
  | x :: r => body x >>> for_each r body
  end.

Definition get_master : M PlugMaster := λ w, (Ok (master w), w).

(** [print(line)] *)
Definition print (line : string) : M unit :=
  λ w, (Ok tt, with_stdout (stdout w ++ [line]) w).

(** [config = ConfigParser(); config.read([CONFIG_FILE])]: a missing file
    leaves the parser empty, a file that does not parse raises. *)
Definition read_config : M ConfigParser :=
  λ w, (configparser.read (config_file w), w).

(** [with open(CONFIG_FILE, 'w') as out: parser.write(out)].  When the
    file cannot be opened nothing is changed; once it is open its old
    content is gone, and a write that fails leaves the part of the text
    that was taken. *)
Definition write_config (parser : ConfigParser) : M unit :=
  λ w,
    let text := configparser.write parser in
    match storage w with
    | Writable => (Ok tt, with_config_file (Some text) w)
    | Unwritable => (Raise OSError, w)
    | Exhausted room =>
        if String.length text <=? room then
          (Ok tt, with_config_file (Some text) w)
        else
          (Raise OSError, with_config_file (Some (Py.slice_to room text)) w)
    end.

(** Modelled from the spec: the constructor
    [PlugMaster(pin, pout, user, password)]; the registry starts empty. *)
Definition new_master (pin pout : Z) (user password : string) : M unit :=
  λ w, (Ok tt,
        with_master {| pin := pin; pout := pout; user := user;
                       password := password; devices := [] |} w).

Definition add_device (d : Device.t) (m : PlugMaster) : PlugMaster :=
  {| pin := pin m; pout := pout m; user := user m; password := password m;
     devices := devices m ++ [d] |}.

Definition has_address (address : string) (m : PlugMaster) : bool :=
  bool_decide (address ∈ Device.address <$> devices m).

(** Modelled from the spec: [PlugMaster.create_device(address, name,
    plug_defs)] builds the plugs in the unknown state and appends the
    device; an address already present is rejected. *)
Definition create_device (address name : string) (plug_defs : list (Z * string))
    : M unit :=
  λ w,
    if has_address address (master w) then (Raise DuplicateAddress, w)
    else
      let plugs := (λ d : Z * string, Plug.mk d.1 d.2 Unknown) <$> plug_defs in
      (Ok tt, with_master (add_device (Device.mk address name plugs) (master w)) w).

(** Modelled from the spec: [PlugMaster.discover()] merges what the
    network answers into the devices, one device per address. *)
Definition discover : M unit :=
  λ w,
    (Ok tt,
     with_master
       (foldl (λ m d, if has_address (Device.address d) m then m
                      else add_device d m)
              (master w) (network w)) w).

Definition set_plug_state (plug : PlugRef) (s : State) (m : PlugMaster)
    : PlugMaster :=
  let set_in_device (d : Device.t) :=
    Device.mk (Device.address d) (Device.name d)
      (alter (λ p, Plug.mk (Plug.index p) (Plug.name p) s) plug.2
         (Device.plugs d)) in
  {| pin := pin m; pout := pout m; user := user m; password := password m;
     devices := alter set_in_device plug.1 (devices m) |}.

(** Modelled from the spec: [Plug.switch(state)] sends the request; when
    it is answered the plug records the commanded state, otherwise the
    state stays as it was and [NetworkFailure] is raised. *)
Definition plug_switch (plug : PlugRef) (state : bool) : M unit :=
  λ w,
    let sent := with_requests (requests w ++ [SwitchRequest plug state]) w in
    if answers w (SwitchRequest plug state) then
      (Ok tt,
       with_master (set_plug_state plug (state_of_bool state) (master w)) sent)
    else (Raise NetworkFailure, sent).

(** Modelled from the spec: [Device.reset()] sends the request and leaves
    the plug states as they are; [NetworkFailure] is raised when the
    request is not answered. *)
Definition device_reset (device : DeviceRef) : M unit :=
  λ w,
    let sent := with_requests (requests w ++ [ResetRequest device]) w in
    if answers w (ResetRequest device) then (Ok tt, sent)
    else (Raise NetworkFailure, sent).

(** ** [main.py] *)

Definition GENERAL_SECTION : string := "GENERAL".
Definition PLUG_PREFIX : string := "plug_".

Definition format_nat (n : nat) : string := Py.str (Z.of_nat n).

(** The line of one plug: the name, then the state when it is known. *)
Definition plug_line (plug : Plug.t) : string :=
  "- " +:+ Plug.name plug
  +:+ (if (0 <=? state_code (Plug.state plug))%Z then
         " (" +:+ (if decide (state_code (Plug.state plug) = 0%Z) then "off"
                   else "on") +:+ ")"
       else EmptyString).

Fixpoint print_devices (devices : list Device.t) (plug_count : nat) : M nat :=
  match devices with
  | [] => ret plug_count
  | device :: rest =>
      print (Device.name device +:+ " (" +:+ Device.address device +:+ "):") >>>
      for_each (Device.plugs device) (λ plug, print (plug_line plug)) >>>
      print EmptyString >>>
      print_devices rest (plug_count + length (Device.plugs device))
  end.

Definition print_master : M (nat * nat) :=
  let! master := get_master in
  let device_count := length (devices master) in
  let! plug_count := print_devices (devices master) 0 in
  ret (device_count, plug_count).

(** One turn of the loop over [config.options(section)]. *)
Definition load_plug (config : ConfigParser) (section : string)
    (plugs : list (Z * string)) (option : string) : Res (list (Z * string)) :=
  if negb (Py.re_match_prefix_digits PLUG_PREFIX option) then Ok plugs
  else
    let? index := Py.int (Py.slice_from (String.length PLUG_PREFIX) option) in
    let? pname := get config section option in
    Ok (plugs ++ [(index, pname)]).

(** One turn of the loop over [config.sections()]. *)
Definition load_device (config : ConfigParser) (section : string) : M unit :=
  if decide (section = GENERAL_SECTION) then ret tt
  else if negb (has_option config section "name") then
    print "Device without name in configuration, skipping"
  else
    let address := section in
    let! name := lift (get config section "name") in
    let! keys := lift (options config section) in
    let! plugs := lift (res_foldl (load_plug config section) [] keys) in
    create_device address name plugs.

Definition load_devices (config : ConfigParser) : M unit :=
  for_each (sections config) (load_device config).

Section Router.
Context `{!Matching}.

(** Lines 77 to 84 of [switch]. *)
Definition switch_plugs (plugs : gset PlugRef) (state : bool) : M (option Z) :=
  if decide (size plugs = 0) then
    print "No matching plugs found, sorry" >>> ret (Some 1%Z)
  else
    (if decide (1 < size plugs) then
       print "Warning: Setting multiple matching plugs"
     else ret tt) >>>
    for_each (elements plugs) (λ plug, plug_switch plug state) >>>
    ret None.

(** The plugs of a two-argument [on]/[off]: lines 68 to 72. *)
Definition plugs_of_devices (master : PlugMaster) (devices : gset DeviceRef)
    (pattern : string) : gset PlugRef :=
  foldl (λ plugs device, plugs ∪ device_search_plug master device pattern)
    ∅ (elements devices).

Definition switch (args : list string) (state : bool) : M (option Z) :=
  let! master := get_master in
  match args with
  | [] =>
      print "Not enough arguments. Please add at least a plug name." >>>
      ret (Some 1%Z)
  | [arg0] => switch_plugs (search_plug master arg0) state
  | [arg0; arg1] =>
      let devices := search_device master arg0 in
      switch_plugs (plugs_of_devices master devices arg1) state
  | _ =>
      print "Too many arguments. Only plug name and optionally device name expected." >>>
      ret (Some 1%Z)
  end.

(** Lines 96 to 103 of [reset]. *)
Definition reset_devices (devices : gset DeviceRef) : M (option Z) :=
  if decide (size devices = 0) then
    print "No matching devices found, sorry" >>> ret (Some 1%Z)
  else
    (if decide (1 < size devices) then
       print "Warning: Resetting multiple matching devices"
     else ret tt) >>>
    for_each (elements devices) device_reset >>>
    ret None.

Definition reset (args : list string) : M (option Z) :=
  let! master := get_master in
  match args with
  | [] =>
      print "Not enough arguments. Please add the device name." >>>
      ret (Some 1%Z)
  | [arg0] => reset_devices (search_device master arg0)
  | _ =>
      print "Too many arguments. Only device name expected." >>>
      ret (Some 1%Z)
  end.
End Router.

Definition save_plug (address : string) (parser : ConfigParser) (plug : Plug.t)
    : Res ConfigParser :=
  let key := PLUG_PREFIX +:+ Py.str (Plug.index plug) in
  set parser address key (Plug.name plug).

Definition save_device (parser : ConfigParser) (device : Device.t)
    : Res ConfigParser :=
  let? parser := add_section parser (Device.address device) in
  let? parser := set parser (Device.address device) "name" (Device.name device) in
  res_foldl (save_plug (Device.address device)) parser (Device.plugs device).

(** Lines 106 to 120 of [save]: the parser that is written to the file. *)
Definition save_parser (master : PlugMaster) : Res ConfigParser :=
  let parser := configparser.new in
  let? parser := add_section parser GENERAL_SECTION in
  let? parser := set parser GENERAL_SECTION "user" (user master) in
  let? parser := set parser GENERAL_SECTION "password" (password master) in
  let? parser := set parser GENERAL_SECTION "pin" (Py.str (pin master)) in
  let? parser := set parser GENERAL_SECTION "pout" (Py.str (pout master)) in
  res_foldl save_device parser (devices master).

Definition save (args : list string) : M (option Z) :=
  let! master := get_master in
  let! parser := lift (save_parser master) in
  write_config parser >>>
  let! counts := print_master in
  (if decide (counts.1 = 0) then print "Saved config without any devices"
   else print ("Saved config with " +:+ format_nat counts.1
               +:+ " device(s) and " +:+ format_nat counts.2 +:+ " plugs")) >>>
  ret None.

Definition show (args : list string) : M (option Z) :=
  let! counts := print_master in
  print ("There are " +:+ format_nat counts.1 +:+ " device(s) and "
         +:+ format_nat counts.2 +:+ " plug(s)") >>>
  ret None.

(** The options as [parser.parse_args()] returns them; an option that was
    not given is [None] and takes its default. *)
Record Options : Type := {
  opt_list : bool;
  opt_discover : bool;
  opt_user : option string;
  opt_password : option string;
  opt_pin : option Z;
  opt_pout : option Z
}.

Section Main.
Context `{!Matching}.

(** The table [commands]: handler, usage and description by name. *)
Definition commands
    : list (string * ((list string → M (option Z)) * string * string)) :=
  [ ("on", (λ args, switch args true, "[device] plug", "switch plug on"));
    ("off", (λ args, switch args false, "[device] plug", "switch plug off"));
    ("save", (save, EmptyString, "save options and discovered devices"));
    ("show", (show, EmptyString, "show all discovered or saved devices"));
    ("reset", (reset, EmptyString, "save options and discovered devices")) ].

(** [sorted(commands.items(), key=lambda a: a[0])] *)
Definition sorted_commands
    : list (string * ((list string → M (option Z)) * string * string)) :=
  merge_sort (λ a b, String.le a.1 b.1) commands.

(** Lines 170 to 178: the defaults of the credentials and the ports. *)
Definition load_defaults (config : ConfigParser)
    : Res (string * string * Z * Z) :=
  let? fallback_user := get_fallback config GENERAL_SECTION "user" "admin" in
  let? fallback_password :=
    get_fallback config GENERAL_SECTION "password" "anel" in
  let? fallback_pin := getint_fallback config GENERAL_SECTION "pin" 75 in
  let? fallback_pout := getint_fallback config GENERAL_SECTION "pout" 77 in
  Ok (fallback_user, fallback_password, fallback_pin, fallback_pout).

Definition main (options : Options) (args : list string) : M (option Z) :=
  let! config := read_config in
  let! fallback := lift (load_defaults config) in
  let '(fallback_user, fallback_password, fallback_pin, fallback_pout) :=
    fallback in
  let options_user := default fallback_user (opt_user options) in
  let options_password := default fallback_password (opt_password options) in
  let options_pin := default fallback_pin (opt_pin options) in
  let options_pout := default fallback_pout (opt_pout options) in
  if opt_list options then
    print "The following commands are available:" >>>
    for_each sorted_commands
      (λ c, print ("- " +:+ c.1 +:+ " " +:+ c.2.1.2 +:+ " (" +:+ c.2.2 +:+ ")")) >>>
    ret (Some 0%Z)
  else
    match args with
    | [] => print "Command missing, please add one" >>> ret (Some 1%Z)
    | command :: rest =>
        match dict_get command commands with
        | None => print "Unknown command, sorry" >>> ret (Some 1%Z)
        | Some handler =>
            new_master options_pin options_pout options_user options_password >>>
            (if negb (opt_discover options)
                && negb (bool_decide (command = "save"))
             then load_devices config else ret tt) >>>
            (if opt_discover options then discover else ret tt) >>>
            handler.1.1 rest
        end
    end.
End Main.

(** [sys.exit(main())]: [None] is the exit status [0]. *)
Definition exit_status (r : option Z) : Z := default 0%Z r.

(** * Vocabulary of the statements *)

(** The handler prints [message], returns the status [1] and leaves the
    registry and the network alone. *)
Definition refuses (c : M (option Z)) (w : World) (message : string) : Prop :=
  ∃ w', c w = (Ok (Some 1%Z), w')
        ∧ exit_status (Some 1%Z) ≠ 0%Z
        ∧ stdout w' = stdout w ++ [message]
        ∧ requests w' = requests w
        ∧ master w' = master w.

(** The handler returns normally, having printed [lines] and sent exactly
    [sent], in this order. *)
Definition performs (c : M (option Z)) (w : World) (lines : list string)
    (sent : list Request) : Prop :=
  ∃ w', c w = (Ok None, w')
        ∧ stdout w' = stdout w ++ lines
        ∧ requests w' = requests w ++ sent.

(** The policy of [on]/[off] for the resolved set [plugs]. *)
Definition plug_policy (plugs : gset PlugRef) (state : bool)
    (c : M (option Z)) (w : World) : Prop :=
  (size plugs = 0 → refuses c w "No matching plugs found, sorry")
  ∧ (size plugs = 1 →
       ∃ plug, plugs = {[ plug ]}
               ∧ performs c w [] [SwitchRequest plug state])
  ∧ (1 < size plugs →
       ∃ order, order ≡ₚ elements plugs
                ∧ performs c w ["Warning: Setting multiple matching plugs"]
                    ((λ p, SwitchRequest p state) <$> order)).

(** The policy of [reset] for the resolved set [devices]. *)
Definition device_policy (devices : gset DeviceRef)
    (c : M (option Z)) (w : World) : Prop :=
  (size devices = 0 → refuses c w "No matching devices found, sorry")
  ∧ (size devices = 1 →
       ∃ device, devices = {[ device ]}
                 ∧ performs c w [] [ResetRequest device])
  ∧ (1 < size devices →
       ∃ order, order ≡ₚ elements devices
                ∧ performs c w ["Warning: Resetting multiple matching devices"]
                    (ResetRequest <$> order)).

(** The requests of [planned] that go out when they are sent in turn and
    the first one without an answer ends the command, and whether every
    one was answered. *)
Fixpoint sent_until_failure (answers : Request → bool) (planned : list Request)
    : list Request * bool :=
  match planned with
  | [] => ([], true)
  | request :: rest =>
      if answers request then
        let '(sent, complete) := sent_until_failure answers rest in
        (request :: sent, complete)
      else ([request], false)
  end.

(** The handler prints [lines] and sends the requests of [planned] in
    this order up to the first one that is not answered: it returns
    normally when all of them were answered and raises [NetworkFailure]
    otherwise. *)
Definition attempts (c : M (option Z)) (w : World) (lines : list string)
    (planned : list Request) : Prop :=
  ∃ w', c w = ((if (sent_until_failure (answers w) planned).2 then Ok None
                else Raise NetworkFailure), w')
        ∧ stdout w' = stdout w ++ lines
        ∧ requests w' = requests w ++ (sent_until_failure (answers w) planned).1.

(** The policy of [on]/[off] for the resolved set [plugs] on a network that
    may fail. *)
Definition plug_outcome (plugs : gset PlugRef) (state : bool)
    (c : M (option Z)) (w : World) : Prop :=
  (size plugs = 0 → refuses c w "No matching plugs found, sorry")
  ∧ (size plugs = 1 →
       ∃ plug, plugs = {[ plug ]}
               ∧ attempts c w [] [SwitchRequest plug state])
  ∧ (1 < size plugs →
       ∃ order, order ≡ₚ elements plugs
                ∧ attempts c w ["Warning: Setting multiple matching plugs"]
                    ((λ p, SwitchRequest p state) <$> order)).

(** The policy of [reset] for the resolved set [devices] on a network that
    may fail. *)
Definition device_outcome (devices : gset DeviceRef)
    (c : M (option Z)) (w : World) : Prop :=
  (size devices = 0 → refuses c w "No matching devices found, sorry")
  ∧ (size devices = 1 →
       ∃ device, devices = {[ device ]}
                 ∧ attempts c w [] [ResetRequest device])
  ∧ (1 < size devices →
       ∃ order, order ≡ₚ elements devices
                ∧ attempts c w ["Warning: Resetting multiple matching devices"]
                    (ResetRequest <$> order)).

(** Every request gets an answer. *)
Definition reliable (w : World) : Prop := ∀ request, answers w request = true.


(** A decimal digit as a number. *)
Definition digit_range (d : Z) : Prop := (0 ≤ d < 10)%Z.

(** ** Concrete inputs *)

(** A device section with the key [plug_1a]. *)
Definition config_plug_1a : ConfigParser :=
  {| cp_defaults := [];
     cp_sections := [("10.0.0.1", [("name", "Strip"); ("plug_1a", "Lamp")])] |}.


(** ** The codec *)

(** The entry that [save] writes for a plug, and the section it writes for
    a device. *)
Definition plug_key (plug : Plug.t) : string :=
  PLUG_PREFIX +:+ Py.str (Plug.index plug).

Definition plug_entry (plug : Plug.t) : string * string :=
  (plug_key plug, Plug.name plug).

Definition device_section (device : Device.t)
    : string * list (string * string) :=
  (Device.address device,
   ("name", Device.name device) :: (plug_entry <$> Device.plugs device)).

Definition general_entries (master : PlugMaster) : list (string * string) :=
  [("user", user master); ("password", password master);
   ("pin", Py.str (pin master)); ("pout", Py.str (pout master))].

(** The configuration that holds the general section and one section per
    device of [master]. *)
Definition saved_config (master : PlugMaster) : ConfigParser :=
  {| cp_defaults := [];
     cp_sections :=
       (GENERAL_SECTION, general_entries master)
       :: (device_section <$> devices master) |}.

(** The data of a device with every plug state forgotten. *)
Definition forget_device (device : Device.t) : Device.t :=
  Device.mk (Device.address device) (Device.name device)
    ((λ p, Plug.mk (Plug.index p) (Plug.name p) Unknown)
       <$> Device.plugs device).

Definition forget_states (master : PlugMaster) : PlugMaster :=
  {| pin := pin master; pout := pout master; user := user master;
     password := password master;
     devices := forget_device <$> devices master |}.

(** A text that the parser stores and returns unchanged. *)
Definition plain (text : string) : Prop := Py.contains_percent text = false.

(** A text without a line feed and without a carriage return. *)
Fixpoint one_line (text : string) : bool :=
  match text with
  | EmptyString => true
  | String c r =>
      negb (bool_decide (c = line_feed))
      && negb (bool_decide (c = carriage_return))
      && one_line r
  end.

(** A text that the file returns as it was written: one line, without
    white space at its start or its end. *)
Definition tidy (text : string) : Prop :=
  one_line text = true ∧ Py.str_strip text = text.

(** The characters of the option names that [save] writes. *)
Definition key_char (c : ascii) : bool :=
  let code := nat_of_ascii c in
  (97 <=? code) && (code <=? 122) || (48 <=? code) && (code <=? 57)
  || (code =? 95) || (code =? 45).

Fixpoint key_chars (text : string) : bool :=
  match text with
  | EmptyString => true
  | String c r => key_char c && key_chars r
  end.

(** An option name of lower-case letters, digits, underscores and minus
    signs. *)
Definition option_name (key : string) : Prop :=
  key ≠ EmptyString ∧ key_chars key = true.

(** A section that [write] writes and [read] returns as it was. *)
Record writable_section (section : string * list (string * string))
    : Prop := {
  header_not_empty : section.1 ≠ EmptyString;
  header_not_default : section.1 ≠ DEFAULTSECT;
  header_one_line : one_line section.1 = true;
  option_names_unique : NoDup section.2.*1;
  option_names : Forall (λ item, option_name item.1) section.2;
  option_values : Forall (λ item, tidy item.2) section.2
}.

(** The options of a section as [read] holds them before it joins the
    lines of each value, when every value is one line. *)
Definition single_lines (items : list (string * string))
    : list (string * list string) :=
  (λ item, (item.1, [item.2])) <$> items.

(** The lines of a section in the file, without their line feeds. *)
Definition section_lines (section : string * list (string * string))
    : list string :=
  ("[" +:+ section.1 +:+ "]")
  :: ((λ item, item.1 +:+ " = " +:+ item.2) <$> section.2)
  ++ [EmptyString].

(** A text that [parser.set] accepts as a value. *)
Definition accepted (text : string) : Prop :=
  match text with
  | EmptyString => Ok text
  | String _ _ => before_set text
  end = Ok text.

(** A device whose section [save] can write and [load_devices] can read
    back: the address is one line and not a name the parser reserves, the
    plug indices are distinct and not negative, the names are plain and
    tidy. *)
Record storable_device (device : Device.t) : Prop := {
  address_not_empty : Device.address device ≠ EmptyString;
  address_not_general : Device.address device ≠ GENERAL_SECTION;
  address_not_default : Device.address device ≠ DEFAULTSECT;
  address_one_line : one_line (Device.address device) = true;
  name_plain : plain (Device.name device);
  name_tidy : tidy (Device.name device);
  indices_unique : NoDup (Plug.index <$> Device.plugs device);
  indices_not_negative :
    Forall (λ p, (0 ≤ Plug.index p)%Z) (Device.plugs device);
  plug_names_plain : Forall (λ p, plain (Plug.name p)) (Device.plugs device);
  plug_names_tidy : Forall (λ p, tidy (Plug.name p)) (Device.plugs device)
}.

Record storable (master : PlugMaster) : Prop := {
  addresses_unique : NoDup (Device.address <$> devices master);
  devices_storable : Forall storable_device (devices master);
  user_plain : plain (user master);
  user_tidy : tidy (user master);
  password_plain : plain (password master);
  password_tidy : tidy (password master)
}.


(** Saving the registry of [w] succeeds and leaves a file that [read]
    parses, from which the defaults of the credentials and ports are those
    of the registry, and from which [load_devices] fills a new registry
    with the same devices and plugs, every state unknown. *)
Definition round_trips (args : list string) (w : World) : Prop :=
  let registry := master w in
  ∃ w' config,
    save args w = (Ok None, w')
    ∧ read_config w' = (Ok config, w')
    ∧ load_defaults config
      = Ok (user registry, password registry, pin registry, pout registry)
    ∧ ∀ w2,
        (new_master (pin registry) (pout registry) (user registry)
           (password registry) >>>
         load_devices config) w2
        = (Ok tt, with_master (forget_states registry) w2).

(** A world around a registry: no configuration file, nothing printed,
    nothing sent, a network that answers and a file that can be
    written. *)
Definition world_of (registry : PlugMaster) : World :=
  {| master := registry; config_file := None; stdout := []; requests := [];
     network := []; answers := λ _, true; storage := Writable |}.

Definition registry_of (devices : list Device.t) : PlugMaster :=
  {| pin := 75; pout := 77; user := "admin"; password := "anel";
     devices := devices |}.

(** The registry of the specification's scenario. *)
Definition strip_registry : PlugMaster :=
  registry_of
    [Device.mk "192.168.1.50" "Strip1"
       [Plug.mk 1 "Lamp" On; Plug.mk 2 "Fan" Off]].

(** A registry with a device whose address is the name of the general
    section. *)
Definition reserved_registry : PlugMaster :=
  registry_of [Device.mk "GENERAL" "Strip1" [Plug.mk 1 "Lamp" Unknown]].

(** [save] writes a second section with the reserved name for the device
    of [w] whose address is GENERAL: the file has two header lines of
    that name. *)
Definition emits_second_general (args : list string) (w : World) : Prop :=
  ∃ text,
    config_file (save args w).2 = Some text
    ∧ length (filter (λ line, line = terminated ("[" +:+ GENERAL_SECTION +:+ "]"))
                (readlines text)) = 2.

(** A configuration file with the general section and one device. *)
Definition strip_config : ConfigParser := saved_config strip_registry.

(** The options of an invocation that gives none. *)
Definition no_options : Options :=
  {| opt_list := false; opt_discover := false; opt_user := None;
     opt_password := None; opt_pin := None; opt_pout := None |}.





(** A world whose configuration file holds what [write] gives for
    [file]. *)
Definition world_with_file (file : ConfigParser) : World :=
  {| master := registry_of []; config_file := Some (write file); stdout := [];
     requests := []; network := []; answers := λ _, true;
     storage := Writable |}.

(** The pair that one plug key of a section contributes. *)
Definition plug_def_of (config : ConfigParser) (section key : string)
    (def : Z * string) : Prop :=
  Py.int (Py.slice_from (String.length PLUG_PREFIX) key) = Ok def.1
  ∧ get config section key = Ok def.2.

(** The keys that pass the test of line 51. *)
Definition plug_keys (keys : list string) : list string :=
  filter (λ key, Py.re_match_prefix_digits PLUG_PREFIX key = true) keys.

(** A device section that lists plug 2 before plug 1. *)
Definition unsorted_config : ConfigParser :=
  {| cp_defaults := [];
     cp_sections :=
       [("192.168.1.50",
         [("name", "Strip1"); ("plug_2", "Fan"); ("plug_1", "Lamp")])] |}.

(** Two devices that both have a plug named Desk. *)
Definition desks_registry : PlugMaster :=
  registry_of
    [Device.mk "192.168.1.50" "Strip1"
       [Plug.mk 1 "Desk" Unknown; Plug.mk 2 "Fan" Unknown];
     Device.mk "192.168.1.51" "Strip2"
       [Plug.mk 1 "Lamp" Unknown; Plug.mk 2 "Desk" Unknown]].

(** A configuration whose first device section has no name. *)
Definition nameless_config : ConfigParser :=
  {| cp_defaults := [];
     cp_sections :=
       [("10.0.0.7", [("plug_1", "Heater")]);
        ("192.168.1.50", [("name", "Strip1"); ("plug_1", "Lamp")])] |}.

(** A configuration whose general section gives the ports only. *)
Definition ports_only_config : ConfigParser :=
  {| cp_defaults := [];
     cp_sections := [("GENERAL", [("pin", "1075"); ("pout", "1077")])] |}.

(** ** Inputs with a failing network and with a [DEFAULT] section *)

(** The world of [w] on a network that answers nothing. *)
Definition unreachable (w : World) : World :=
  {| master := master w; config_file := config_file w; stdout := stdout w;
     requests := requests w; network := network w; answers := λ _, false;
     storage := storage w |}.

(** The text of the lines, each with its line feed. *)
Definition text_of (lines : list string) : string :=
  join_strings (terminated <$> lines).

(** A file whose device section has no name of its own and whose
    [DEFAULT] section gives one. *)
Definition inherited_name_text : string :=
  text_of ["[DEFAULT]"; "name = Shared"; EmptyString;
           "[10.0.0.7]"; "plug_1 = Heater"].

Definition inherited_name_config : ConfigParser :=
  {| cp_defaults := [("name", "Shared")];
     cp_sections := [("10.0.0.7", [("plug_1", "Heater")])] |}.

(** The section is in the configuration and has no entry [name] of its
    own. *)
Definition lacks_name (config : ConfigParser) (section : string) : Prop :=
  ∃ entries, dict_get section (cp_sections config) = Some entries
             ∧ dict_has "name" entries = false.

(** A file whose general section gives the inbound port only and whose
    [DEFAULT] section gives a user. *)
Definition inherited_user_text : string :=
  text_of ["[DEFAULT]"; "user = bob"; EmptyString;
           "[GENERAL]"; "pin = 75"].

Definition inherited_user_config : ConfigParser :=
  {| cp_defaults := [("user", "bob")];
     cp_sections := [("GENERAL", [("pin", "75")])] |}.

(** A file whose general section is empty and whose [DEFAULT] section
    gives a port that is not a number. *)
Definition inherited_port_text : string :=
  text_of ["[DEFAULT]"; "pout = none"; EmptyString; "[GENERAL]"].

Definition inherited_port_config : ConfigParser :=
  {| cp_defaults := [("pout", "none")]; cp_sections := [("GENERAL", [])] |}.

(** The general section of the configuration has no entry [key] of its
    own, or the configuration has no general section. *)
Definition general_omits (config : ConfigParser) (key : string) : Prop :=
  ∀ entries, dict_get GENERAL_SECTION (cp_sections config) = Some entries →
             dict_has key entries = false.

(** Neither the general section nor [DEFAULT] gives the key. *)
Definition not_provided (config : ConfigParser) (key : string) : Prop :=
  has_option config GENERAL_SECTION key = false.

(** Registries that are stored but do not come back as they were: a plug
    name with a space in front, a password with a space at its end. *)
Definition padded_name_registry : PlugMaster :=
  registry_of [Device.mk "192.168.1.50" "Strip1" [Plug.mk 1 " Lamp" Unknown]].

Definition padded_password_registry : PlugMaster :=
  {| pin := 75; pout := 77; user := "admin"; password := "anel ";
     devices := [] |}.

(** The file of [unsorted_config]: plug 2 is written before plug 1. *)
Definition unsorted_text : string :=
  text_of ["[192.168.1.50]"; "name = Strip1"; "plug_2 = Fan"; "plug_1 = Lamp"].

(** ** The printed report and the registry after a command *)

(** The lines that [print_master] prints for one device: the header, one
    line per plug, an empty line. *)
Definition device_lines (device : Device.t) : list string :=
  (Device.name device +:+ " (" +:+ Device.address device +:+ "):")
  :: (plug_line <$> Device.plugs device) ++ [EmptyString].

Definition report_lines (registry : PlugMaster) : list string :=
  concat (device_lines <$> devices registry).

Definition total_plugs (registry : PlugMaster) : nat :=
  sum_list (length ∘ Device.plugs <$> devices registry).

(** The last line of [save]. *)
Definition saved_summary (registry : PlugMaster) : string :=
  if decide (length (devices registry) = 0) then
    "Saved config without any devices"
  else
    "Saved config with " +:+ format_nat (length (devices registry))
    +:+ " device(s) and " +:+ format_nat (total_plugs registry) +:+ " plugs".

(** The last line of [show]. *)
Definition shown_summary (registry : PlugMaster) : string :=
  "There are " +:+ format_nat (length (devices registry)) +:+ " device(s) and "
  +:+ format_nat (total_plugs registry) +:+ " plug(s)".

(** The plug object behind a reference, if the reference is in range. *)
Definition plug_at (registry : PlugMaster) (plug : PlugRef) : option Plug.t :=
  match devices registry !! plug.1 with
  | Some device => Device.plugs device !! plug.2
  | None => None
  end.

(** A plug after a switch to [state]: same index and name. *)
Definition commanded (state : bool) (plug : Plug.t) : Plug.t :=
  Plug.mk (Plug.index plug) (Plug.name plug) (state_of_bool state).

(** The plugs of [plugs] that take the commanded state when they are
    switched in turn: those before the first one whose request is not
    answered. *)
Fixpoint switched (answers : Request → bool) (state : bool)
    (plugs : list PlugRef) : list PlugRef :=
  match plugs with
  | [] => []
  | plug :: rest =>
      if answers (SwitchRequest plug state) then
        plug :: switched answers state rest
      else []
  end.

(** The plugs that [on]/[off] resolves from its arguments; none when the
    number of arguments is refused. *)
Definition resolved_plugs `{!Matching} (registry : PlugMaster)
    (args : list string)
    : gset PlugRef :=
  match args with
  | [arg0] => search_plug registry arg0
  | [arg0; arg1] =>
      plugs_of_devices registry (search_device registry arg0) arg1
  | _ => ∅
  end.


(** Two devices at one address. *)
Definition twin_registry : PlugMaster :=
  registry_of
    [Device.mk "192.168.1.50" "Strip1" [Plug.mk 1 "Lamp" Unknown];
     Device.mk "192.168.1.50" "Strip2" [Plug.mk 1 "Fan" Unknown]].

(** What [save] writes for a device, as [load_devices] reads it: the
    options of the section are the name and then the plug keys in plug
    order, each with its value. *)
Definition section_written (parser : ConfigParser) (device : Device.t) : Prop :=
  options parser (Device.address device)
  = Ok ("name" :: (plug_key <$> Device.plugs device))
  ∧ get parser (Device.address device) "name" = Ok (Device.name device)
  ∧ Forall (λ p, get parser (Device.address device) (plug_key p)
                 = Ok (Plug.name p))
      (Device.plugs device).

(** The registry with [added] appended to its devices. *)
Definition append_devices (added : list Device.t) (registry : PlugMaster)
    : PlugMaster :=
  {| pin := pin registry; pout := pout registry; user := user registry;
     password := password registry; devices := devices registry ++ added |}.

Definition nameless_diagnostic : string :=
  "Device without name in configuration, skipping".

(** The sections that [load_devices] does not pass over. *)
Definition device_sections (names : list string) : list string :=
  filter (λ s, s ≠ GENERAL_SECTION) names.

(** A device as [create_device] builds it: every plug unknown. *)
Definition all_unknown (device : Device.t) : Prop :=
  Forall (λ p, Plug.state p = Unknown) (Device.plugs device).

(** A good section followed by one with the key [plug_1a]. *)
Definition half_good_config : ConfigParser :=
  {| cp_defaults := [];
     cp_sections :=
       [("192.168.1.50", [("name", "Strip1"); ("plug_1", "Lamp")]);
        ("10.0.0.1", [("name", "Strip"); ("plug_1a", "Lamp")]);
        ("192.168.1.51", [("name", "Strip2"); ("plug_2", "Fan")])] |}.

(** The output of the list option: the commands in the order of their
    names, each with its usage and description. *)
Definition command_list : list string :=
  ["The following commands are available:";
   "- off [device] plug (switch plug off)";
   "- on [device] plug (switch plug on)";
   "- reset  (save options and discovered devices)";
   "- save  (save options and discovered devices)";
   "- show  (show all discovered or saved devices)"].

Definition list_options : Options :=
  {| opt_list := true; opt_discover := false; opt_user := None;
     opt_password := None; opt_pin := None; opt_pout := None |}.

(** A configuration whose inbound port is not a number. *)
Definition bad_port_config : ConfigParser :=
  {| cp_defaults := [];
     cp_sections := [("GENERAL", [("user", "admin"); ("pin", "seventy")])] |}.

(** The devices that [reset] resolves from its arguments; none when the
    number of arguments is refused. *)
Definition resolved_devices `{!Matching} (registry : PlugMaster)
    (args : list string) : gset DeviceRef :=
  match args with
  | [arg0] => search_device registry arg0
  | _ => ∅
  end.

(** What [save] leaves when the parser could be built: on a file that can
    be written, the text of the parser and the report with its summary; on
    a file that cannot be opened, nothing; on a file that runs out of room,
    the part of the text that was taken and no output. *)
Definition save_result (parser : ConfigParser) (w : World)
    : Res (option Z) * World :=
  let text := write parser in
  let written :=
    (Ok None,
     with_stdout
       (stdout w ++ report_lines (master w) ++ [saved_summary (master w)])
       (with_config_file (Some text) w)) in
  match storage w with
  | Writable => written
  | Unwritable => (Raise OSError, w)
  | Exhausted room =>
      if String.length text <=? room then written
      else (Raise OSError, with_config_file (Some (Py.slice_to room text)) w)
  end.

(** A file that is not a configuration: an option before any section. *)
Definition headless_text : string := text_of ["user = admin"].
(** * Properties *)

#[local] Arguments configparser.interpolate_some : simpl never.
#[local] Arguments configparser.before_get : simpl never.
#[local] Arguments configparser.before_set : simpl never.

(** ** The session monad *)

Lemma bind_ok {A B} (c : M A) (k : A → M B) w a w' :
  c w = (Ok a, w') → bind c k w = k a w'.
Proof. unfold bind. by intros ->. Qed.

Lemma bind_raise {A B} (c : M A) (k : A → M B) w e w' :
  c w = (Raise e, w') → bind c k w = (Raise e, w').
Proof. unfold bind. by intros ->. Qed.


Lemma for_each_app {A} (l1 l2 : list A) (body : A → M unit) w :
  for_each (l1 ++ l2) body w = (for_each l1 body >>> for_each l2 body) w.
Proof.
  revert w. induction l1 as [|x l1 IH]; intros w; [reflexivity|].
  cbn [app for_each]. unfold bind.
  destruct (body x w) as [[[]|e] w1]; [|reflexivity].
  rewrite IH. reflexivity.
Qed.

Lemma sent_until_failure_cons answers request rest :
  sent_until_failure answers (request :: rest)
  = if answers request then
      (request :: (sent_until_failure answers rest).1,
       (sent_until_failure answers rest).2)
    else ([request], false).
Proof.
  cbn [sent_until_failure]. destruct (answers request); [|reflexivity].
  by destruct (sent_until_failure answers rest).
Qed.

Lemma sent_until_failure_reliable answers planned :
  (∀ request, answers request = true) →
  sent_until_failure answers planned = (planned, true).
Proof.
  intros Hall. induction planned as [|request rest IH]; [reflexivity|].
  by rewrite sent_until_failure_cons, Hall, IH.
Qed.

Lemma for_each_plug_switch (plugs : list PlugRef) (state : bool) w :
  ∃ w', for_each plugs (λ p, plug_switch p state) w
        = ((if (sent_until_failure (answers w)
                  ((λ p, SwitchRequest p state) <$> plugs)).2
            then Ok tt else Raise NetworkFailure), w')
        ∧ stdout w' = stdout w
        ∧ requests w'
          = requests w
            ++ (sent_until_failure (answers w)
                  ((λ p, SwitchRequest p state) <$> plugs)).1.
Proof.
  revert w. induction plugs as [|p plugs IH]; intros w.
  - exists w. cbn. by rewrite app_nil_r.
  - rewrite fmap_cons, sent_until_failure_cons. cbn [for_each].
    unfold bind at 1, plug_switch at 1.
    destruct (answers w (SwitchRequest p state)) eqn:Hanswer.
    + destruct (IH (with_master (set_plug_state p (state_of_bool state) (master w))
                      (with_requests (requests w ++ [SwitchRequest p state]) w)))
        as (w' & Hrun & Hout & Hreq).
      exists w'. split; [exact Hrun|]. split; [exact Hout|].
      rewrite Hreq. cbn. by rewrite <- app_assoc.
    + eexists. split; [reflexivity|]. by cbn.
Qed.

Lemma for_each_device_reset (devices : list DeviceRef) w :
  ∃ w', for_each devices device_reset w
        = ((if (sent_until_failure (answers w) (ResetRequest <$> devices)).2
            then Ok tt else Raise NetworkFailure), w')
        ∧ stdout w' = stdout w
        ∧ requests w'
          = requests w
            ++ (sent_until_failure (answers w) (ResetRequest <$> devices)).1.
Proof.
  revert w. induction devices as [|d devices IH]; intros w.
  - exists w. cbn. by rewrite app_nil_r.
  - rewrite fmap_cons, sent_until_failure_cons. cbn [for_each].
    unfold bind at 1, device_reset at 1.
    destruct (answers w (ResetRequest d)) eqn:Hanswer.
    + destruct (IH (with_requests (requests w ++ [ResetRequest d]) w))
        as (w' & Hrun & Hout & Hreq).
      exists w'. split; [exact Hrun|]. split; [exact Hout|].
      rewrite Hreq. cbn. by rewrite <- app_assoc.
    + eexists. split; [reflexivity|]. by cbn.
Qed.

Lemma size_1_singleton `{Countable K} (X : gset K) :
  size X = 1 → ∃ x, X = {[ x ]} ∧ elements X = [x].
Proof.
  intros Hsize. apply size_1_elem_of in Hsize as [x Hx].
  apply leibniz_equiv in Hx. exists x. split; [done|].
  rewrite Hx. apply elements_singleton.
Qed.

Section RouterProperties.
Context `{!Matching}.

Lemma loop_outcome (c : M unit) (w0 w' : World) (complete : bool) :
  c w0 = ((if complete then Ok tt else Raise NetworkFailure), w') →
  (c >>> ret (None : option Z)) w0
  = ((if complete then Ok (None : option Z) else Raise NetworkFailure), w').
Proof. unfold bind. intros ->. by destruct complete. Qed.

Lemma switch_plugs_outcome plugs state w :
  plug_outcome plugs state (switch_plugs plugs state) w.
Proof.
  unfold plug_outcome, switch_plugs, refuses, attempts. repeat split.
  - intros Hsize. rewrite decide_True by done.
    eexists. split; [reflexivity|]. by cbn.
  - intros Hsize. destruct (size_1_singleton plugs Hsize) as (p & Hp & Hel).
    exists p. split; [done|].
    rewrite decide_False by lia. rewrite decide_False by lia.
    rewrite Hel. erewrite bind_ok by reflexivity.
    destruct (for_each_plug_switch [p] state w) as (w' & Hrun & Hout & Hreq).
    exists w'. split; [by apply loop_outcome|]. split; [|done].
    by rewrite Hout, app_nil_r.
  - intros Hsize. exists (elements plugs). split; [done|].
    rewrite decide_False by lia. rewrite decide_True by done.
    erewrite bind_ok by reflexivity.
    destruct (for_each_plug_switch (elements plugs) state
                (with_stdout
                   (stdout w ++ ["Warning: Setting multiple matching plugs"]) w))
      as (w' & Hrun & Hout & Hreq).
    exists w'. split; [by apply loop_outcome|]. done.
Qed.

Lemma reset_devices_outcome devices w :
  device_outcome devices (reset_devices devices) w.
Proof.
  unfold device_outcome, reset_devices, refuses, attempts. repeat split.
  - intros Hsize. rewrite decide_True by done.
    eexists. split; [reflexivity|]. by cbn.
  - intros Hsize. destruct (size_1_singleton devices Hsize) as (d & Hd & Hel).
    exists d. split; [done|].
    rewrite decide_False by lia. rewrite decide_False by lia.
    rewrite Hel. erewrite bind_ok by reflexivity.
    destruct (for_each_device_reset [d] w) as (w' & Hrun & Hout & Hreq).
    exists w'. split; [by apply loop_outcome|]. split; [|done].
    by rewrite Hout, app_nil_r.
  - intros Hsize. exists (elements devices). split; [done|].
    rewrite decide_False by lia. rewrite decide_True by done.
    erewrite bind_ok by reflexivity.
    destruct (for_each_device_reset (elements devices)
                (with_stdout
                   (stdout w ++ ["Warning: Resetting multiple matching devices"]) w))
      as (w' & Hrun & Hout & Hreq).
    exists w'. split; [by apply loop_outcome|]. done.
Qed.

Lemma attempts_reliable c w lines planned :
  reliable w → attempts c w lines planned → performs c w lines planned.
Proof.
  intros Hreliable (w' & Hrun & Hout & Hreq).
  rewrite sent_until_failure_reliable in Hrun, Hreq by done.
  by exists w'.
Qed.

Lemma plug_outcome_reliable plugs state c w :
  reliable w → plug_outcome plugs state c w → plug_policy plugs state c w.
Proof.
  intros Hreliable (Hnone & Hone & Hmany). split; [done|]. split.
  - intros Hsize. destruct (Hone Hsize) as (plug & Hplug & Hrun).
    exists plug. split; [done|]. by apply attempts_reliable.
  - intros Hsize. destruct (Hmany Hsize) as (order & Horder & Hrun).
    exists order. split; [done|]. by apply attempts_reliable.
Qed.

Lemma device_outcome_reliable devices c w :
  reliable w → device_outcome devices c w → device_policy devices c w.
Proof.
  intros Hreliable (Hnone & Hone & Hmany). split; [done|]. split.
  - intros Hsize. destruct (Hone Hsize) as (device & Hdevice & Hrun).
    exists device. split; [done|]. by apply attempts_reliable.
  - intros Hsize. destruct (Hmany Hsize) as (order & Horder & Hrun).
    exists order. split; [done|]. by apply attempts_reliable.
Qed.

(** C3, as amended: with one or two arguments for [on]/[off], or one for
    [reset], no match prints an error, returns a non-zero status and sends
    nothing; exactly one match is acted on; several matches print a warning
    and are acted on one after the other, each at most once, up to the
    first request that is not answered, where the handler raises
    [NetworkFailure].  On a network that answers every request the handler
    returns normally and every match is acted on, each once. *)
Theorem resolution_policy (w : World) (state : bool) :
  ((∀ arg0,
      plug_outcome (search_plug (master w) arg0) state
        (switch [arg0] state) w)
   ∧ (∀ arg0 arg1,
        plug_outcome
          (plugs_of_devices (master w) (search_device (master w) arg0) arg1)
          state (switch [arg0; arg1] state) w)
   ∧ (∀ arg0,
        device_outcome (search_device (master w) arg0) (reset [arg0]) w))
  ∧ (reliable w →
     (∀ arg0,
        plug_policy (search_plug (master w) arg0) state
          (switch [arg0] state) w)
     ∧ (∀ arg0 arg1,
          plug_policy
            (plugs_of_devices (master w) (search_device (master w) arg0) arg1)
            state (switch [arg0; arg1] state) w)
     ∧ (∀ arg0,
          device_policy (search_device (master w) arg0) (reset [arg0]) w)).
Proof.
  split; [split; [|split]; intros|].
  - apply switch_plugs_outcome.
  - apply switch_plugs_outcome.
  - apply reset_devices_outcome.
  - intros Hreliable. split; [|split]; intros.
    + apply plug_outcome_reliable, switch_plugs_outcome. done.
    + apply plug_outcome_reliable, switch_plugs_outcome. done.
    + apply device_outcome_reliable, reset_devices_outcome. done.
Qed.

(** C6: [on]/[off] without argument or with three or more, and [reset]
    with two or more, print an error, return a non-zero status and send
    no request. *)
Theorem arity_gate (w : World) (state : bool) :
  refuses (switch [] state) w
    "Not enough arguments. Please add at least a plug name."
  ∧ (∀ arg0 arg1 arg2 rest,
       refuses (switch (arg0 :: arg1 :: arg2 :: rest) state) w
         "Too many arguments. Only plug name and optionally device name expected.")
  ∧ (∀ arg0 arg1 rest,
       refuses (reset (arg0 :: arg1 :: rest)) w
         "Too many arguments. Only device name expected.").
Proof.
  split; [|split]; intros; (eexists; split; [reflexivity|]; by cbn).
Qed.

Lemma device_search_plug_fst (master : PlugMaster) (device : DeviceRef)
    (pattern : string) (plug : PlugRef) :
  plug ∈ device_search_plug master device pattern → plug.1 = device.
Proof.
  unfold device_search_plug. destruct (devices master !! device); [|set_solver].
  rewrite elem_of_list_to_set, list_elem_of_fmap.
  by intros (j & -> & _).
Qed.

Lemma elem_of_plugs_of_list (master : PlugMaster) (pattern : string)
    (l : list DeviceRef)
    (acc : gset PlugRef) (plug : PlugRef) :
  plug ∈ foldl (λ plugs device,
                  plugs ∪ device_search_plug master device pattern) acc l
  ↔ plug ∈ acc
    ∨ ∃ device, device ∈ l ∧ plug ∈ device_search_plug master device pattern.
Proof.
  revert acc. induction l as [|d l IH]; intros acc; cbn [foldl].
  - split; [by left|]. intros [?|(d & Hd & _)]; [done|]. by apply elem_of_nil in Hd.
  - rewrite IH, elem_of_union. split.
    + intros [[?|?]|(d' & Hd' & Hp)].
      * by left.
      * right. exists d. split; [left|done].
      * right. exists d'. split; [by right|done].
    + intros [?|(d' & Hd' & Hp)]; [by left; left|].
      apply elem_of_cons in Hd' as [->|Hd']; [by left; right|].
      right. by exists d'.
Qed.

(** C7: with two arguments the resolved plugs are exactly the plugs that
    some device matched by the first argument finds for the second one;
    no plug of another device is among them, and the handler acts on
    this set. *)
Theorem two_argument_resolution (w : World) (arg0 arg1 : string)
    (state : bool) :
  let resolved :=
    plugs_of_devices (master w) (search_device (master w) arg0) arg1 in
  (∀ plug : PlugRef,
     plug ∈ resolved
     ↔ ∃ device, device ∈ search_device (master w) arg0
                 ∧ plug ∈ device_search_plug (master w) device arg1)
  ∧ (∀ plug : PlugRef,
       plug.1 ∉ search_device (master w) arg0 → plug ∉ resolved)
  ∧ switch [arg0; arg1] state w = switch_plugs resolved state w.
Proof.
  intros resolved.
  assert (Hin : ∀ plug : PlugRef,
    plug ∈ resolved
    ↔ ∃ device, device ∈ search_device (master w) arg0
                ∧ plug ∈ device_search_plug (master w) device arg1).
  { intros plug. unfold resolved, plugs_of_devices.
    rewrite elem_of_plugs_of_list. split.
    - intros [Hempty|(d & Hd & Hp)]; [by apply not_elem_of_empty in Hempty|].
      exists d. split; [by apply elem_of_elements|done].
    - intros (d & Hd & Hp). right. exists d.
      split; [by apply elem_of_elements|done]. }
  split; [exact Hin|]. split; [|reflexivity].
  intros plug Hnot Hplug. apply Hin in Hplug as (d & Hd & Hp).
  apply device_search_plug_fst in Hp. by subst d.
Qed.
End RouterProperties.

(** ** Loading the configuration *)

Lemma general_section_plain :
  bool_decide (GENERAL_SECTION = EmptyString)
  || bool_decide (GENERAL_SECTION = DEFAULTSECT) = false.
Proof. reflexivity. Qed.

Lemma absent_option_lookup (config : ConfigParser) (option : string) :
  has_option config GENERAL_SECTION option = false →
  unify_values config GENERAL_SECTION = Raise NoSectionError
  ∨ ∃ d, unify_values config GENERAL_SECTION = Ok d
         ∧ d (optionxform option) = None.
Proof.
  unfold has_option, unify_values, dict_has. rewrite general_section_plain.
  destruct (dict_get GENERAL_SECTION (cp_sections config)) as [sectdict|].
  - intros Habsent. right. eexists. split; [reflexivity|]. cbn beta.
    destruct (dict_get (optionxform option) sectdict); [done|].
    by destruct (dict_get (optionxform option) (cp_defaults config)).
  - intros _. left. by rewrite decide_False.
Qed.

Lemma absent_option_get_fallback (config : ConfigParser) (option fallback : string) :
  has_option config GENERAL_SECTION option = false →
  get_fallback config GENERAL_SECTION option fallback = Ok fallback.
Proof.
  intros Habsent. unfold get_fallback.
  destruct (absent_option_lookup _ _ Habsent) as [->|(d & -> & ->)]; done.
Qed.

Lemma absent_option_getint_fallback (config : ConfigParser) (option : string)
    (fallback : Z) :
  has_option config GENERAL_SECTION option = false →
  getint_fallback config GENERAL_SECTION option fallback = Ok fallback.
Proof.
  intros Habsent. unfold getint_fallback, get.
  destruct (absent_option_lookup _ _ Habsent) as [->|(d & -> & Hd)]; [done|].
  cbn [res_bind]. by rewrite Hd.
Qed.

Lemma load_defaults_absent (config : ConfigParser) :
  not_provided config "user" → not_provided config "password" →
  not_provided config "pin" → not_provided config "pout" →
  load_defaults config = Ok ("admin", "anel", 75%Z, 77%Z).
Proof.
  unfold not_provided, load_defaults. intros Huser Hpassword Hpin Hpout.
  rewrite !absent_option_get_fallback by done. cbn [res_bind].
  by rewrite !absent_option_getint_fallback.
Qed.

Lemma load_defaults_values (config : ConfigParser) user password pin pout :
  load_defaults config = Ok (user, password, pin, pout) →
  get_fallback config GENERAL_SECTION "user" "admin" = Ok user
  ∧ get_fallback config GENERAL_SECTION "password" "anel" = Ok password
  ∧ getint_fallback config GENERAL_SECTION "pin" 75 = Ok pin
  ∧ getint_fallback config GENERAL_SECTION "pout" 77 = Ok pout.
Proof.
  unfold load_defaults.
  destruct (get_fallback config GENERAL_SECTION "user" "admin"); [|done].
  destruct (get_fallback config GENERAL_SECTION "password" "anel"); [|done].
  destruct (getint_fallback config GENERAL_SECTION "pin" 75); [|done].
  destruct (getint_fallback config GENERAL_SECTION "pout" 77); [|done].
  cbn [res_bind]. by intros [= -> -> -> ->].
Qed.

(** C9, as amended: a missing configuration file is read as an empty
    configuration without error, and it yields the defaults admin, anel, 75
    and 77.  In any configuration, a key among user, password, pin and pout
    that neither the general section nor the section [DEFAULT] provides
    resolves to its default and never is the cause of an error: when none of
    the four is provided the defaults are admin, anel, 75 and 77; when the
    defaults load, every key that is not provided has its built-in value;
    and when they do not load, some key is provided. *)
Theorem defaults_when_absent :
  (∀ w, config_file w = None →
        read_config w = (Ok configparser.new, w)
        ∧ load_defaults configparser.new = Ok ("admin", "anel", 75%Z, 77%Z))
  ∧ (∀ config,
       not_provided config "user" → not_provided config "password" →
       not_provided config "pin" → not_provided config "pout" →
       load_defaults config = Ok ("admin", "anel", 75%Z, 77%Z))
  ∧ (∀ config user password pin pout,
       load_defaults config = Ok (user, password, pin, pout) →
       (not_provided config "user" → user = "admin")
       ∧ (not_provided config "password" → password = "anel")
       ∧ (not_provided config "pin" → pin = 75%Z)
       ∧ (not_provided config "pout" → pout = 77%Z))
  ∧ (∀ config e,
       load_defaults config = Raise e →
       ∃ key, key ∈ ["user"; "password"; "pin"; "pout"]
              ∧ has_option config GENERAL_SECTION key = true)
  ∧ (∀ config,
       (not_provided config "user" →
        get_fallback config GENERAL_SECTION "user" "admin" = Ok "admin")
       ∧ (not_provided config "password" →
          get_fallback config GENERAL_SECTION "password" "anel" = Ok "anel")
       ∧ (not_provided config "pin" →
          getint_fallback config GENERAL_SECTION "pin" 75 = Ok 75%Z)
       ∧ (not_provided config "pout" →
          getint_fallback config GENERAL_SECTION "pout" 77 = Ok 77%Z)).
Proof.
  split; [|split; [|split; [|split]]].
  - intros w Hmissing. split; [|reflexivity].
    unfold read_config. by rewrite Hmissing.
  - apply load_defaults_absent.
  - intros config user password pin pout
      (Huser & Hpassword & Hpin & Hpout)%load_defaults_values.
    repeat split; intros Habsent.
    + rewrite absent_option_get_fallback in Huser by done. by injection Huser.
    + rewrite absent_option_get_fallback in Hpassword by done.
      by injection Hpassword.
    + rewrite absent_option_getint_fallback in Hpin by done. by injection Hpin.
    + rewrite absent_option_getint_fallback in Hpout by done. by injection Hpout.
  - intros config e Hraise.
    destruct (has_option config GENERAL_SECTION "user") eqn:Huser.
    { exists "user". split; [|done]. apply elem_of_cons. by left. }
    destruct (has_option config GENERAL_SECTION "password") eqn:Hpassword.
    { exists "password". split; [|done]. rewrite !elem_of_cons. tauto. }
    destruct (has_option config GENERAL_SECTION "pin") eqn:Hpin.
    { exists "pin". split; [|done]. rewrite !elem_of_cons. tauto. }
    destruct (has_option config GENERAL_SECTION "pout") eqn:Hpout.
    { exists "pout". split; [|done]. rewrite !elem_of_cons. tauto. }
    rewrite load_defaults_absent in Hraise by done. discriminate Hraise.
  - intros config. repeat split.
    + apply absent_option_get_fallback.
    + apply absent_option_get_fallback.
    + apply absent_option_getint_fallback.
    + apply absent_option_getint_fallback.
Qed.

(** C9 as stated fails: a key that the general section omits is taken
    from the section [DEFAULT] when that section has it.  With a user
    there the user is not admin, and with a port there that is not a
    number the load is an error. *)
Lemma default_section_overrides :
  ¬ (∀ config user password pin pout,
       general_omits config "user" →
       load_defaults config = Ok (user, password, pin, pout) →
       user = "admin")
  ∧ ¬ (∀ config,
         general_omits config "pout" → ∃ fallback, load_defaults config = Ok fallback)
  ∧ read (Some inherited_user_text) = Ok inherited_user_config
  ∧ load_defaults inherited_user_config = Ok ("bob", "anel", 75%Z, 77%Z)
  ∧ read (Some inherited_port_text) = Ok inherited_port_config
  ∧ load_defaults inherited_port_config = Raise ValueError.
Proof.
  assert (load_defaults inherited_user_config = Ok ("bob", "anel", 75%Z, 77%Z))
    as Huser by reflexivity.
  assert (load_defaults inherited_port_config = Raise ValueError)
    as Hport by reflexivity.
  split; [|split; [|split; [|split; [|split]]]];
    [| |vm_compute; reflexivity|exact Huser|vm_compute; reflexivity|exact Hport].
  - intros Hclaim.
    assert ("bob" = "admin") as Heq; [|discriminate Heq].
    apply (Hclaim inherited_user_config "bob" "anel" 75%Z 77%Z); [|exact Huser].
    by intros entries [= <-].
  - intros Hclaim. destruct (Hclaim inherited_port_config) as [fallback Hok].
    + by intros entries [= <-].
    + rewrite Hport in Hok. discriminate Hok.
Qed.

Lemma has_no_name (config : ConfigParser) (section : string) entries :
  dict_get section (cp_sections config) = Some entries →
  dict_has "name" entries = false →
  dict_has "name" (cp_defaults config) = false →
  has_option config section "name" = false.
Proof.
  intros Hsection Hown Hdefault. unfold has_option.
  change (optionxform "name") with "name".
  destruct (bool_decide (section = EmptyString)
            || bool_decide (section = DEFAULTSECT)); [done|].
  by rewrite Hsection, Hown, Hdefault.
Qed.

(** C8, as amended: a section other than the general one that has no
    name entry of its own, in a configuration whose section [DEFAULT] has
    none either, prints the diagnostic, creates no device, and the load
    goes on with the sections after it. *)
Theorem nameless_section_skipped (config : ConfigParser) (section : string)
    (entries : list (string * string)) (w : World) :
  section ≠ GENERAL_SECTION →
  dict_get section (cp_sections config) = Some entries →
  dict_has "name" entries = false →
  dict_has "name" (cp_defaults config) = false →
  load_device config section w
  = (Ok tt,
     with_stdout
       (stdout w ++ ["Device without name in configuration, skipping"]) w)
  ∧ ∀ before after,
      sections config = before ++ section :: after →
      load_devices config w
      = (for_each before (load_device config) >>>
         print "Device without name in configuration, skipping" >>>
         for_each after (load_device config)) w.
Proof.
  intros Hsection Hentries Hown Hdefault.
  pose proof (has_no_name config section entries Hentries Hown Hdefault) as Hname.
  assert (Hstep : ∀ w', load_device config section w'
                        = print "Device without name in configuration, skipping" w').
  { intros w'. unfold load_device. rewrite decide_False by done.
    by rewrite Hname. }
  split; [by rewrite Hstep|].
  intros before after Hsections. unfold load_devices.
  rewrite Hsections, for_each_app. unfold bind.
  destruct (for_each before (load_device config) w) as [[[]|e] w1]; [|done].
  cbn [for_each]. unfold bind. by rewrite Hstep.
Qed.

(** C8 as stated fails: a section without a name entry of its own
    inherits the name that the section [DEFAULT] gives; the load prints
    nothing and creates a device from it. *)
Lemma inherited_name_not_skipped :
  ¬ (∀ config section w,
       section ≠ GENERAL_SECTION → lacks_name config section →
       load_device config section w
       = (Ok tt,
          with_stdout
            (stdout w ++ ["Device without name in configuration, skipping"]) w))
  ∧ read (Some inherited_name_text) = Ok inherited_name_config
  ∧ load_devices inherited_name_config (world_of (registry_of []))
    = (Ok tt,
       with_master
         (registry_of [Device.mk "10.0.0.7" "Shared" [Plug.mk 1 "Heater" Unknown]])
         (world_of (registry_of []))).
Proof.
  split; [|split; [vm_compute; reflexivity|reflexivity]].
  intros Hclaim.
  specialize (Hclaim inherited_name_config "10.0.0.7" (world_of (registry_of []))).
  assert (load_device inherited_name_config "10.0.0.7" (world_of (registry_of []))
          = (Ok tt,
             with_master
               (registry_of
                  [Device.mk "10.0.0.7" "Shared" [Plug.mk 1 "Heater" Unknown]])
               (world_of (registry_of [])))) as Hrun by reflexivity.
  rewrite Hrun in Hclaim.
  assert (with_master
            (registry_of [Device.mk "10.0.0.7" "Shared" [Plug.mk 1 "Heater" Unknown]])
            (world_of (registry_of []))
          = with_stdout
              (stdout (world_of (registry_of []))
               ++ ["Device without name in configuration, skipping"])
              (world_of (registry_of []))) as Heq.
  { assert (∀ a b : World, (Ok tt, a) = (Ok tt, b) → a = b) as Hinj
      by (by intros a b [= ->]).
    apply Hinj, Hclaim; [discriminate|].
    eexists. split; reflexivity. }
  apply (f_equal stdout) in Heq. discriminate Heq.
Qed.

Lemma load_device_adds (config : ConfigParser) (section : string) (w : World) :
  ∃ added,
    devices (master (load_device config section w).2) = devices (master w) ++ added
    ∧ Forall (λ d, Device.address d ≠ GENERAL_SECTION) added.
Proof.
  unfold load_device.
  destruct (decide (section = GENERAL_SECTION)) as [|Hsection].
  { exists []. by rewrite app_nil_r. }
  destruct (has_option config section "name").
  2:{ exists []. by rewrite app_nil_r. }
  cbn [negb]. unfold bind, lift.
  destruct (get config section "name") as [name|e].
  2:{ exists []. by rewrite app_nil_r. }
  destruct (options config section) as [keys|e].
  2:{ exists []. by rewrite app_nil_r. }
  destruct (res_foldl (load_plug config section) [] keys) as [plugs|e].
  2:{ exists []. by rewrite app_nil_r. }
  unfold create_device. destruct (has_address section (master w)).
  { exists []. by rewrite app_nil_r. }
  eexists [_]. split; [reflexivity|]. by constructor.
Qed.

Lemma load_sections_add (config : ConfigParser) (l : list string) (w : World) :
  ∃ added,
    devices (master (for_each l (load_device config) w).2)
    = devices (master w) ++ added
    ∧ Forall (λ d, Device.address d ≠ GENERAL_SECTION) added.
Proof.
  revert w. induction l as [|section l IH]; intros w.
  { exists []. by rewrite app_nil_r. }
  cbn [for_each]. unfold bind.
  destruct (load_device_adds config section w) as (added1 & Hdev1 & Hadd1).
  destruct (load_device config section w) as [[[]|e] w1]; cbn [snd] in *.
  - destruct (IH w1) as (added2 & Hdev2 & Hadd2).
    exists (added1 ++ added2). rewrite Hdev2, Hdev1, app_assoc.
    split; [done|]. by apply Forall_app.
  - by exists added1.
Qed.

(** C5: a device section with the key [plug_1a].  The key passes the test of
    line 51 and [int] raises on line 54: the load stops with [ValueError]
    and creates no device. *)
Theorem load_plug_1a_raises (w : World) :
  Py.re_match_prefix_digits PLUG_PREFIX "plug_1a" = true
  ∧ load_devices config_plug_1a w = (Raise ValueError, w).
Proof. split; reflexivity. Qed.
(** ** Python numerals and strings *)

Lemma digit_range_cases d :
  digit_range d → d ∈ [0; 1; 2; 3; 4; 5; 6; 7; 8; 9]%Z.
Proof.
  unfold digit_range. intros Hd. rewrite !elem_of_cons. lia.
Qed.

Ltac by_digit d H :=
  let Hc := fresh in
  pose proof (digit_range_cases d H) as Hc;
  repeat (apply elem_of_cons in Hc as [->|Hc]; [reflexivity|]);
  by apply elem_of_nil in Hc.

Lemma digit_value_char d : digit_range d → Py.digit_value (Py.digit_char d) = Some d.
Proof. intros H. by_digit d H. Qed.

Lemma digit_char_not_space d : digit_range d → Py.is_space (Py.digit_char d) = false.
Proof. intros H. by_digit d H. Qed.

Lemma digit_char_lower d : digit_range d → Py.lower_char (Py.digit_char d) = Py.digit_char d.
Proof. intros H. by_digit d H. Qed.

Lemma digit_char_plain d :
  digit_range d →
  bool_decide (Py.digit_char d = "%"%char) = false.
Proof. intros H. by_digit d H. Qed.

Lemma dec_digits_S fuel n :
  Py.dec_digits (S fuel) n
  = if (n <? 10)%Z then [n]
    else Py.dec_digits fuel (n / 10)%Z ++ [(n mod 10)%Z].
Proof. reflexivity. Qed.

Lemma dec_digits_spec fuel n :
  (0 ≤ n < 2 ^ Z.of_nat (S fuel))%Z →
  Forall digit_range (Py.dec_digits (S fuel) n)
  ∧ Py.dec_digits (S fuel) n ≠ []
  ∧ foldl (λ a d, 10 * a + d)%Z 0%Z (Py.dec_digits (S fuel) n) = n.
Proof.
  revert n. induction fuel as [|fuel IH]; intros n Hn.
  - assert (n = 0 ∨ n = 1)%Z as [-> | ->] by lia;
      (split; [apply Forall_singleton; unfold digit_range; lia|done]).
  - rewrite (dec_digits_S (S fuel)). destruct (Z.ltb_spec n 10) as [Hlt|Hge].
    + split; [apply Forall_singleton; unfold digit_range; lia|].
      split; [done|]. cbn. lia.
    + assert (0 ≤ n / 10 < 2 ^ Z.of_nat (S fuel))%Z as Hdiv.
      { split; [apply Z.div_pos; lia|].
        apply Z.div_lt_upper_bound; [lia|].
        replace (Z.of_nat (S (S fuel))) with (Z.succ (Z.of_nat (S fuel))) in Hn
          by lia.
        rewrite Z.pow_succ_r in Hn by lia. lia. }
      destruct (IH _ Hdiv) as (Hrange & Hne & Hval).
      split; [|split].
      * apply Forall_app. split; [exact Hrange|].
        apply Forall_singleton. unfold digit_range.
        apply Z.mod_pos_bound. lia.
      * intros Hnil. by apply app_eq_nil in Hnil as [_ ?].
      * rewrite foldl_app, Hval. cbn. pose proof (Z.div_mod n 10). lia.
Qed.

Lemma str_nonneg_digits n :
  (0 ≤ n)%Z →
  ∃ d ds, Py.str_nonneg n = Py.digits_string (d :: ds)
          ∧ Forall digit_range (d :: ds)
          ∧ foldl (λ a d, 10 * a + d)%Z 0%Z (d :: ds) = n.
Proof.
  intros Hn. unfold Py.str_nonneg.
  destruct (dec_digits_spec (Z.to_nat (Z.log2 n)) n) as (Hrange & Hne & Hval).
  { split; [done|]. rewrite Nat2Z.inj_succ, Z2Nat.id by apply Z.log2_nonneg.
    destruct (decide (n = 0%Z)) as [->|]; [done|].
    apply Z.log2_spec. lia. }
  destruct (Py.dec_digits (S (Z.to_nat (Z.log2 n))) n) as [|d ds]; [done|].
  by exists d, ds.
Qed.

Lemma digits_string_cons d ds :
  Py.digits_string (d :: ds) = String (Py.digit_char d) (Py.digits_string ds).
Proof. reflexivity. Qed.

Lemma parse_digits_string ds acc :
  Forall digit_range ds →
  Py.parse_digits acc true (Py.digits_string ds)
  = Some (foldl (λ a d, 10 * a + d)%Z acc ds).
Proof.
  intros Hds. revert acc. induction Hds as [|d ds Hd _ IH]; intros acc; [done|].
  rewrite digits_string_cons. cbn [Py.parse_digits foldl].
  rewrite digit_value_char by done. apply IH.
Qed.

Lemma parse_digits_string_first d ds acc prev :
  Forall digit_range (d :: ds) →
  Py.parse_digits acc prev (Py.digits_string (d :: ds))
  = Some (foldl (λ a d, 10 * a + d)%Z acc (d :: ds)).
Proof.
  intros Hds. apply Forall_cons in Hds as [Hd Hds].
  rewrite digits_string_cons. cbn [Py.parse_digits foldl].
  rewrite digit_value_char by done.
  by apply (parse_digits_string ds).
Qed.

Lemma rstrip_digits ds :
  Forall digit_range ds → Py.rstrip (Py.digits_string ds) = Py.digits_string ds.
Proof.
  induction 1 as [|d ds Hd _ IH]; [done|].
  rewrite digits_string_cons. cbn [Py.rstrip]. rewrite IH.
  destruct (Py.digits_string ds); [|done].
  by rewrite digit_char_not_space.
Qed.

Lemma lower_digits ds :
  Forall digit_range ds → Py.lower (Py.digits_string ds) = Py.digits_string ds.
Proof.
  induction 1 as [|d ds Hd _ IH]; [done|].
  rewrite digits_string_cons. cbn [Py.lower].
  by rewrite IH, digit_char_lower.
Qed.

Lemma no_percent_digits ds :
  Forall digit_range ds → Py.contains_percent (Py.digits_string ds) = false.
Proof.
  induction 1 as [|d ds Hd _ IH]; [done|].
  rewrite digits_string_cons. cbn [Py.contains_percent].
  pose proof (digit_char_plain d Hd) as Hplain.
  destruct (decide (Py.digit_char d = "%"%char)) as [Heq|]; [|exact IH].
  by rewrite bool_decide_eq_false in Hplain.
Qed.

Lemma parse_int_digits d ds :
  Forall digit_range (d :: ds) →
  Py.parse_int (Py.digits_string (d :: ds))
  = Some (foldl (λ a d, 10 * a + d)%Z 0%Z (d :: ds)).
Proof.
  intros Hds. unfold Py.parse_int.
  assert (Py.lstrip (Py.digits_string (d :: ds)) = Py.digits_string (d :: ds))
    as ->.
  { rewrite digits_string_cons. cbn [Py.lstrip].
    apply Forall_cons in Hds as [Hd _]. by rewrite digit_char_not_space. }
  rewrite rstrip_digits by done.
  rewrite <- (parse_digits_string_first d ds 0 false Hds).
  apply Forall_cons in Hds as [Hd _].
  rewrite digits_string_cons.
  pose proof (digit_range_cases d Hd) as Hc.
  repeat (apply elem_of_cons in Hc as [->|Hc]; [reflexivity|]).
  by apply elem_of_nil in Hc.
Qed.

Lemma int_str (n : Z) : Py.int (Py.str n) = Ok n.
Proof.
  unfold Py.int, Py.str. destruct (Z.ltb_spec n 0) as [Hneg|Hpos].
  - destruct (str_nonneg_digits (- n)) as (d & ds & -> & Hds & Hval); [lia|].
    unfold Py.parse_int.
    change (Py.lstrip (String "-" (Py.digits_string (d :: ds))))
      with (String "-" (Py.digits_string (d :: ds))).
    assert (Py.rstrip (String "-" (Py.digits_string (d :: ds)))
            = String "-" (Py.digits_string (d :: ds))) as ->.
    { cbn [Py.rstrip]. rewrite rstrip_digits by done. done. }
    rewrite parse_digits_string_first by done. cbn [fmap option_fmap option_map].
    rewrite Hval. f_equal. lia.
  - destruct (str_nonneg_digits n) as (d & ds & -> & Hds & Hval); [lia|].
    rewrite parse_int_digits by done. by rewrite Hval.
Qed.

Lemma str_lower (n : Z) : Py.lower (Py.str n) = Py.str n.
Proof.
  unfold Py.str. destruct (Z.ltb_spec n 0) as [Hneg|Hpos].
  - destruct (str_nonneg_digits (- n)) as (d & ds & -> & Hds & _); [lia|].
    cbn [Py.lower]. by rewrite lower_digits.
  - destruct (str_nonneg_digits n) as (d & ds & -> & Hds & _); [lia|].
    by rewrite lower_digits.
Qed.

Lemma str_no_percent (n : Z) : Py.contains_percent (Py.str n) = false.
Proof.
  unfold Py.str. destruct (Z.ltb_spec n 0) as [Hneg|Hpos].
  - destruct (str_nonneg_digits (- n)) as (d & ds & -> & Hds & _); [lia|].
    cbn [Py.contains_percent]. rewrite decide_False by done.
    by rewrite no_percent_digits.
  - destruct (str_nonneg_digits n) as (d & ds & -> & Hds & _); [lia|].
    by rewrite no_percent_digits.
Qed.

Lemma str_inj (n m : Z) : Py.str n = Py.str m → n = m.
Proof.
  intros Heq. pose proof (int_str n) as Hn. rewrite Heq, int_str in Hn.
  by injection Hn.
Qed.

Lemma str_starts_with_digit (n : Z) :
  (0 ≤ n)%Z → ∃ c r, Py.str n = String c r ∧ Py.is_digit c = true.
Proof.
  intros Hn. unfold Py.str. destruct (Z.ltb_spec n 0); [lia|].
  destruct (str_nonneg_digits n) as (d & ds & -> & Hds & _); [lia|].
  apply Forall_cons in Hds as [Hd _].
  eexists _, _. split; [reflexivity|].
  unfold Py.is_digit. by rewrite digit_value_char.
Qed.
(** ** Values without interpolation *)

Lemma contains_percent_cons c r :
  Py.contains_percent (String c r) = false →
  c ≠ "%"%char ∧ Py.contains_percent r = false.
Proof.
  cbn [Py.contains_percent]. by destruct (decide (c = "%"%char)).
Qed.

Lemma break_percent_plain s :
  Py.contains_percent s = false → break_percent s = (s, EmptyString).
Proof.
  induction s as [|c r IH]; [done|].
  intros [Hc Hr]%contains_percent_cons.
  cbn [break_percent]. rewrite decide_False by done. by rewrite IH.
Qed.

Lemma interpolate_some_plain levels map s :
  Py.contains_percent s = false →
  interpolate_some (S levels) map s EmptyString = Ok s.
Proof.
  intros Hs. destruct s as [|c r]; [reflexivity|].
  pose proof (break_percent_plain _ Hs) as Hbreak.
  cbv beta iota delta [interpolate_some].
  rewrite Hbreak. reflexivity.
Qed.

Lemma before_get_plain map value :
  Py.contains_percent value = false → before_get map value = Ok value.
Proof. apply (interpolate_some_plain 9). Qed.

Lemma remove_escaped_other c r :
  c ≠ "%"%char → remove_escaped (String c r) = String c (remove_escaped r).
Proof.
  intros Hc. destruct c as [[] [] [] [] [] [] [] []]; try reflexivity.
  by destruct Hc.
Qed.

Lemma keycre_match_other c r : c ≠ "%"%char → keycre_match (String c r) = None.
Proof.
  intros Hc. destruct c as [[] [] [] [] [] [] [] []]; try reflexivity.
  by destruct Hc.
Qed.

Lemma remove_escaped_plain s :
  Py.contains_percent s = false → remove_escaped s = s.
Proof.
  induction s as [|c r IH]; [done|].
  intros [Hc Hr]%contains_percent_cons.
  rewrite remove_escaped_other by done. by rewrite IH.
Qed.

Lemma keycre_sub_plain steps s :
  Py.contains_percent s = false → keycre_sub steps s = s.
Proof.
  revert s. induction steps as [|steps IH]; intros s; [done|].
  destruct s as [|c r]; [done|].
  intros [Hc Hr]%contains_percent_cons.
  cbn [keycre_sub]. rewrite keycre_match_other by done. by rewrite IH.
Qed.

Lemma before_set_plain value :
  Py.contains_percent value = false → before_set value = Ok value.
Proof.
  intros Hv. unfold before_set.
  rewrite remove_escaped_plain, keycre_sub_plain by done. by rewrite Hv.
Qed.

(** ** Dictionaries *)

Lemma dict_get_app_other {V} k k' (v : V) d :
  k ≠ k' → dict_get k (d ++ [(k', v)]) = dict_get k d.
Proof.
  intros Hk. induction d as [|[k0 v0] d IH]; cbn [app dict_get].
  - by rewrite decide_False.
  - by rewrite IH.
Qed.

Lemma dict_get_app_fresh {V} k (v : V) d :
  dict_get k d = None → dict_get k (d ++ [(k, v)]) = Some v.
Proof.
  induction d as [|[k0 v0] d IH]; cbn [app dict_get].
  - by rewrite decide_True.
  - destruct (decide (k = k0)); [done|]. exact IH.
Qed.

Lemma dict_set_fresh {V} k (v : V) d :
  dict_get k d = None → dict_set k v d = d ++ [(k, v)].
Proof.
  induction d as [|[k0 v0] d IH]; cbn [app dict_get dict_set]; [done|].
  destruct (decide (k = k0)); [done|]. intros Hd. by rewrite IH.
Qed.

Lemma dict_set_last {V} k (v v' : V) d :
  dict_get k d = None → dict_set k v' (d ++ [(k, v)]) = d ++ [(k, v')].
Proof.
  induction d as [|[k0 v0] d IH]; cbn [app dict_get dict_set].
  - by rewrite decide_True.
  - destruct (decide (k = k0)); [done|]. intros Hd. by rewrite IH.
Qed.

Lemma dict_has_set {V} k k' (v : V) d :
  dict_has k d = true → dict_has k (dict_set k' v d) = true.
Proof.
  unfold dict_has. induction d as [|[k0 v0] d IH]; cbn [dict_get dict_set]; [done|].
  destruct (decide (k' = k0)) as [->|Hk'].
  - cbn [dict_get]. by destruct (decide (k = k0)).
  - cbn [dict_get]. by destruct (decide (k = k0)).
Qed.

Lemma dict_has_app {V} k (d e : list (string * V)) :
  dict_has k d = true → dict_has k (d ++ e) = true.
Proof.
  unfold dict_has. induction d as [|[k0 v0] d IH]; cbn [app dict_get]; [done|].
  by destruct (decide (k = k0)).
Qed.

Lemma dict_get_None {V} k (d : list (string * V)) :
  k ∉ d.*1 → dict_get k d = None.
Proof.
  induction d as [|[k0 v0] d IH]; [done|].
  cbn [fmap list_fmap dict_get fst]. rewrite not_elem_of_cons. intros [Hk Hd].
  rewrite decide_False by done. by apply IH.
Qed.

(** ** Sections of a parser *)

Lemma add_section_fresh defaults sects section :
  section ≠ DEFAULTSECT →
  dict_get section sects = None →
  add_section {| cp_defaults := defaults; cp_sections := sects |} section
  = Ok {| cp_defaults := defaults; cp_sections := sects ++ [(section, [])] |}.
Proof.
  intros Hdefault Hfresh. unfold add_section, dict_has. cbn [cp_sections cp_defaults].
  rewrite decide_False by done. by rewrite Hfresh.
Qed.

Lemma plain_accepted value : plain value → accepted value.
Proof.
  unfold plain, accepted. intros Hv. destruct value; [done|].
  by apply before_set_plain.
Qed.


Lemma set_last_section_accepted defaults sects section entries option value :
  section ≠ EmptyString →
  section ≠ DEFAULTSECT →
  dict_get section sects = None →
  accepted value →
  set {| cp_defaults := defaults; cp_sections := sects ++ [(section, entries)] |}
    section option value
  = Ok {| cp_defaults := defaults;
          cp_sections :=
            sects ++ [(section, dict_set (optionxform option) value entries)] |}.
Proof.
  intros Hempty Hdefault Hfresh Hvalue. unfold set.
  unfold accepted in Hvalue. rewrite Hvalue. cbn [res_bind cp_sections cp_defaults].
  rewrite !bool_decide_eq_false_2 by done. cbn [orb].
  rewrite dict_get_app_fresh by done. by rewrite dict_set_last.
Qed.

Lemma set_last_section defaults sects section entries option value :
  section ≠ EmptyString →
  section ≠ DEFAULTSECT →
  dict_get section sects = None →
  plain value →
  set {| cp_defaults := defaults; cp_sections := sects ++ [(section, entries)] |}
    section option value
  = Ok {| cp_defaults := defaults;
          cp_sections :=
            sects ++ [(section, dict_set (optionxform option) value entries)] |}.
Proof.
  intros ? ? ? ?%plain_accepted. by apply set_last_section_accepted.
Qed.


(** ** What [save] writes *)

Lemma plug_key_chars plug :
  plug_key plug
  = String "p" (String "l" (String "u" (String "g"
      (String "_" (Py.str (Plug.index plug)))))).
Proof. reflexivity. Qed.

Lemma plug_key_lower plug : optionxform (plug_key plug) = plug_key plug.
Proof.
  rewrite plug_key_chars. unfold optionxform. cbn [Py.lower].
  by rewrite str_lower.
Qed.

Lemma plug_key_inj p q : plug_key p = plug_key q → Plug.index p = Plug.index q.
Proof.
  rewrite !plug_key_chars. intros [= Heq]. by apply str_inj.
Qed.

Lemma plug_key_not_name plug : plug_key plug ≠ "name".
Proof. rewrite plug_key_chars. discriminate. Qed.

Lemma save_plugs_shape defaults sects address entries plugs :
  address ≠ EmptyString →
  address ≠ DEFAULTSECT →
  dict_get address sects = None →
  NoDup (Plug.index <$> plugs) →
  Forall (λ p, plain (Plug.name p)) plugs →
  (∀ p, p ∈ plugs → dict_get (plug_key p) entries = None) →
  res_foldl (save_plug address)
    {| cp_defaults := defaults; cp_sections := sects ++ [(address, entries)] |}
    plugs
  = Ok {| cp_defaults := defaults;
          cp_sections :=
            sects ++ [(address, entries ++ (plug_entry <$> plugs))] |}.
Proof.
  intros Hempty Hdefault Hfresh.
  revert entries. induction plugs as [|p plugs IH]; intros entries Hnodup Hplain Hkeys.
  { cbn. by rewrite app_nil_r. }
  rewrite fmap_cons in Hnodup. apply NoDup_cons in Hnodup as [Hp Hnodup].
  apply Forall_cons in Hplain as [Hname Hplain].
  cbn [res_foldl]. unfold save_plug at 1. fold (plug_key p).
  rewrite set_last_section by done. cbn [res_bind].
  rewrite plug_key_lower. rewrite dict_set_fresh by (apply Hkeys, elem_of_cons; by left).
  rewrite IH; [|done|done|].
  - by rewrite <- app_assoc.
  - intros q Hq. rewrite dict_get_app_other.
    + apply Hkeys, elem_of_cons. by right.
    + intros Heq. apply plug_key_inj in Heq. apply Hp. rewrite <- Heq.
      by apply list_elem_of_fmap_2.
Qed.

Lemma save_device_shape defaults sects device :
  storable_device device →
  dict_get (Device.address device) sects = None →
  save_device {| cp_defaults := defaults; cp_sections := sects |} device
  = Ok {| cp_defaults := defaults;
          cp_sections := sects ++ [device_section device] |}.
Proof.
  intros [] Hfresh. unfold save_device.
  rewrite add_section_fresh by done. cbn [res_bind].
  rewrite set_last_section by done. cbn [res_bind].
  change (dict_set (optionxform "name") (Device.name device) [])
    with [("name", Device.name device)].
  rewrite save_plugs_shape; [done..|].
  intros p _. cbn [dict_get]. rewrite decide_False; [done|].
  apply plug_key_not_name.
Qed.

Lemma save_devices_shape defaults sects devices :
  NoDup (Device.address <$> devices) →
  Forall storable_device devices →
  (∀ d, d ∈ devices → dict_get (Device.address d) sects = None) →
  res_foldl save_device {| cp_defaults := defaults; cp_sections := sects |}
    devices
  = Ok {| cp_defaults := defaults;
          cp_sections := sects ++ (device_section <$> devices) |}.
Proof.
  revert sects. induction devices as [|d devices IH]; intros sects Hnodup Hok Hfresh.
  { cbn. by rewrite app_nil_r. }
  rewrite fmap_cons in Hnodup. apply NoDup_cons in Hnodup as [Hd Hnodup].
  apply Forall_cons in Hok as [Hdev Hok].
  cbn [res_foldl]. rewrite save_device_shape by (try done; apply Hfresh, elem_of_cons; by left).
  cbn [res_bind]. rewrite IH; [|done|done|].
  - by rewrite <- app_assoc.
  - intros d' Hd'. unfold device_section at 1. rewrite dict_get_app_other.
    + apply Hfresh, elem_of_cons. by right.
    + intros Heq. apply Hd. rewrite <- Heq. by apply list_elem_of_fmap_2.
Qed.

Lemma general_section_shape (master : PlugMaster) :
  accepted (user master) → accepted (password master) →
  (let? parser := add_section configparser.new GENERAL_SECTION in
   let? parser := set parser GENERAL_SECTION "user" (user master) in
   let? parser := set parser GENERAL_SECTION "password" (password master) in
   let? parser := set parser GENERAL_SECTION "pin" (Py.str (pin master)) in
   set parser GENERAL_SECTION "pout" (Py.str (pout master)))
  = Ok {| cp_defaults := [];
          cp_sections := [(GENERAL_SECTION, general_entries master)] |}.
Proof.
  intros Huser Hpassword.
  change (add_section configparser.new GENERAL_SECTION)
    with (Ok {| cp_defaults := [];
                cp_sections := [] ++ [(GENERAL_SECTION, [])] |}).
  cbn [res_bind].
  rewrite set_last_section_accepted by done. cbn [res_bind].
  rewrite set_last_section_accepted by done. cbn [res_bind].
  rewrite set_last_section by (try done; apply str_no_percent). cbn [res_bind].
  rewrite set_last_section by (try done; apply str_no_percent).
  reflexivity.
Qed.

Lemma save_parser_shape (master : PlugMaster) :
  storable master → save_parser master = Ok (saved_config master).
Proof.
  intros [? ? ?%plain_accepted _ ?%plain_accepted _]. unfold save_parser.
  pose proof (general_section_shape master) as Hgeneral.
  cbv zeta in Hgeneral |- *.
  destruct (add_section configparser.new GENERAL_SECTION) as [p0|]; [|by discriminate Hgeneral].
  cbn [res_bind] in Hgeneral |- *.
  destruct (set p0 _ _ _) as [p1|]; [|by discriminate Hgeneral].
  cbn [res_bind] in Hgeneral |- *.
  destruct (set p1 _ _ _) as [p2|]; [|by discriminate Hgeneral].
  cbn [res_bind] in Hgeneral |- *.
  destruct (set p2 _ _ _) as [p3|]; [|by discriminate Hgeneral].
  cbn [res_bind] in Hgeneral |- *.
  rewrite Hgeneral by done. cbn [res_bind].
  rewrite save_devices_shape; [done..|].
  intros d Hd. cbn [dict_get]. rewrite decide_False; [done|].
  eapply Forall_forall in Hd; [|done]. by destruct Hd.
Qed.
(** ** What [load_devices] reads back *)

Lemma dict_get_elem {V} k (v : V) (l : list (string * V)) :
  NoDup l.*1 → (k, v) ∈ l → dict_get k l = Some v.
Proof.
  induction l as [|[k0 v0] l IH]; [by intros _ ?%elem_of_nil|].
  rewrite fmap_cons. cbn [fst dict_get].
  intros [Hk0 Hnodup]%NoDup_cons [Heq|Hin]%elem_of_cons.
  - injection Heq as -> ->. by rewrite decide_True.
  - rewrite decide_False; [by apply IH|].
    intros ->. apply Hk0. by apply (list_elem_of_fmap_2 fst) in Hin.
Qed.

Lemma plug_keys_nodup plugs :
  NoDup (Plug.index <$> plugs) → NoDup (plug_key <$> plugs).
Proof.
  induction plugs as [|p plugs IH]; [constructor|].
  rewrite !fmap_cons. intros [Hp Hnodup]%NoDup_cons.
  apply NoDup_cons. split; [|by apply IH].
  intros (q & Heq & Hq)%list_elem_of_fmap. apply Hp.
  rewrite (plug_key_inj _ _ Heq). by apply list_elem_of_fmap_2.
Qed.

Lemma plug_entry_lookup (name : string) plugs p :
  NoDup (Plug.index <$> plugs) → p ∈ plugs →
  dict_get (plug_key p) (("name", name) :: (plug_entry <$> plugs))
  = Some (Plug.name p).
Proof.
  intros Hnodup Hp. cbn [dict_get].
  rewrite decide_False by apply plug_key_not_name.
  apply dict_get_elem.
  - rewrite <- list_fmap_compose. by apply plug_keys_nodup.
  - by apply (list_elem_of_fmap_2 plug_entry).
Qed.

Lemma get_plain config section entries key value :
  dict_get section (cp_sections config) = Some entries →
  optionxform key = key →
  dict_get key entries = Some value →
  plain value →
  get config section key = Ok value.
Proof.
  intros Hsection Hkey Hentry Hplain. unfold get, unify_values.
  rewrite Hsection. cbn [res_bind]. rewrite Hkey, Hentry.
  by apply before_get_plain.
Qed.

Lemma get_fallback_plain config section entries key value fallback :
  dict_get section (cp_sections config) = Some entries →
  optionxform key = key →
  dict_get key entries = Some value →
  plain value →
  get_fallback config section key fallback = Ok value.
Proof.
  intros Hsection Hkey Hentry Hplain. unfold get_fallback, unify_values.
  rewrite Hsection, Hkey, Hentry. by apply before_get_plain.
Qed.

Lemma getint_fallback_plain config section entries key (n fallback : Z) :
  dict_get section (cp_sections config) = Some entries →
  optionxform key = key →
  dict_get key entries = Some (Py.str n) →
  getint_fallback config section key fallback = Ok n.
Proof.
  intros Hsection Hkey Hentry. unfold getint_fallback.
  erewrite get_plain by (try done; apply str_no_percent).
  apply int_str.
Qed.

Lemma load_defaults_saved (master : PlugMaster) :
  plain (user master) → plain (password master) →
  load_defaults (saved_config master)
  = Ok (user master, password master, pin master, pout master).
Proof.
  intros Huser Hpassword. unfold load_defaults.
  erewrite (get_fallback_plain _ _ (general_entries master) "user")
    by (try reflexivity; done).
  cbn [res_bind].
  erewrite (get_fallback_plain _ _ (general_entries master) "password")
    by (try reflexivity; done).
  cbn [res_bind].
  erewrite (getint_fallback_plain _ _ (general_entries master) "pin")
    by reflexivity.
  cbn [res_bind].
  erewrite (getint_fallback_plain _ _ (general_entries master) "pout")
    by reflexivity.
  reflexivity.
Qed.

Lemma plug_key_matches plug :
  (0 ≤ Plug.index plug)%Z →
  Py.re_match_prefix_digits PLUG_PREFIX (plug_key plug) = true.
Proof.
  intros Hindex. rewrite plug_key_chars.
  destruct (str_starts_with_digit _ Hindex) as (c & r & -> & Hdigit).
  exact Hdigit.
Qed.

Lemma plug_key_slice plug :
  Py.slice_from (String.length PLUG_PREFIX) (plug_key plug)
  = Py.str (Plug.index plug).
Proof. reflexivity. Qed.

Lemma load_plugs_shape config section plugs acc :
  (∀ p, p ∈ plugs →
        (0 ≤ Plug.index p)%Z
        ∧ get config section (plug_key p) = Ok (Plug.name p)) →
  res_foldl (load_plug config section) acc (plug_key <$> plugs)
  = Ok (acc ++ ((λ p, (Plug.index p, Plug.name p)) <$> plugs)).
Proof.
  revert acc. induction plugs as [|p plugs IH]; intros acc Hplugs.
  { cbn. by rewrite app_nil_r. }
  destruct (Hplugs p) as [Hindex Hget]; [apply elem_of_cons; by left|].
  rewrite fmap_cons. cbn [res_foldl]. unfold load_plug at 1.
  rewrite plug_key_matches by done. cbn [negb].
  rewrite plug_key_slice, int_str. cbn [res_bind].
  rewrite Hget. cbn [res_bind].
  rewrite IH by (intros q Hq; apply Hplugs, elem_of_cons; by right).
  by rewrite <- app_assoc.
Qed.

Lemma saved_section_lookup (master : PlugMaster) device :
  storable master → device ∈ devices master →
  dict_get (Device.address device) (cp_sections (saved_config master))
  = Some (device_section device).2.
Proof.
  intros [Hnodup Hdevices _ _ _ _] Hdevice.
  unfold saved_config. cbn [cp_sections dict_get].
  rewrite decide_False.
  2:{ eapply Forall_forall in Hdevices; [|done]. by destruct Hdevices. }
  apply dict_get_elem.
  - by rewrite <- list_fmap_compose.
  - by apply (list_elem_of_fmap_2 device_section).
Qed.

Lemma load_device_saved (registry : PlugMaster) device w :
  storable registry → device ∈ devices registry →
  has_address (Device.address device) (master w) = false →
  load_device (saved_config registry) (Device.address device) w
  = (Ok tt, with_master (add_device (forget_device device) (master w)) w).
Proof.
  intros Hregistry Hdevice Hfree.
  pose proof (saved_section_lookup registry device Hregistry Hdevice) as Hsection.
  destruct Hregistry as [_ Hdevices _ _ _ _].
  eapply Forall_forall in Hdevices; [|done].
  destruct Hdevices as [? ? ? _ Hname _ Hunique Hnonneg Hnames _].
  unfold load_device. rewrite decide_False by done.
  assert (has_option (saved_config registry) (Device.address device) "name" = true)
    as ->.
  { unfold has_option. rewrite !bool_decide_eq_false_2 by done. cbn [orb].
    by rewrite Hsection. }
  cbn [negb].
  erewrite bind_ok.
  2:{ unfold lift. erewrite get_plain; [reflexivity|exact Hsection|done..]. }
  erewrite bind_ok.
  2:{ unfold lift, options. rewrite Hsection. reflexivity. }
  erewrite bind_ok.
  2:{ unfold lift. cbn [device_section snd dict_update foldl cp_defaults
                        saved_config dict_keys fmap list_fmap fst res_foldl].
      change (load_plug (saved_config registry) (Device.address device) [] "name")
        with (Ok ([] : list (Z * string))).
      cbn [res_bind].
      change ((fix go (l : list (string * string)) : list string :=
                 match l with
                 | [] => []
                 | x :: l0 => x.1 :: go l0
                 end) (plug_entry <$> Device.plugs device))
        with ((plug_entry <$> Device.plugs device).*1).
      rewrite <- list_fmap_compose.
      change (fst ∘ plug_entry) with plug_key.
      rewrite load_plugs_shape; [reflexivity|].
      intros p Hp. split.
      - eapply Forall_forall in Hnonneg; done.
      - eapply get_plain; [exact Hsection|apply plug_key_lower| |].
        + by apply plug_entry_lookup.
        + eapply Forall_forall in Hnames; done. }
  unfold create_device. rewrite Hfree. cbn [app].
  rewrite <- list_fmap_compose. reflexivity.
Qed.

Lemma with_master_twice m m' w :
  with_master m' (with_master m w) = with_master m' w.
Proof. reflexivity. Qed.

Lemma add_forgotten_devices (m : PlugMaster) (l : list Device.t) :
  foldl (λ m d, add_device (forget_device d) m) m l
  = {| pin := pin m; pout := pout m; user := user m; password := password m;
       devices := devices m ++ (forget_device <$> l) |}.
Proof.
  revert m. induction l as [|d l IH]; intros m.
  - cbn. rewrite app_nil_r. by destruct m.
  - cbn [foldl]. rewrite IH. cbn [add_device pin pout user password devices].
    by rewrite <- app_assoc.
Qed.

Lemma load_sections_saved (registry : PlugMaster) (l : list Device.t) w :
  storable registry →
  (∀ d, d ∈ l → d ∈ devices registry) →
  NoDup ((Device.address <$> devices (master w)) ++ (Device.address <$> l)) →
  for_each (Device.address <$> l) (load_device (saved_config registry)) w
  = (Ok tt,
     with_master (foldl (λ m d, add_device (forget_device d) m) (master w) l) w).
Proof.
  intros Hregistry. revert w. induction l as [|d l IH]; intros w Hin Hnodup.
  { cbn. by destruct w. }
  rewrite fmap_cons. cbn [for_each foldl].
  erewrite bind_ok.
  2:{ apply load_device_saved; [done|apply Hin, elem_of_cons; by left|].
      apply bool_decide_eq_false_2. rewrite fmap_cons in Hnodup.
      apply NoDup_app in Hnodup as (_ & Hdisjoint & _).
      intros Hd. apply (Hdisjoint _ Hd), elem_of_cons. by left. }
  rewrite IH.
  - by rewrite with_master_twice.
  - intros d' Hd'. apply Hin, elem_of_cons. by right.
  - cbn [master with_master add_device devices].
    rewrite fmap_app, <- app_assoc. by rewrite fmap_cons in Hnodup.
Qed.

Lemma load_devices_saved (registry : PlugMaster) w :
  storable registry →
  devices (master w) = [] →
  load_devices (saved_config registry) w
  = (Ok tt,
     with_master
       {| pin := pin (master w); pout := pout (master w);
          user := user (master w); password := password (master w);
          devices := forget_device <$> devices registry |} w).
Proof.
  intros Hregistry Hempty. unfold load_devices, sections, saved_config.
  cbn [cp_sections dict_keys fmap list_fmap fst for_each].
  change ((fix go (l : list (string * list (string * string))) : list string :=
             match l with
             | [] => []
             | x :: l0 => x.1 :: go l0
             end) (device_section <$> devices registry))
    with ((device_section <$> devices registry).*1).
  rewrite <- list_fmap_compose.
  change (fst ∘ device_section) with Device.address.
  erewrite bind_ok by reflexivity.
  rewrite (load_sections_saved registry); [|done|done|].
  - by rewrite add_forgotten_devices, Hempty.
  - rewrite Hempty. cbn [fmap list_fmap app]. by destruct Hregistry.
Qed.

Lemma print_devices_ok (l : list Device.t) (count : nat) w :
  ∃ lines,
    print_devices l count w
    = (Ok (count + sum_list (length ∘ Device.plugs <$> l)),
       with_stdout (stdout w ++ lines) w).
Proof.
  revert count w. induction l as [|d l IH]; intros count w.
  { exists []. cbn. rewrite app_nil_r, Nat.add_0_r. by destruct w. }
  cbn [print_devices].
  erewrite bind_ok by reflexivity.
  assert (∀ plugs w0, ∃ lines,
            for_each plugs (λ plug, print (plug_line plug)) w0
            = (Ok tt, with_stdout (stdout w0 ++ lines) w0)) as Hplugs.
  { clear. induction plugs as [|p plugs IH]; intros w0.
    - exists []. cbn. rewrite app_nil_r. by destruct w0.
    - cbn [for_each]. erewrite bind_ok by reflexivity.
      destruct (IH (with_stdout (stdout w0 ++ [plug_line p]) w0)) as [lines ->].
      exists (plug_line p :: lines). cbn [stdout with_stdout].
      rewrite <- app_assoc. reflexivity. }
  destruct (Hplugs (Device.plugs d)
              (with_stdout
                 (stdout w ++ [Device.name d +:+ " (" +:+ Device.address d +:+ "):"])
                 w)) as [lines1 Hlines1].
  erewrite bind_ok by exact Hlines1.
  erewrite bind_ok by reflexivity.
  match goal with |- ∃ _, print_devices _ _ ?w1 = _ =>
    destruct (IH (count + length (Device.plugs d)) w1) as [lines2 ->] end.
  exists ((Device.name d +:+ " (" +:+ Device.address d +:+ "):")
          :: lines1 ++ EmptyString :: lines2).
  cbn [stdout with_stdout fmap list_fmap sum_list compose].
  f_equal.
  - f_equal. unfold id. lia.
  - unfold with_stdout. cbn [stdout master config_file requests network].
    f_equal. rewrite <- !app_assoc. reflexivity.
Qed.
(** ** The text of the configuration file *)

Lemma append_cons c a b : String c a +:+ b = String c (a +:+ b).
Proof. reflexivity. Qed.

Lemma append_assoc a b c : (a +:+ b) +:+ c = a +:+ (b +:+ c).
Proof.
  induction a as [|x a IH]; [reflexivity|]. by rewrite !append_cons, IH.
Qed.

Lemma key_char_spec c r :
  key_char c = true →
  Py.is_whitespace c = false ∧ is_delimiter c = false ∧ Py.lower_char c = c
  ∧ is_comment (String c r) = false ∧ sectcre_match (String c r) = None
  ∧ c ≠ line_feed ∧ c ≠ carriage_return.
Proof.
  destruct c as [[] [] [] [] [] [] [] []]; intros Hc; vm_compute in Hc;
    try discriminate Hc; repeat split; try reflexivity; discriminate.
Qed.

Lemma str_rstrip_cons c r :
  Py.str_rstrip (String c r)
  = match Py.str_rstrip r with
    | EmptyString =>
        if Py.is_whitespace c then EmptyString else String c EmptyString
    | String c' kept => String c (String c' kept)
    end.
Proof. reflexivity. Qed.

Lemma str_rstrip_keep a b :
  Py.str_rstrip b ≠ EmptyString →
  Py.str_rstrip (a +:+ b) = a +:+ Py.str_rstrip b.
Proof.
  intros Hb. induction a as [|c a IH]; [reflexivity|].
  rewrite !append_cons, str_rstrip_cons, IH.
  destruct (Py.str_rstrip b) as [|c' kept]; [done|]. by destruct a.
Qed.

Lemma str_rstrip_drop a b :
  Py.str_rstrip b = EmptyString → Py.str_rstrip (a +:+ b) = Py.str_rstrip a.
Proof.
  intros Hb. induction a as [|c a IH]; [exact Hb|].
  by rewrite append_cons, !str_rstrip_cons, IH.
Qed.

Lemma str_rstrip_first c r :
  Py.is_whitespace c = false → ∃ kept, Py.str_rstrip (String c r) = String c kept.
Proof.
  intros Hc. rewrite str_rstrip_cons, Hc.
  destruct (Py.str_rstrip r); by eexists.
Qed.

Lemma str_lstrip_length s :
  String.length (Py.str_lstrip s) ≤ String.length s.
Proof.
  induction s as [|c r IH]; [done|]. cbn [Py.str_lstrip].
  destruct (Py.is_whitespace c); cbn [String.length]; lia.
Qed.

Lemma str_rstrip_length s :
  String.length (Py.str_rstrip s) ≤ String.length s.
Proof.
  induction s as [|c r IH]; [done|]. rewrite str_rstrip_cons.
  destruct (Py.str_rstrip r); [destruct (Py.is_whitespace c)|];
    cbn [String.length] in *; lia.
Qed.

Lemma str_strip_fixed s :
  Py.str_strip s = s → Py.str_lstrip s = s ∧ Py.str_rstrip s = s.
Proof.
  unfold Py.str_strip. intros Hs.
  assert (Py.str_lstrip s = s) as Hleft.
  { pose proof (str_rstrip_length (Py.str_lstrip s)) as Hr.
    rewrite Hs in Hr. destruct s as [|c r]; [done|].
    cbn [Py.str_lstrip] in Hr |- *. destruct (Py.is_whitespace c); [|done].
    pose proof (str_lstrip_length r). cbn [String.length] in Hr. lia. }
  split; [done|]. by rewrite Hleft in Hs.
Qed.

Lemma strip_line c r :
  Py.is_whitespace c = false →
  Py.str_strip (terminated (String c r)) = Py.str_rstrip (String c r).
Proof.
  intros Hc. unfold Py.str_strip, terminated. rewrite append_cons.
  cbn [Py.str_lstrip]. rewrite Hc, <- append_cons.
  by apply str_rstrip_drop.
Qed.

Lemma key_chars_cons c k :
  key_chars (String c k) = true → key_char c = true ∧ key_chars k = true.
Proof. cbn [key_chars]. by intros ?%andb_prop. Qed.

Lemma key_chars_rstrip key : key_chars key = true → Py.str_rstrip key = key.
Proof.
  induction key as [|c k IH]; [done|]. intros [Hc Hk]%key_chars_cons.
  rewrite str_rstrip_cons, IH by done.
  destruct (key_char_spec c EmptyString Hc) as (-> & _). by destruct k.
Qed.

Lemma key_chars_lower key : key_chars key = true → Py.lower key = key.
Proof.
  induction key as [|c k IH]; [done|]. intros [Hc Hk]%key_chars_cons.
  cbn [Py.lower]. rewrite IH by done.
  by destruct (key_char_spec c EmptyString Hc) as (_ & _ & -> & _).
Qed.

Lemma key_chars_break key rest :
  key_chars key = true →
  break_delimiter (key +:+ String " " (String "=" rest))
  = Some (key +:+ " ", rest).
Proof.
  induction key as [|c k IH]; [reflexivity|]. intros [Hc Hk]%key_chars_cons.
  rewrite !append_cons. cbn [break_delimiter]. rewrite IH by done.
  by destruct (key_char_spec c EmptyString Hc) as (_ & -> & _).
Qed.

Lemma one_line_cons c r :
  one_line (String c r) = true →
  c ≠ line_feed ∧ c ≠ carriage_return ∧ one_line r = true.
Proof.
  cbn [one_line]. intros [[Hlf Hcr]%andb_prop Hr]%andb_prop.
  apply negb_true_iff, bool_decide_eq_false in Hlf, Hcr. done.
Qed.

Lemma key_chars_one_line key : key_chars key = true → one_line key = true.
Proof.
  induction key as [|c k IH]; [done|]. intros [Hc Hk]%key_chars_cons.
  destruct (key_char_spec c EmptyString Hc) as (_ & _ & _ & _ & _ & Hlf & Hcr).
  cbn [one_line]. rewrite IH by done.
  by rewrite !bool_decide_eq_false_2.
Qed.

Lemma one_line_app a b :
  one_line a = true → one_line b = true → one_line (a +:+ b) = true.
Proof.
  intros Ha Hb. induction a as [|c a IH]; [done|].
  apply one_line_cons in Ha as (Hlf & Hcr & Ha).
  rewrite append_cons. cbn [one_line]. rewrite IH by done.
  by rewrite !bool_decide_eq_false_2.
Qed.

Lemma replace_newlines_line s : one_line s = true → replace_newlines s = s.
Proof.
  induction s as [|c r IH]; [done|]. intros (Hlf & _ & Hr)%one_line_cons.
  cbn [replace_newlines]. rewrite decide_False by done. by rewrite IH.
Qed.

Lemma universal_newlines_line a rest :
  one_line a = true →
  universal_newlines (a +:+ String line_feed rest)
  = a +:+ String line_feed (universal_newlines rest).
Proof.
  induction a as [|c a IH]; [reflexivity|]. intros (_ & Hcr & Ha)%one_line_cons.
  rewrite !append_cons. cbn [universal_newlines].
  rewrite decide_False by done. by rewrite IH.
Qed.

Lemma readlines_line a rest :
  one_line a = true →
  readlines (a +:+ String line_feed rest) = terminated a :: readlines rest.
Proof.
  induction a as [|c a IH]; [reflexivity|]. intros (Hlf & _ & Ha)%one_line_cons.
  rewrite !append_cons. cbn [readlines].
  rewrite decide_False by done. by rewrite IH.
Qed.

Lemma text_of_cons line lines :
  text_of (line :: lines) = line +:+ String line_feed (text_of lines).
Proof.
  unfold text_of, join_strings, terminated. cbn [fmap list_fmap foldr].
  by rewrite append_assoc.
Qed.

Lemma readlines_text_of lines :
  Forall (λ line, one_line line = true) lines →
  readlines (universal_newlines (text_of lines)) = terminated <$> lines.
Proof.
  induction 1 as [|line lines Hline _ IH]; [reflexivity|].
  rewrite text_of_cons, universal_newlines_line, readlines_line by done.
  by rewrite IH.
Qed.



Lemma write_section_lines (section : string * list (string * string)) :
  Forall (λ item, one_line item.2 = true) section.2 →
  write_section section.1 section.2 = terminated <$> section_lines section.
Proof.
  intros Hvalues. unfold write_section, section_lines.
  rewrite fmap_cons, fmap_app. f_equal. f_equal.
  rewrite <- list_fmap_compose. apply Forall_fmap_ext_1.
  eapply Forall_impl; [exact Hvalues|]. intros item Hitem. cbn.
  by rewrite replace_newlines_line.
Qed.

Lemma write_text (cfg : ConfigParser) :
  cp_defaults cfg = [] →
  Forall (λ s, Forall (λ item, one_line item.2 = true) s.2) (cp_sections cfg) →
  write cfg = text_of (concat (section_lines <$> cp_sections cfg)).
Proof.
  intros Hdefaults Hsections. unfold write, text_of. rewrite Hdefaults.
  cbn [app]. f_equal.
  induction Hsections as [|s l Hs _ IH]; [reflexivity|].
  cbn [fmap list_fmap concat]. rewrite fmap_app, <- IH.
  by rewrite write_section_lines.
Qed.

Lemma res_foldl_app {A B} (f : B → A → Res B) b l1 l2 :
  res_foldl f b (l1 ++ l2) = let? b' := res_foldl f b l1 in res_foldl f b' l2.
Proof.
  revert b. induction l1 as [|x l1 IH]; intros b; [reflexivity|].
  cbn [app res_foldl]. destruct (f b x); [|reflexivity]. apply IH.
Qed.

(** *** Reading a line that [write] wrote *)

Lemma before_last_bracket_end name :
  before_last_bracket (name +:+ "]") = Some name.
Proof.
  induction name as [|c name IH]; [reflexivity|].
  rewrite append_cons. cbn [before_last_bracket]. by rewrite IH.
Qed.

Lemma read_header_line st name :
  name ≠ EmptyString →
  read_line st (terminated ("[" +:+ name +:+ "]")) = enter_section name 0 st.
Proof.
  intros Hname. unfold read_line.
  change ("[" +:+ name +:+ "]") with (String "[" (name +:+ "]")).
  rewrite strip_line by reflexivity.
  assert (Py.str_rstrip (String "[" (name +:+ "]")) = String "[" (name +:+ "]"))
    as ->.
  { change (String "[" (name +:+ "]")) with (("[" +:+ name) +:+ "]").
    by rewrite str_rstrip_keep. }
  assert (sectcre_match (String "[" (name +:+ "]")) = Some name) as Hmatch.
  { unfold sectcre_match. rewrite before_last_bracket_end.
    by destruct name. }
  cbv zeta. change (is_comment (String "[" (name +:+ "]"))) with false.
  cbv iota. rewrite Hmatch.
  change (default 0 (first_nonspace (terminated (String "[" (name +:+ "]")))))
    with 0.
  destruct (option_open st) as [[cs key]|]; [|reflexivity].
  by destruct (indent_level st).
Qed.

Lemma optcre_item key v :
  option_name key → tidy v →
  optcre_match (Py.str_rstrip (key +:+ " = " +:+ v)) = Some (key, v).
Proof.
  intros [Hne Hkey] [_ [Hleft Hright]%str_strip_fixed].
  assert (Py.str_rstrip (key +:+ " ") = key) as Hname.
  { rewrite str_rstrip_drop by reflexivity. by apply key_chars_rstrip. }
  destruct v as [|c r].
  - change (key +:+ " = " +:+ EmptyString) with (key +:+ " =" +:+ " ").
    rewrite <- append_assoc, str_rstrip_drop by reflexivity.
    rewrite str_rstrip_keep by done.
    change (Py.str_rstrip " =") with (String " " (String "=" EmptyString)).
    unfold optcre_match. rewrite key_chars_break by done.
    by rewrite Hname.
  - change (key +:+ " = " +:+ String c r)
      with (key +:+ String " " (String "=" (String " " EmptyString)) +:+ String c r).
    rewrite <- append_assoc, str_rstrip_keep by (by rewrite Hright).
    rewrite Hright, append_assoc.
    change (String " " (String "=" (String " " EmptyString)) +:+ String c r)
      with (String " " (String "=" (String " " (String c r)))).
    unfold optcre_match. rewrite key_chars_break by done.
    rewrite Hname. f_equal. f_equal.
    change (Py.str_lstrip (String " " (String c r)))
      with (Py.str_lstrip (String c r)).
    exact Hleft.
Qed.

Lemma read_item_line st cs key v :
  option_name key → tidy v →
  cursect st = Some cs →
  read_line st (terminated (key +:+ " = " +:+ v))
  = enter_option cs (Py.str_rstrip (key +:+ " = " +:+ v)) 0 st.
Proof.
  intros Hname Hvalue Hcs. pose proof Hname as [Hne Hkey].
  destruct key as [|c k]; [done|]. apply key_chars_cons in Hkey as [Hc Hk].
  rewrite append_cons.
  destruct (key_char_spec c EmptyString Hc) as (Hws & _).
  destruct (str_rstrip_first c (k +:+ " = " +:+ v) Hws) as [kept Hkept].
  destruct (key_char_spec c kept Hc) as (_ & _ & _ & Hcomment & Hsect & _).
  unfold read_line. rewrite strip_line by done.
  rewrite Hkept. cbv zeta. rewrite Hcomment. cbv iota. rewrite Hsect.
  assert (default 0 (first_nonspace (terminated (String c (k +:+ " = " +:+ v))))
          = 0) as ->.
  { unfold terminated. rewrite append_cons. cbn [first_nonspace].
    by rewrite Hws. }
  unfold option_open. rewrite Hcs.
  by destruct (optname st) as [[|? ?]|].
Qed.

Lemma read_blank_line st :
  read_line st (terminated EmptyString)
  = Ok match option_open st with
       | Some (cs, key) => append_line cs key EmptyString st
       | None => st
       end.
Proof.
  unfold read_line.
  change (Py.str_strip (terminated EmptyString)) with EmptyString.
  cbv zeta. change (is_comment EmptyString) with false. cbv iota.
  by destruct (option_open st) as [[cs key]|].
Qed.

Lemma enter_section_new st name :
  name ≠ DEFAULTSECT →
  name ∉ (rd_sections st).*1 →
  enter_section name 0 st
  = Ok {| rd_defaults := rd_defaults st;
          rd_sections := rd_sections st ++ [(name, [])];
          added_sections := name :: added_sections st;
          added_options := added_options st;
          cursect := Some (InSection name); optname := None;
          indent_level := 0; parsing_error := parsing_error st |}.
Proof.
  intros Hdefault Hfresh. unfold enter_section, dict_has.
  rewrite dict_get_None by done. by rewrite decide_False.
Qed.

Lemma enter_option_item st name prev raw key v :
  cursect st = Some (InSection name) →
  rd_sections st = prev ++ [(name, raw)] →
  dict_get name prev = None →
  (name, key) ∉ added_options st →
  option_name key → tidy v →
  enter_option (InSection name) (Py.str_rstrip (key +:+ " = " +:+ v)) 0 st
  = Ok {| rd_defaults := rd_defaults st;
          rd_sections := prev ++ [(name, dict_set key [v] raw)];
          added_sections := added_sections st;
          added_options := (name, key) :: added_options st;
          cursect := Some (InSection name); optname := Some key;
          indent_level := 0; parsing_error := parsing_error st |}.
Proof.
  intros Hcs Hsects Hfresh Hnew Hname Hvalue.
  unfold enter_option. rewrite optcre_item by done.
  destruct Hname as [Hne Hkey]. destruct Hvalue as [_ Hstrip].
  cbv zeta. unfold optionxform.
  rewrite key_chars_rstrip, key_chars_lower, Hstrip by done.
  cbn [sectname_of]. rewrite bool_decide_eq_false_2 by done.
  unfold store_options, current_options.
  cbn [rd_defaults rd_sections added_sections added_options cursect optname
       indent_level parsing_error].
  rewrite Hsects, dict_get_app_fresh by done. cbn [default from_option id].
  rewrite dict_set_last, Hcs by done.
  f_equal. f_equal. destruct key; [done|]. apply orb_false_r.
Qed.

Lemma join_lines_blank lines :
  lines ≠ [] →
  join_lines (lines ++ [EmptyString])
  = join_lines lines +:+ String line_feed EmptyString.
Proof.
  induction lines as [|line lines IH]; [done|]. intros _.
  destruct lines as [|line' lines]; [reflexivity|].
  change (join_lines ((line :: line' :: lines) ++ [EmptyString]))
    with (line +:+ String line_feed (join_lines ((line' :: lines) ++ [EmptyString]))).
  rewrite IH by done.
  change (join_lines (line :: line' :: lines))
    with (line +:+ String line_feed (join_lines (line' :: lines))).
  by rewrite append_assoc.
Qed.

Lemma join_append key raw lines :
  dict_get key raw = Some lines → lines ≠ [] →
  join_multiline_values (dict_set key (lines ++ [EmptyString]) raw)
  = join_multiline_values raw.
Proof.
  intros Hget Hlines. induction raw as [|[k0 v0] raw IH]; [done|].
  cbn [dict_get dict_set] in Hget |- *.
  destruct (decide (key = k0)) as [->|Hk].
  - injection Hget as ->. unfold join_multiline_values.
    rewrite !fmap_cons. cbn [fst snd]. f_equal. f_equal.
    rewrite join_lines_blank by done. by apply str_rstrip_drop.
  - unfold join_multiline_values in *. rewrite !fmap_cons. f_equal.
    by apply IH.
Qed.

Lemma join_single_lines items :
  Forall (λ item, tidy item.2) items →
  join_multiline_values (single_lines items) = items.
Proof.
  induction 1 as [|[k v] items Hv _ IH]; [reflexivity|].
  cbn [snd] in Hv. destruct Hv as [_ [_ Hv]%str_strip_fixed].
  unfold join_multiline_values, single_lines in *. rewrite !fmap_cons.
  cbn [fst snd join_lines]. by rewrite IH, Hv.
Qed.

Lemma single_lines_get key items lines :
  dict_get key (single_lines items) = Some lines → lines ≠ [].
Proof.
  induction items as [|[k v] items IH]; [done|].
  unfold single_lines in *. rewrite fmap_cons. cbn [dict_get fst snd].
  destruct (decide (key = k)); [by intros [= <-]|exact IH].
Qed.

Lemma read_items name prev todo :
  ∀ st done,
    cursect st = Some (InSection name) →
    rd_sections st = prev ++ [(name, single_lines done)] →
    dict_get name prev = None →
    (∀ key, (name, key) ∈ added_options st → key ∈ done.*1) →
    NoDup (done ++ todo).*1 →
    Forall (λ item, option_name item.1) todo →
    Forall (λ item, tidy item.2) todo →
    ∃ st',
      res_foldl read_line st
        (terminated <$> ((λ item, item.1 +:+ " = " +:+ item.2) <$> todo))
      = Ok st'
      ∧ cursect st' = Some (InSection name)
      ∧ rd_sections st' = prev ++ [(name, single_lines (done ++ todo))]
      ∧ rd_defaults st' = rd_defaults st
      ∧ parsing_error st' = parsing_error st
      ∧ ∀ n key, (n, key) ∈ added_options st' →
                 n = name ∨ (n, key) ∈ added_options st.
Proof.
  induction todo as [|[key v] todo IH];
    intros st done Hcs Hsects Hfresh Hadded Hnodup Hnames Hvalues.
  { exists st. rewrite app_nil_r. repeat split; try done. by right. }
  apply Forall_cons in Hnames as [Hname Hnames].
  apply Forall_cons in Hvalues as [Hvalue Hvalues].
  cbn [fst snd] in Hname, Hvalue.
  assert (key ∉ done.*1) as Hkey.
  { rewrite fmap_app, fmap_cons in Hnodup.
    apply NoDup_app in Hnodup as (_ & Hdisjoint & _).
    intros Hin. apply (Hdisjoint _ Hin), elem_of_cons. by left. }
  rewrite !fmap_cons. cbn [res_foldl fst snd].
  rewrite (read_item_line st (InSection name)) by done.
  erewrite enter_option_item; [|done..| |done|done].
  2:{ intros Hin. by apply Hkey, Hadded. }
  cbn [res_bind].
  rewrite dict_set_fresh.
  2:{ apply dict_get_None. unfold single_lines.
      by rewrite <- list_fmap_compose. }
  match goal with |- ∃ _, res_foldl _ ?st1 _ = _ ∧ _ =>
    destruct (IH st1 (done ++ [(key, v)])) as (st' & Hrun & Hcs' & Hsects' & Hdef' & Herr' & Hadded')
  end.
  - reflexivity.
  - cbn [rd_sections]. unfold single_lines. by rewrite fmap_app.
  - done.
  - cbn [added_options]. intros k [Heq|Hin]%elem_of_cons.
    + injection Heq as ->. rewrite fmap_app. apply elem_of_app. right.
      apply elem_of_cons. by left.
    + rewrite fmap_app. apply elem_of_app. left. by apply Hadded.
  - by rewrite <- app_assoc.
  - done.
  - done.
  - exists st'. rewrite <- app_assoc in Hsects'.
    split; [exact Hrun|]. split; [done|]. split; [done|].
    split; [done|]. split; [done|].
    intros n k Hin. destruct (Hadded' n k Hin) as [->|Hold]; [by left|].
    cbn [added_options] in Hold. apply elem_of_cons in Hold as [[= -> ->]|Hold];
      [by left|by right].
Qed.

Lemma read_section_lines st section :
  writable_section section →
  section.1 ∉ (rd_sections st).*1 →
  (∀ n key, (n, key) ∈ added_options st → n ∈ (rd_sections st).*1) →
  ∃ st' raw,
    res_foldl read_line st (terminated <$> section_lines section) = Ok st'
    ∧ rd_sections st' = rd_sections st ++ [(section.1, raw)]
    ∧ join_multiline_values raw = section.2
    ∧ rd_defaults st' = rd_defaults st
    ∧ parsing_error st' = parsing_error st
    ∧ ∀ n key, (n, key) ∈ added_options st' → n ∈ (rd_sections st').*1.
Proof.
  destruct section as [name items].
  intros [Hne Hdefault Hline Hnodup Hnames Hvalues] Hfresh Hinv.
  cbn [fst snd] in *.
  unfold section_lines. cbn [fst snd].
  rewrite fmap_cons, fmap_app. cbn [res_foldl].
  rewrite read_header_line, enter_section_new by done. cbn [res_bind].
  rewrite res_foldl_app.
  match goal with |- ∃ _ _, res_bind (res_foldl _ ?st1 _) _ = _ ∧ _ =>
    destruct (read_items name (rd_sections st) items st1 [])
      as (st2 & Hrun & Hcs & Hsects & Hdef & Herr & Hadded)
  end; try done.
  { by apply dict_get_None. }
  { cbn [added_options]. intros key Hin. by apply Hinv in Hin. }
  rewrite Hrun. cbn [res_bind fmap list_fmap res_foldl app] in *.
  rewrite read_blank_line. cbn [res_bind].
  assert (dict_get name (rd_sections st) = None) as Hnone
    by (by apply dict_get_None).
  assert (∀ n key, (n, key) ∈ added_options st2 →
                   n ∈ (rd_sections st ++ [(name, single_lines items)]).*1)
    as Hinv2.
  { intros n key Hin. rewrite fmap_app. apply elem_of_app.
    destruct (Hadded n key Hin) as [->|Hold].
    - right. apply elem_of_cons. by left.
    - left. by apply Hinv in Hold. }
  unfold option_open. rewrite Hcs.
  destruct (optname st2) as [[|c k]|].
  - exists st2, (single_lines items). rewrite Hsects.
    split; [done|]. split; [done|].
    split; [by apply join_single_lines|]. done.
  - unfold append_line, current_options.
    rewrite Hsects, dict_get_app_fresh by done. cbn [default from_option id].
    destruct (dict_get (String c k) (single_lines items)) as [lines|] eqn:Hget.
    + eexists _, _. split; [reflexivity|].
      unfold store_options.
      cbn [rd_defaults rd_sections added_sections added_options cursect
           optname indent_level parsing_error].
      rewrite Hsects, dict_set_last by done.
      split; [reflexivity|]. split.
      * rewrite join_append; [by apply join_single_lines|done|].
        by eapply single_lines_get.
      * split; [done|]. split; [done|].
        intros n key Hin. apply Hinv2 in Hin.
        by rewrite fmap_app in Hin |- *.
    + exists st2, (single_lines items). rewrite Hsects.
      split; [done|]. split; [done|].
      split; [by apply join_single_lines|]. done.
  - exists st2, (single_lines items). rewrite Hsects.
    split; [done|]. split; [done|].
    split; [by apply join_single_lines|]. done.
Qed.

Lemma read_sections_lines sects :
  ∀ st,
    Forall writable_section sects →
    NoDup ((rd_sections st).*1 ++ sects.*1) →
    (∀ n key, (n, key) ∈ added_options st → n ∈ (rd_sections st).*1) →
    ∃ st',
      res_foldl read_line st (terminated <$> concat (section_lines <$> sects))
      = Ok st'
      ∧ (λ s, (s.1, join_multiline_values s.2)) <$> rd_sections st'
        = ((λ s, (s.1, join_multiline_values s.2)) <$> rd_sections st) ++ sects
      ∧ rd_defaults st' = rd_defaults st
      ∧ parsing_error st' = parsing_error st.
Proof.
  induction sects as [|section sects IH]; intros st Hsects Hnodup Hinv.
  { exists st. by rewrite app_nil_r. }
  apply Forall_cons in Hsects as [Hsection Hsects].
  rewrite fmap_cons in Hnodup.
  assert (section.1 ∉ (rd_sections st).*1) as Hfresh.
  { apply NoDup_app in Hnodup as (_ & Hdisjoint & _).
    intros Hin. apply (Hdisjoint _ Hin), elem_of_cons. by left. }
  destruct (read_section_lines st section Hsection Hfresh Hinv)
    as (st1 & raw & Hrun1 & Hsects1 & Hjoin & Hdef1 & Herr1 & Hinv1).
  cbn [fmap list_fmap concat]. rewrite fmap_app, res_foldl_app.
  change (list_fmap _ _ terminated (section_lines section))
    with (terminated <$> section_lines section).
  rewrite Hrun1. cbn [res_bind].
  destruct (IH st1 Hsects) as (st' & Hrun & Hjoined & Hdef & Herr).
  { rewrite Hsects1, fmap_app, <- app_assoc. exact Hnodup. }
  { exact Hinv1. }
  exists st'. split; [exact Hrun|]. split; [|by rewrite Hdef, Herr].
  rewrite Hjoined, Hsects1, fmap_app, <- app_assoc. f_equal.
  cbn [fmap list_fmap fst snd app]. rewrite Hjoin. by destruct section.
Qed.

(** A configuration without defaults whose sections have distinct names
    comes back from the file as it was written. *)
Lemma read_write (cfg : ConfigParser) :
  cp_defaults cfg = [] →
  NoDup (cp_sections cfg).*1 →
  Forall writable_section (cp_sections cfg) →
  read_text (write cfg) = Ok cfg.
Proof.
  intros Hdefaults Hnodup Hsections.
  assert (Forall (λ s, Forall (λ item, one_line item.2 = true) s.2)
            (cp_sections cfg)) as Hlines.
  { eapply Forall_impl; [exact Hsections|]. intros s [_ _ _ _ _ Hvalues].
    eapply Forall_impl; [exact Hvalues|]. by intros item [? _]. }
  rewrite write_text by done. unfold read_text.
  rewrite readlines_text_of.
  2:{ apply Forall_concat, Forall_fmap.
      eapply Forall_impl; [exact Hsections|].
      intros [name items] [_ _ Hname _ Hnames Hvalues]. cbn [fst snd] in *.
      unfold section_lines. cbn [fst snd compose].
      apply Forall_cons. split.
      { change ("[" +:+ name +:+ "]") with (String "[" (name +:+ "]")).
        cbn [one_line]. rewrite one_line_app by done. reflexivity. }
      apply Forall_app. split; [|by apply Forall_singleton].
      apply Forall_fmap, Forall_forall. intros [key v] Hin. cbn [compose fst snd].
      eapply Forall_forall in Hnames, Hvalues; [|exact Hin..].
      cbn [fst snd] in *. destruct Hnames as [_ Hkey]. destruct Hvalues as [Hv _].
      apply one_line_app; [by apply key_chars_one_line|].
      change (" = " +:+ v) with (String " " (String "=" (String " " v))).
      cbn [one_line]. by rewrite Hv. }
  destruct (read_sections_lines (cp_sections cfg) reader_start Hsections)
    as (st & Hrun & Hjoined & Hdef & Herr).
  { exact Hnodup. }
  { by intros n key ?%elem_of_nil. }
  rewrite Hrun. cbn [res_bind]. rewrite Herr. cbn [parsing_error reader_start].
  rewrite Hjoined, Hdef. cbn [rd_defaults rd_sections reader_start fmap list_fmap app].
  destruct cfg as [defaults sections]. cbn in Hdefaults. by subst defaults.
Qed.

(** *** The file that [save] writes *)

Lemma key_chars_tidy s : key_chars s = true → tidy s.
Proof.
  intros Hs. split; [by apply key_chars_one_line|].
  unfold Py.str_strip.
  assert (Py.str_lstrip s = s) as ->; [|by apply key_chars_rstrip].
  destruct s as [|c r]; [done|]. apply key_chars_cons in Hs as [Hc _].
  cbn [Py.str_lstrip]. by destruct (key_char_spec c EmptyString Hc) as (-> & _).
Qed.

Lemma key_chars_digits ds :
  Forall digit_range ds → key_chars (Py.digits_string ds) = true.
Proof.
  induction 1 as [|d ds Hd _ IH]; [done|].
  rewrite digits_string_cons. cbn [key_chars]. rewrite IH, andb_true_r.
  by_digit d Hd.
Qed.

Lemma key_chars_str (n : Z) : key_chars (Py.str n) = true.
Proof.
  unfold Py.str. destruct (Z.ltb_spec n 0) as [Hneg|Hpos].
  - destruct (str_nonneg_digits (- n)) as (d & ds & -> & Hds & _); [lia|].
    cbn [key_chars]. by rewrite key_chars_digits.
  - destruct (str_nonneg_digits n) as (d & ds & -> & Hds & _); [lia|].
    by apply key_chars_digits.
Qed.

Lemma option_name_plug_key plug : option_name (plug_key plug).
Proof.
  rewrite plug_key_chars. split; [discriminate|].
  cbn [key_chars]. by rewrite key_chars_str.
Qed.

Lemma general_section_writable (registry : PlugMaster) :
  tidy (user registry) → tidy (password registry) →
  writable_section (GENERAL_SECTION, general_entries registry).
Proof.
  intros Huser Hpassword. split; cbn [fst snd general_entries].
  - discriminate.
  - discriminate.
  - reflexivity.
  - cbn [fmap list_fmap fst]. compute_done.
  - repeat (apply Forall_cons; split; [by split|]). constructor.
  - repeat (apply Forall_cons; split; [try done; apply key_chars_tidy, key_chars_str|]).
    constructor.
Qed.

Lemma device_section_writable (device : Device.t) :
  storable_device device → writable_section (device_section device).
Proof.
  intros [Hne _ Hdefault Hline _ Hname Hunique _ _ Hnames].
  split; cbn [fst snd device_section]; try done.
  - rewrite fmap_cons. cbn [fst]. apply NoDup_cons. split.
    + rewrite <- list_fmap_compose.
      intros (p & Heq & _)%list_elem_of_fmap. cbn [compose fst plug_entry] in Heq.
      symmetry in Heq. by apply plug_key_not_name in Heq.
    + rewrite <- list_fmap_compose. by apply plug_keys_nodup.
  - apply Forall_cons. split; [by split|].
    apply Forall_fmap, Forall_forall. intros p _. apply option_name_plug_key.
  - apply Forall_cons. split; [done|]. by apply Forall_fmap.
Qed.

Lemma saved_config_read (registry : PlugMaster) :
  storable registry →
  read (Some (write (saved_config registry))) = Ok (saved_config registry).
Proof.
  intros [Hnodup Hdevices _ Huser _ Hpassword]. apply read_write.
  - reflexivity.
  - unfold saved_config. cbn [cp_sections]. rewrite fmap_cons. cbn [fst].
    rewrite <- list_fmap_compose. apply NoDup_cons. split; [|done].
    intros (d & Heq & Hd)%list_elem_of_fmap.
    eapply Forall_forall in Hdevices; [|done].
    destruct Hdevices as [_ Hgeneral]. by apply Hgeneral.
  - unfold saved_config. cbn [cp_sections]. apply Forall_cons. split.
    + by apply general_section_writable.
    + apply Forall_fmap. eapply Forall_impl; [exact Hdevices|].
      intros d. apply device_section_writable.
Qed.

Lemma strip_registry_storable : storable strip_registry.
Proof.
  split; [compute_done| | | | |]; try (split; reflexivity); try reflexivity.
  apply Forall_singleton.
  split; try reflexivity; try discriminate; try (split; reflexivity).
  - compute_done.
  - repeat (apply Forall_cons; split; [cbn; lia|]). constructor.
  - repeat (apply Forall_cons; split; [reflexivity|]). constructor.
  - repeat (apply Forall_cons; split; [split; reflexivity|]). constructor.
Qed.

Lemma write_config_writable (parser : ConfigParser) w :
  storage w = Writable →
  write_config parser w = (Ok tt, with_config_file (Some (write parser)) w).
Proof. unfold write_config. by intros ->. Qed.

(** ** The round trip *)

Lemma print_master_ok w :
  ∃ lines,
    print_master w
    = (Ok (length (devices (master w)),
           sum_list (length ∘ Device.plugs <$> devices (master w))),
       with_stdout (stdout w ++ lines) w).
Proof.
  unfold print_master. erewrite bind_ok by reflexivity.
  destruct (print_devices_ok (devices (master w)) 0 w) as [lines Hlines].
  exists lines. erewrite bind_ok by exact Hlines. reflexivity.
Qed.

Lemma save_storable args w :
  storable (master w) →
  storage w = Writable →
  ∃ lines,
    save args w
    = (Ok None,
       with_stdout (stdout w ++ lines)
         (with_config_file (Some (write (saved_config (master w)))) w)).
Proof.
  intros Hstorable Hwritable. unfold save.
  erewrite bind_ok by reflexivity.
  erewrite bind_ok by (unfold lift; by rewrite save_parser_shape).
  erewrite bind_ok by (by apply write_config_writable).
  destruct (print_master_ok
              (with_config_file (Some (write (saved_config (master w)))) w))
    as [lines Hlines].
  erewrite bind_ok by exact Hlines. cbn [fst snd].
  match goal with |- context [decide ?P] => destruct (decide P) end.
  - erewrite bind_ok by reflexivity.
    eexists (lines ++ [_]). unfold ret. f_equal.
    unfold print, with_stdout, with_config_file.
    cbn [stdout master config_file requests network].
    by rewrite <- app_assoc.
  - erewrite bind_ok by reflexivity.
    eexists (lines ++ [_]). unfold ret. f_equal.
    unfold print, with_stdout, with_config_file.
    cbn [stdout master config_file requests network].
    by rewrite <- app_assoc.
Qed.



(** ** The reserved section name *)

Lemma set_keeps_section parser section option value parser' k :
  set parser section option value = Ok parser' →
  dict_has k (cp_sections parser) = true →
  dict_has k (cp_sections parser') = true.
Proof.
  unfold set.
  destruct (match value with EmptyString => _ | String _ _ => _ end)
    as [value'|]; [|done].
  cbn [res_bind].
  destruct (bool_decide (section = EmptyString) || bool_decide (section = DEFAULTSECT)).
  { by intros [= <-]. }
  destruct (dict_get section (cp_sections parser)); [|done].
  intros [= <-] Hk. cbn [cp_sections]. by apply dict_has_set.
Qed.

Lemma add_section_keeps_section parser section parser' k :
  add_section parser section = Ok parser' →
  dict_has k (cp_sections parser) = true →
  dict_has k (cp_sections parser') = true.
Proof.
  unfold add_section. destruct (decide (section = DEFAULTSECT)); [done|].
  destruct (dict_has section (cp_sections parser)); [done|].
  intros [= <-] Hk. cbn [cp_sections]. by apply dict_has_app.
Qed.

Lemma save_plugs_keep_section address plugs parser parser' k :
  res_foldl (save_plug address) parser plugs = Ok parser' →
  dict_has k (cp_sections parser) = true →
  dict_has k (cp_sections parser') = true.
Proof.
  revert parser. induction plugs as [|p plugs IH]; intros parser.
  { by intros [= <-]. }
  cbn [res_foldl]. destruct (save_plug address parser p) as [parser1|] eqn:Hp; [|done].
  cbn [res_bind]. intros Hrest Hk. apply (IH parser1 Hrest).
  unfold save_plug in Hp. by eapply set_keeps_section.
Qed.

Lemma save_device_keeps_section device parser parser' k :
  save_device parser device = Ok parser' →
  dict_has k (cp_sections parser) = true →
  dict_has k (cp_sections parser') = true.
Proof.
  unfold save_device.
  destruct (add_section parser (Device.address device)) as [p1|] eqn:H1; [|done].
  cbn [res_bind].
  destruct (set p1 _ _ _) as [p2|] eqn:H2; [|done].
  cbn [res_bind]. intros Hplugs Hk.
  eapply save_plugs_keep_section; [exact Hplugs|].
  eapply set_keeps_section; [exact H2|].
  by eapply add_section_keeps_section.
Qed.

Lemma save_devices_reserved parser (l : list Device.t) :
  dict_has GENERAL_SECTION (cp_sections parser) = true →
  GENERAL_SECTION ∈ Device.address <$> l →
  ∃ e, res_foldl save_device parser l = Raise e.
Proof.
  revert parser. induction l as [|d l IH]; intros parser Hgeneral.
  { by intros ?%elem_of_nil. }
  rewrite fmap_cons. intros [Hd|Hl]%elem_of_cons; cbn [res_foldl].
  - exists DuplicateSectionError. unfold save_device, add_section.
    rewrite <- Hd, Hgeneral. reflexivity.
  - destruct (save_device parser d) as [parser1|e] eqn:Hsave; [|by exists e].
    cbn [res_bind]. apply IH; [|done].
    by eapply save_device_keeps_section.
Qed.

Lemma save_parser_reserved (registry : PlugMaster) :
  GENERAL_SECTION ∈ Device.address <$> devices registry →
  ∃ e, save_parser registry = Raise e.
Proof.
  intros Hreserved. unfold save_parser. cbv zeta.
  change (add_section configparser.new GENERAL_SECTION)
    with (Ok {| cp_defaults := []; cp_sections := [(GENERAL_SECTION, [])] |}).
  cbn [res_bind].
  destruct (set _ GENERAL_SECTION "user" _) as [p1|e] eqn:H1; [|by exists e].
  cbn [res_bind].
  destruct (set p1 GENERAL_SECTION "password" _) as [p2|e] eqn:H2; [|by exists e].
  cbn [res_bind].
  destruct (set p2 GENERAL_SECTION "pin" _) as [p3|e] eqn:H3; [|by exists e].
  cbn [res_bind].
  destruct (set p3 GENERAL_SECTION "pout" _) as [p4|e] eqn:H4; [|by exists e].
  cbn [res_bind].
  apply save_devices_reserved; [|done].
  eapply set_keeps_section; [exact H4|].
  eapply set_keeps_section; [exact H3|].
  eapply set_keeps_section; [exact H2|].
  eapply set_keeps_section; [exact H1|].
  reflexivity.
Qed.

(** C10, as amended: [load_devices] only ever appends devices whose
    address is not GENERAL, whatever the configuration and however the load
    ends; and [save] on a registry with a device at the address GENERAL
    raises and leaves the world, the configuration file included, as it
    was, so no round trip starts from such a registry. *)
Theorem reserved_section_name :
  (∀ config w,
     ∃ added,
       devices (master (load_devices config w).2) = devices (master w) ++ added
       ∧ Forall (λ d, Device.address d ≠ GENERAL_SECTION) added)
  ∧ (∀ args w,
       GENERAL_SECTION ∈ Device.address <$> devices (master w) →
       (∃ e, save args w = (Raise e, w)) ∧ ¬ round_trips args w).
Proof.
  split.
  - intros config w. apply load_sections_add.
  - intros args w Hreserved.
    destruct (save_parser_reserved (master w) Hreserved) as [e He].
    assert (save args w = (Raise e, w)) as Hsave.
    { unfold save. erewrite bind_ok by reflexivity.
      erewrite bind_raise; [reflexivity|]. unfold lift. by rewrite He. }
    split; [by exists e|].
    intros (w' & config & Hok & _). rewrite Hsave in Hok. discriminate Hok.
Qed.

Lemma reserved_section_name_witness :
  GENERAL_SECTION ∈ Device.address <$> devices (master (world_of reserved_registry))
  ∧ (∃ e, save [] (world_of reserved_registry)
          = (Raise e, world_of reserved_registry))
  ∧ ¬ round_trips [] (world_of reserved_registry).
Proof.
  assert (GENERAL_SECTION
          ∈ Device.address <$> devices (master (world_of reserved_registry)))
    as Hreserved by (vm_compute; left).
  split; [exact Hreserved|].
  exact (proj2 reserved_section_name [] (world_of reserved_registry) Hreserved).
Defined.

(** C10 as stated fails in its last part: on the registry with a device at
    the address GENERAL, [save] raises [DuplicateSectionError] when it adds
    the section and writes nothing; no second section is emitted. *)
Lemma no_second_general_section :
  save [] (world_of reserved_registry)
  = (Raise DuplicateSectionError, world_of reserved_registry)
  ∧ ¬ emits_second_general [] (world_of reserved_registry).
Proof.
  split; [reflexivity|].
  intros (text & Hfile & _). discriminate Hfile.
Qed.
(** ** The order of the plugs *)

Lemma load_plugs_spec config section keys acc plugs :
  res_foldl (load_plug config section) acc keys = Ok plugs
  ↔ ∃ new, plugs = acc ++ new
           ∧ Forall2 (plug_def_of config section) (plug_keys keys) new.
Proof.
  revert acc. induction keys as [|key keys IH]; intros acc.
  { cbn. split.
    - intros [= <-]. exists []. split; [by rewrite app_nil_r|constructor].
    - intros (new & -> & Hnew). apply Forall2_nil_inv_l in Hnew as ->.
      by rewrite app_nil_r. }
  cbn [res_foldl]. unfold load_plug at 1, plug_keys. rewrite filter_cons.
  destruct (Py.re_match_prefix_digits PLUG_PREFIX key) eqn:Hmatch; cbn [negb].
  - rewrite decide_True by done.
    destruct (Py.int (Py.slice_from (String.length PLUG_PREFIX) key))
      as [index|e] eqn:Hindex; cbn [res_bind].
    2:{ split; [done|]. intros (new & _ & Hnew).
        apply Forall2_cons_inv_l in Hnew as (def & ? & [Hdef _] & _).
        by rewrite Hindex in Hdef. }
    destruct (get config section key) as [pname|e] eqn:Hget; cbn [res_bind].
    2:{ split; [done|]. intros (new & _ & Hnew).
        apply Forall2_cons_inv_l in Hnew as (def & ? & [_ Hdef] & _).
        by rewrite Hget in Hdef. }
    rewrite IH. split.
    + intros (new & -> & Hnew). exists ((index, pname) :: new).
      split; [by rewrite <- app_assoc|]. constructor; [|done].
      by split.
    + intros (new & -> & Hnew).
      apply Forall2_cons_inv_l in Hnew as ([i n] & new' & [Hi Hn] & Hnew' & ->).
      cbn [fst snd] in Hi, Hn. rewrite Hindex in Hi. rewrite Hget in Hn.
      injection Hi as <-. injection Hn as <-.
      exists new'. split; [by rewrite <- app_assoc|done].
  - rewrite decide_False by done. cbn [res_bind]. apply IH.
Qed.

Lemma load_plugs_in_order (config : ConfigParser) (section : string)
    (keys : list string) (plugs : list (Z * string)) :
  res_foldl (load_plug config section) [] keys = Ok plugs
  ↔ Forall2 (plug_def_of config section) (plug_keys keys) plugs.
Proof.
  rewrite load_plugs_spec. split.
  - by intros (new & -> & Hnew).
  - intros Hplugs. by exists plugs.
Qed.

(** C4, as amended: for a section other than the general one that has a
    name, the pairs that [load_devices] passes to [create_device] are
    those of the keys of [config.options(section)] that pass the test of
    line 51, one pair per key and in the order of that list, whatever
    their indices; when one of these keys does not convert, the section
    raises and [create_device] is not called. *)
Theorem plugs_in_option_order (config : ConfigParser) (section name : string)
    (keys : list string) (w : World) :
  section ≠ GENERAL_SECTION →
  has_option config section "name" = true →
  get config section "name" = Ok name →
  options config section = Ok keys →
  (∀ plugs,
     Forall2 (plug_def_of config section) (plug_keys keys) plugs →
     load_device config section w = create_device section name plugs w)
  ∧ ((¬ ∃ plugs, Forall2 (plug_def_of config section) (plug_keys keys) plugs) →
     ∃ e, load_device config section w = (Raise e, w)).
Proof.
  intros Hsection Hhas Hname Hkeys.
  assert (load_device config section w
          = (let! plugs := lift (res_foldl (load_plug config section) [] keys) in
             create_device section name plugs) w) as Hload.
  { unfold load_device. rewrite decide_False by done. rewrite Hhas. cbn [negb].
    erewrite bind_ok by (unfold lift; by rewrite Hname).
    erewrite bind_ok by (unfold lift; by rewrite Hkeys).
    reflexivity. }
  rewrite Hload. split.
  - intros plugs Hplugs%load_plugs_in_order.
    erewrite bind_ok by (unfold lift; by rewrite Hplugs). reflexivity.
  - intros Hnone.
    destruct (res_foldl (load_plug config section) [] keys) as [plugs|e] eqn:Hrun.
    + destruct Hnone. exists plugs. by apply load_plugs_in_order.
    + by exists e.
Qed.

Lemma plugs_in_option_order_witness :
  let w := world_of (registry_of []) in
  "192.168.1.50" ≠ GENERAL_SECTION
  ∧ has_option unsorted_config "192.168.1.50" "name" = true
  ∧ get unsorted_config "192.168.1.50" "name" = Ok "Strip1"
  ∧ options unsorted_config "192.168.1.50" = Ok ["name"; "plug_2"; "plug_1"]
  ∧ load_device unsorted_config "192.168.1.50" w
    = create_device "192.168.1.50" "Strip1" [(2%Z, "Fan"); (1%Z, "Lamp")] w.
Proof.
  intros w.
  assert ("192.168.1.50" ≠ GENERAL_SECTION) as Hsection by discriminate.
  split; [exact Hsection|]. split; [reflexivity|]. split; [reflexivity|].
  split; [reflexivity|].
  apply (proj1 (plugs_in_option_order unsorted_config "192.168.1.50" "Strip1"
                  ["name"; "plug_2"; "plug_1"] w Hsection eq_refl eq_refl
                  eq_refl)).
  repeat constructor.
Defined.

(** C4 as stated fails: the section that lists plug 2 before plug 1 gives
    the pairs in that order, and the device is created with them. *)
Lemma plugs_not_sorted :
  ¬ (∀ config section keys plugs,
       options config section = Ok keys →
       res_foldl (load_plug config section) [] keys = Ok plugs →
       Sorted Z.le plugs.*1)
  ∧ Device.plugs
      <$> devices (master (load_devices unsorted_config
                             (world_of (registry_of []))).2)
    = [[Plug.mk 2 "Fan" Unknown; Plug.mk 1 "Lamp" Unknown]].
Proof.
  split; [|reflexivity].
  intros Hclaim.
  specialize (Hclaim unsorted_config "192.168.1.50"
                ["name"; "plug_2"; "plug_1"] [(2%Z, "Fan"); (1%Z, "Lamp")]
                eq_refl eq_refl).
  cbn in Hclaim. apply Sorted_inv in Hclaim as [_ Hhd].
  apply HdRel_inv in Hhd. lia.
Qed.

(** The options of a section come in the order of the lines of the
    file. *)
Example unsorted_text_read :
  read (Some unsorted_text) = Ok unsorted_config
  ∧ options unsorted_config "192.168.1.50" = Ok ["name"; "plug_2"; "plug_1"].
Proof. split; [vm_compute|]; reflexivity. Qed.

(** ** Saving without discovery *)






Section MainProperties.
Context `{!Matching}.


End MainProperties.


(** ** The theorems at concrete inputs *)

Lemma resolution_policy_witness :
  let w := world_of desks_registry in
  reliable w
  ∧ (size (search_plug (master w) "Heater") = 0
     ∧ refuses (switch ["Heater"] true) w "No matching plugs found, sorry")
  ∧ (size (search_plug (master w) "Lamp") = 1
     ∧ ∃ plug, search_plug (master w) "Lamp" = {[ plug ]}
               ∧ performs (switch ["Lamp"] true) w [] [SwitchRequest plug true])
  ∧ (1 < size (search_plug (master w) "Desk")
     ∧ ∃ order,
         order ≡ₚ elements (search_plug (master w) "Desk")
         ∧ performs (switch ["Desk"] true) w
             ["Warning: Setting multiple matching plugs"]
             ((λ p, SwitchRequest p true) <$> order))
  ∧ (1 < size (search_device (master w) "Strip")
     ∧ ∃ order,
         order ≡ₚ elements (search_device (master w) "Strip")
         ∧ performs (reset ["Strip"]) w
             ["Warning: Resetting multiple matching devices"]
             (ResetRequest <$> order)).
Proof.
  intros w.
  assert (reliable w) as Hreliable by (by intros request).
  destruct (proj2 (resolution_policy w true) Hreliable) as (Hone_arg & _ & Hreset).
  assert (size (search_plug (master w) "Heater") = 0) as Hnone
    by (vm_compute; reflexivity).
  assert (size (search_plug (master w) "Lamp") = 1) as Hone
    by (vm_compute; reflexivity).
  assert (1 < size (search_plug (master w) "Desk")) as Hmany
    by (vm_compute; lia).
  assert (1 < size (search_device (master w) "Strip")) as Hdevices
    by (vm_compute; lia).
  split; [exact Hreliable|].
  split; [split; [exact Hnone|]|split; [split; [exact Hone|]|split; split]].
  - exact (proj1 (Hone_arg "Heater") Hnone).
  - exact (proj1 (proj2 (Hone_arg "Lamp")) Hone).
  - exact Hmany.
  - exact (proj2 (proj2 (Hone_arg "Desk")) Hmany).
  - exact Hdevices.
  - exact (proj2 (proj2 (Hreset "Strip")) Hdevices).
Defined.

Lemma sent_until_failure_silent (planned : list Request) :
  planned ≠ [] →
  ∃ request, sent_until_failure (λ _, false) planned = ([request], false).
Proof. destruct planned as [|request rest]; [done|]. by exists request. Qed.

(** C3 as stated fails: when the device does not answer, [Plug.switch]
    raises and the loop of lines 83 and 84 ends there.  Of the two plugs
    named Desk one is asked to switch and the other is not, and the
    handler does not return. *)
Lemma resolution_stops_at_failure :
  let w := unreachable (world_of desks_registry) in
  ¬ (∀ w state arg0,
       plug_policy (search_plug (master w) arg0) state (switch [arg0] state) w)
  ∧ size (search_plug (master w) "Desk") = 2
  ∧ ∃ plug w',
      switch ["Desk"] true w = (Raise NetworkFailure, w')
      ∧ requests w' = [SwitchRequest plug true]
      ∧ master w' = master w.
Proof.
  intros w.
  assert (size (search_plug (master w) "Desk") = 2) as Hsize
    by (vm_compute; reflexivity).
  assert (plug_outcome (search_plug (master w) "Desk") true
            (switch ["Desk"] true) w) as (_ & _ & Hmany)
    by apply switch_plugs_outcome.
  destruct Hmany as (order & Horder & w' & Hrun & _ & Hreq); [lia|].
  destruct (sent_until_failure_silent ((λ p, SwitchRequest p true) <$> order))
    as [request Hsent].
  { intros Hnil. apply fmap_nil_inv in Hnil. subst order.
    apply Permutation_length in Horder.
    change (length (elements (search_plug (master w) "Desk")) = 2) in Hsize.
    rewrite Hsize in Horder. discriminate Horder. }
  change (answers w) with (λ _ : Request, false) in Hrun, Hreq.
  rewrite Hsent in Hrun, Hreq. cbn [fst snd] in Hrun, Hreq.
  split; [|split; [exact Hsize|]].
  - intros Hclaim. destruct (Hclaim w true "Desk") as (_ & _ & Hall).
    destruct Hall as (order' & _ & w'' & Hok & _); [lia|].
    rewrite Hrun in Hok. discriminate Hok.
  - assert (switch ["Desk"] true w
            = (Raise NetworkFailure,
               with_requests [SwitchRequest (0, 0) true]
                 (with_stdout ["Warning: Setting multiple matching plugs"] w))
              ∨ switch ["Desk"] true w
                = (Raise NetworkFailure,
                   with_requests [SwitchRequest (1, 1) true]
                     (with_stdout ["Warning: Setting multiple matching plugs"] w)))
      as [Hfirst|Hsecond].
    { vm_compute. auto. }
    + exists (0, 0). eexists. split; [exact Hfirst|]. done.
    + exists (1, 1). eexists. split; [exact Hsecond|]. done.
Qed.

Lemma two_argument_resolution_witness :
  let w := world_of desks_registry in
  (1, 1) ∈ plugs_of_devices (master w) (search_device (master w) "Strip2") "Desk"
  ∧ (0, 0) ∉ plugs_of_devices (master w) (search_device (master w) "Strip2") "Desk".
Proof.
  intros w.
  destruct (two_argument_resolution w "Strip2" "Desk" true) as (Hin & Hout & _).
  split.
  - apply Hin. exists 1. split; vm_compute; set_solver.
  - apply Hout. vm_compute. set_solver.
Defined.

Lemma nameless_section_skipped_witness :
  let w := world_of (registry_of []) in
  "10.0.0.7" ≠ GENERAL_SECTION
  ∧ dict_get "10.0.0.7" (cp_sections nameless_config)
    = Some [("plug_1", "Heater")]
  ∧ dict_has "name" [("plug_1", "Heater")] = false
  ∧ dict_has "name" (cp_defaults nameless_config) = false
  ∧ load_devices nameless_config w
    = (Ok tt,
       with_master
         (registry_of [Device.mk "192.168.1.50" "Strip1" [Plug.mk 1 "Lamp" Unknown]])
         (with_stdout ["Device without name in configuration, skipping"] w)).
Proof.
  intros w.
  assert ("10.0.0.7" ≠ GENERAL_SECTION) as Hsection by discriminate.
  split; [exact Hsection|]. split; [reflexivity|]. split; [reflexivity|].
  split; [reflexivity|].
  destruct (nameless_section_skipped nameless_config "10.0.0.7"
              [("plug_1", "Heater")] w Hsection eq_refl eq_refl eq_refl)
    as [_ Hcontinue].
  rewrite (Hcontinue [] ["192.168.1.50"] eq_refl). reflexivity.
Defined.

Lemma defaults_when_absent_witness :
  not_provided ports_only_config "user"
  ∧ not_provided ports_only_config "password"
  ∧ load_defaults ports_only_config = Ok ("admin", "anel", 1075%Z, 1077%Z)
  ∧ read_config (world_of (registry_of []))
    = (Ok configparser.new, world_of (registry_of []))
  ∧ load_defaults configparser.new = Ok ("admin", "anel", 75%Z, 77%Z).
Proof.
  destruct defaults_when_absent as (Hmissing & Hnone & Hvalues & _).
  assert (load_defaults ports_only_config = Ok ("admin", "anel", 1075%Z, 1077%Z))
    as Hload by reflexivity.
  destruct (Hvalues ports_only_config _ _ _ _ Hload) as (Huser & Hpassword & _).
  split; [reflexivity|]. split; [reflexivity|]. split; [exact Hload|].
  split.
  - exact (proj1 (Hmissing (world_of (registry_of [])) eq_refl)).
  - apply (Hnone configparser.new); reflexivity.
Defined.

(** ** Why the round trip needs each condition *)

(** An escaped percent sign is stored as written and read back as one. *)
Example round_trip_percent_name :
  let registry :=
    registry_of [Device.mk "192.168.1.50" "100%%" [Plug.mk 1 "Lamp" Unknown]] in
  (let? parser := save_parser registry in
   get parser "192.168.1.50" "name") = Ok "100%".
Proof. reflexivity. Qed.

(** The key of a negative index does not pass the test of line 51. *)
Example round_trip_negative_index :
  let registry :=
    registry_of [Device.mk "192.168.1.50" "Strip1" [Plug.mk (-1) "Lamp" Unknown]] in
  (let? parser := save_parser registry in
   let? keys := options parser "192.168.1.50" in
   res_foldl (load_plug parser "192.168.1.50") [] keys) = Ok [].
Proof. reflexivity. Qed.

(** The options of a device at the empty address go to the defaults, and
    every other section inherits them. *)
Example round_trip_empty_address :
  let registry :=
    registry_of [Device.mk EmptyString "Strip1" [Plug.mk 1 "Lamp" Unknown];
                 Device.mk "192.168.1.51" "Strip2" [Plug.mk 2 "Fan" Unknown]] in
  (let? parser := save_parser registry in
   options parser "192.168.1.51") = Ok ["name"; "plug_2"; "plug_1"].
Proof. reflexivity. Qed.

(** The parser refuses a section named DEFAULT. *)
Example round_trip_default_address :
  save_parser
    (registry_of [Device.mk "DEFAULT" "Strip1" [Plug.mk 1 "Lamp" Unknown]])
  = Raise ValueError.
Proof. reflexivity. Qed.

(** Keys that fail the test of line 51 are passed over. *)
Lemma load_plug_ignores config section plugs key :
  Py.re_match_prefix_digits PLUG_PREFIX key = false →
  load_plug config section plugs key = Ok plugs.
Proof. intros Hkey. unfold load_plug. by rewrite Hkey. Qed.

(** A key with an underscore between digits is not ignored either: it is
    read as the index 10. *)
Example load_plug_1_0 :
  res_foldl
    (load_plug
       {| cp_defaults := [];
          cp_sections := [("10.0.0.1", [("name", "Strip"); ("plug_1_0", "Lamp")])] |}
       "10.0.0.1") [] ["name"; "plug_1_0"]
  = Ok [(10%Z, "Lamp")].
Proof. reflexivity. Qed.

(** White space around a name or a password is lost in the file: the
    registry is stored, and what is read back differs from it. *)
Example round_trip_padded_name :
  (let? parser := save_parser padded_name_registry in
   let? config := read (Some (write parser)) in
   get config "192.168.1.50" "plug_1") = Ok "Lamp".
Proof. vm_compute. reflexivity. Qed.

Example round_trip_padded_password :
  (let? parser := save_parser padded_password_registry in
   let? config := read (Some (write parser)) in
   load_defaults config) = Ok ("admin", "anel", 75%Z, 77%Z).
Proof. vm_compute. reflexivity. Qed.

(** A line break in a name makes a file that does not parse. *)
Example round_trip_line_break :
  let name := "Strip" +:+ String carriage_return "1" in
  (let? parser :=
     save_parser (registry_of [Device.mk "192.168.1.50" name []]) in
   read (Some (write parser))) = Raise ParsingError.
Proof. vm_compute. reflexivity. Qed.

(** * Further properties of [main.py] *)

(** ** The report *)

Lemma print_plug_lines (plugs : list Plug.t) w :
  for_each plugs (λ plug, print (plug_line plug)) w
  = (Ok tt, with_stdout (stdout w ++ (plug_line <$> plugs)) w).
Proof.
  revert w. induction plugs as [|p plugs IH]; intros w.
  - cbn. rewrite app_nil_r. by destruct w.
  - cbn [for_each]. erewrite bind_ok by reflexivity. rewrite IH.
    unfold with_stdout. cbn [stdout master config_file requests network fmap list_fmap].
    by rewrite <- app_assoc.
Qed.

Lemma print_devices_lines (l : list Device.t) (count : nat) w :
  print_devices l count w
  = (Ok (count + sum_list (length ∘ Device.plugs <$> l)),
     with_stdout (stdout w ++ concat (device_lines <$> l)) w).
Proof.
  revert count w. induction l as [|d l IH]; intros count w.
  { cbn. rewrite app_nil_r, Nat.add_0_r. by destruct w. }
  cbn [print_devices].
  erewrite bind_ok by reflexivity.
  erewrite bind_ok by apply print_plug_lines.
  erewrite bind_ok by reflexivity.
  rewrite IH. f_equal.
  - f_equal. cbn. unfold id. lia.
  - unfold with_stdout, print, device_lines.
    cbn [stdout master config_file requests network fmap list_fmap concat].
    f_equal. rewrite <- ?app_assoc. cbn [app]. rewrite <- ?app_assoc.
    reflexivity.
Qed.

(** X1: [print_master] prints, for each device in registry order, the
    header line, one line per plug in plug order and an empty line; it
    returns the number of devices and the total number of plugs and changes
    nothing but the output. *)
Theorem print_master_report (w : World) :
  print_master w
  = (Ok (length (devices (master w)), total_plugs (master w)),
     with_stdout (stdout w ++ report_lines (master w)) w)
  ∧ length (report_lines (master w))
    = 2 * length (devices (master w)) + total_plugs (master w).
Proof.
  split.
  - unfold print_master. erewrite bind_ok by reflexivity.
    erewrite bind_ok by apply print_devices_lines. reflexivity.
  - unfold report_lines, total_plugs.
    induction (devices (master w)) as [|d l IH]; [reflexivity|].
    cbn [fmap list_fmap concat sum_list length compose].
    rewrite length_app, IH. unfold device_lines.
    cbn [length]. rewrite length_app, length_fmap. cbn [length].
    unfold id. lia.
Qed.

Lemma print_master_run (w : World) :
  print_master w
  = (Ok (length (devices (master w)), total_plugs (master w)),
     with_stdout (stdout w ++ report_lines (master w)) w).
Proof.
  unfold print_master. erewrite bind_ok by reflexivity.
  erewrite bind_ok by apply print_devices_lines. reflexivity.
Qed.

(** X2: [show] prints the report and then the line with the two counts,
    returns normally, and leaves the registry, the configuration file and
    the network alone, whatever its arguments. *)
Theorem show_report (args : list string) (w : World) :
  show args w
  = (Ok None,
     with_stdout
       (stdout w ++ report_lines (master w) ++ [shown_summary (master w)]) w).
Proof.
  unfold show. erewrite bind_ok by apply print_master_run.
  erewrite bind_ok by reflexivity.
  unfold ret, with_stdout, shown_summary.
  cbn [stdout master config_file requests network fst snd].
  by rewrite <- app_assoc.
Qed.

(** X3: [save] builds the whole parser before it opens the file.  When
    a section cannot be built it raises and the world is exactly as before:
    the file is not opened, nothing is printed.  When the parser is built,
    a file that can be written receives its text and the report is printed
    with the summary line; a file that cannot be opened leaves everything
    as it was; a file that runs out of room keeps the part of the text
    that was taken, and nothing is printed.  The registry is never changed
    and no request is sent. *)
Theorem save_outcomes (args : list string) (w : World) :
  (∃ e, save_parser (master w) = Raise e ∧ save args w = (Raise e, w))
  ∨ (∃ parser,
       save_parser (master w) = Ok parser
       ∧ save args w = save_result parser w).
Proof.
  unfold save. erewrite bind_ok by reflexivity.
  destruct (save_parser (master w)) as [parser|e] eqn:Hparser.
  - right. exists parser. split; [done|].
    erewrite bind_ok by reflexivity.
    assert (∀ w0, master w0 = master w →
              (let! counts := print_master in
               (if decide (counts.1 = 0)
                then print "Saved config without any devices"
                else print ("Saved config with " +:+ format_nat counts.1
                            +:+ " device(s) and " +:+ format_nat counts.2
                            +:+ " plugs")) >>> ret (None : option Z)) w0
              = (Ok None,
                 with_stdout
                   (stdout w0 ++ report_lines (master w)
                    ++ [saved_summary (master w)]) w0)) as Hreport.
    { intros w0 Hmaster. erewrite bind_ok by apply print_master_run.
      rewrite Hmaster. cbn [fst snd]. unfold saved_summary.
      destruct (decide (length (devices (master w)) = 0)).
      + erewrite bind_ok by reflexivity.
        unfold ret, with_stdout.
        cbn [stdout master config_file requests network answers storage].
        by rewrite <- app_assoc.
      + erewrite bind_ok by reflexivity.
        unfold ret, with_stdout.
        cbn [stdout master config_file requests network answers storage].
        by rewrite <- app_assoc. }
    unfold save_result, bind at 1, write_config.
    destruct (storage w) as [| |room]; [by rewrite Hreport|reflexivity|].
    destruct (String.length (write parser) <=? room); [|reflexivity].
    by rewrite Hreport.
  - left. exists e. split; [done|].
    by erewrite bind_raise.
Qed.

(** ** What the handlers do to the registry and the network *)

Lemma plug_at_set_plug_state registry (q p : PlugRef) (s : bool) :
  plug_at (set_plug_state q (state_of_bool s) registry) p
  = if decide (p = q) then commanded s <$> plug_at registry p
    else plug_at registry p.
Proof.
  unfold plug_at, set_plug_state. cbn [devices].
  destruct p as [i j], q as [i' j']. cbn [fst snd].
  destruct (decide (i = i')) as [->|Hi].
  - rewrite list_lookup_alter_eq.
    destruct (devices registry !! i') as [d|]; cbn [fmap option_fmap option_map].
    2:{ by destruct (decide ((i', j) = (i', j'))). }
    cbn [Device.plugs].
    destruct (decide (j = j')) as [->|Hj].
    + rewrite decide_True by done. by rewrite list_lookup_alter_eq.
    + rewrite decide_False by congruence. by rewrite list_lookup_alter_ne.
  - rewrite decide_False by congruence.
    by rewrite list_lookup_alter_ne.
Qed.

Lemma commanded_twice s plug : commanded s (commanded s plug) = commanded s plug.
Proof. reflexivity. Qed.

Lemma plug_at_switched registry (l : list PlugRef) (p : PlugRef) (s : bool) :
  plug_at (foldl (λ m q, set_plug_state q (state_of_bool s) m) registry l) p
  = if decide (p ∈ l) then commanded s <$> plug_at registry p
    else plug_at registry p.
Proof.
  revert registry. induction l as [|q l IH]; intros registry.
  { cbn [foldl]. rewrite decide_False; [done|]. apply not_elem_of_nil. }
  cbn [foldl]. rewrite IH, plug_at_set_plug_state.
  destruct (decide (p = q)) as [->|Hpq].
  - rewrite (decide_True (P := q ∈ q :: l)) by (apply elem_of_cons; by left).
    destruct (decide (q ∈ l)); [|done].
    destruct (plug_at registry q); [|done]. reflexivity.
  - destruct (decide (p ∈ l)) as [Hin|Hout].
    + rewrite decide_True; [done|]. apply elem_of_cons. by right.
    + rewrite decide_False; [done|]. rewrite elem_of_cons. tauto.
Qed.

Lemma for_each_plug_switch_world (l : list PlugRef) (state : bool) w :
  for_each l (λ p, plug_switch p state) w
  = ((if (sent_until_failure (answers w) ((λ p, SwitchRequest p state) <$> l)).2
      then Ok tt else Raise NetworkFailure),
     with_master
       (foldl (λ m q, set_plug_state q (state_of_bool state) m) (master w)
          (switched (answers w) state l))
       (with_requests
          (requests w
           ++ (sent_until_failure (answers w)
                 ((λ p, SwitchRequest p state) <$> l)).1) w)).
Proof.
  revert w. induction l as [|p l IH]; intros w.
  { cbn. rewrite app_nil_r. by destruct w. }
  rewrite fmap_cons, sent_until_failure_cons. cbn [for_each switched].
  unfold bind at 1, plug_switch at 1.
  destruct (answers w (SwitchRequest p state)) eqn:Hanswer.
  - rewrite IH.
    unfold with_master, with_requests.
    cbn [stdout master config_file requests network answers storage foldl
         fst snd].
    by rewrite <- app_assoc.
  - cbn [fst snd foldl]. f_equal; by destruct w.
Qed.

Lemma for_each_device_reset_world (l : list DeviceRef) w :
  for_each l device_reset w
  = ((if (sent_until_failure (answers w) (ResetRequest <$> l)).2
      then Ok tt else Raise NetworkFailure),
     with_requests
       (requests w ++ (sent_until_failure (answers w) (ResetRequest <$> l)).1)
       w).
Proof.
  revert w. induction l as [|d l IH]; intros w.
  { cbn. rewrite app_nil_r. by destruct w. }
  rewrite fmap_cons, sent_until_failure_cons. cbn [for_each].
  unfold bind at 1, device_reset at 1.
  destruct (answers w (ResetRequest d)) eqn:Hanswer.
  - rewrite IH. unfold with_requests.
    cbn [stdout master config_file requests network answers storage fst snd].
    by rewrite <- app_assoc.
  - reflexivity.
Qed.

Lemma switched_complete answers state l :
  (sent_until_failure answers ((λ p, SwitchRequest p state) <$> l)).2 = true →
  switched answers state l = l.
Proof.
  induction l as [|p l IH]; [done|].
  rewrite fmap_cons, sent_until_failure_cons. cbn [switched].
  destruct (answers (SwitchRequest p state)); [|done].
  cbn [snd]. intros Hrest. by rewrite IH.
Qed.

Section HandlerProperties.
Context `{!Matching}.

Lemma switch_plugs_world (plugs : gset PlugRef) (state : bool) w :
  ∃ r lines,
    switch_plugs plugs state w
    = ((if (sent_until_failure (answers w)
              ((λ p, SwitchRequest p state) <$> elements plugs)).2
        then Ok r else Raise NetworkFailure),
       with_stdout (stdout w ++ lines)
         (with_master
            (foldl (λ m q, set_plug_state q (state_of_bool state) m)
               (master w) (switched (answers w) state (elements plugs)))
            (with_requests
               (requests w
                ++ (sent_until_failure (answers w)
                      ((λ p, SwitchRequest p state) <$> elements plugs)).1)
               w))).
Proof.
  unfold switch_plugs. destruct (decide (size plugs = 0)) as [Hzero|Hsome].
  - apply size_empty_inv in Hzero. apply leibniz_equiv in Hzero. subst plugs.
    rewrite elements_empty. eexists _, [_].
    erewrite bind_ok by reflexivity. cbn [foldl fmap list_fmap switched
      sent_until_failure fst snd].
    rewrite app_nil_r. unfold ret, print. f_equal; by destruct w.
  - destruct (decide (1 < size plugs)).
    + exists None, ["Warning: Setting multiple matching plugs"].
      erewrite bind_ok by reflexivity.
      unfold bind at 1. rewrite for_each_plug_switch_world.
      cbn [answers with_stdout].
      by destruct (sent_until_failure _ _).2.
    + exists None, []. erewrite bind_ok by reflexivity.
      unfold bind at 1. rewrite for_each_plug_switch_world.
      destruct (sent_until_failure _ _).2;
        unfold ret, with_stdout, with_master, with_requests;
        cbn [stdout master config_file requests network answers storage];
        by rewrite app_nil_r.
Qed.

Lemma switch_world (args : list string) (state : bool) w :
  ∃ r lines,
    switch args state w
    = ((if (sent_until_failure (answers w)
              ((λ p, SwitchRequest p state)
                 <$> elements (resolved_plugs (master w) args))).2
        then Ok r else Raise NetworkFailure),
       with_stdout (stdout w ++ lines)
         (with_master
            (foldl (λ m q, set_plug_state q (state_of_bool state) m)
               (master w)
               (switched (answers w) state
                  (elements (resolved_plugs (master w) args))))
            (with_requests
               (requests w
                ++ (sent_until_failure (answers w)
                      ((λ p, SwitchRequest p state)
                         <$> elements (resolved_plugs (master w) args))).1)
               w))).
Proof.
  assert (∀ line,
    ∃ r lines,
      (print line >>> ret (Some 1%Z)) w
      = ((if (sent_until_failure (answers w)
                ((λ p, SwitchRequest p state)
                   <$> elements (∅ : gset PlugRef))).2
          then Ok r else Raise NetworkFailure),
         with_stdout (stdout w ++ lines)
           (with_master
              (foldl (λ m q, set_plug_state q (state_of_bool state) m)
                 (master w)
                 (switched (answers w) state (elements (∅ : gset PlugRef))))
              (with_requests
                 (requests w
                  ++ (sent_until_failure (answers w)
                        ((λ p, SwitchRequest p state)
                           <$> elements (∅ : gset PlugRef))).1)
                 w)))) as Hrefuse.
  { intros line. eexists _, [line]. rewrite elements_empty.
    cbn [foldl fmap list_fmap switched sent_until_failure fst snd].
    rewrite app_nil_r.
    erewrite bind_ok by reflexivity. unfold ret. f_equal; by destruct w. }
  unfold switch. erewrite bind_ok by reflexivity.
  destruct args as [|arg0 [|arg1 [|arg2 rest]]]; cbn [resolved_plugs].
  - apply Hrefuse.
  - apply switch_plugs_world.
  - apply switch_plugs_world.
  - apply Hrefuse.
Qed.

(** X4: whatever its arguments, [on]/[off] leaves the configuration file
    alone and asks the resolved plugs to switch one after the other, in
    some order and none of them twice, up to the first request that is not
    answered.  The plugs whose request was answered are in the commanded
    state afterwards, with index and name unchanged; every other plug is
    as it was, the one whose request failed included.  When every request
    is answered these are all the resolved plugs and the handler returns;
    otherwise it raises [NetworkFailure].  With a refused number of
    arguments nothing is resolved. *)
Theorem switch_effect (args : list string) (state : bool) (w : World) :
  let resolved := resolved_plugs (master w) args in
  let w' := (switch args state w).2 in
  ∃ order,
    order ≡ₚ elements resolved
    ∧ NoDup order
    ∧ let planned := (λ p, SwitchRequest p state) <$> order in
      let done := switched (answers w) state order in
      config_file w' = config_file w
      ∧ requests w' = requests w ++ (sent_until_failure (answers w) planned).1
      ∧ (∀ p, p ∈ done →
              plug_at (master w') p = commanded state <$> plug_at (master w) p)
      ∧ (∀ p, p ∉ done → plug_at (master w') p = plug_at (master w) p)
      ∧ ((sent_until_failure (answers w) planned).2 = true →
         done = order ∧ ∃ r, (switch args state w).1 = Ok r)
      ∧ ((sent_until_failure (answers w) planned).2 = false →
         (switch args state w).1 = Raise NetworkFailure).
Proof.
  intros resolved w'. subst w'.
  destruct (switch_world args state w) as (r & lines & ->). cbn [fst snd].
  fold resolved. exists (elements resolved).
  split; [done|]. split; [apply NoDup_elements|]. cbv zeta.
  split; [reflexivity|]. split; [reflexivity|]. split; [|split; [|split]].
  - intros p Hp. cbn [master with_stdout with_master].
    rewrite plug_at_switched. by rewrite decide_True.
  - intros p Hp. cbn [master with_stdout with_master].
    rewrite plug_at_switched. by rewrite decide_False.
  - intros Hcomplete. split; [by apply switched_complete|].
    rewrite Hcomplete. by exists r.
  - by intros ->.
Qed.

Lemma reset_devices_world (devices : gset DeviceRef) w :
  ∃ r lines,
    reset_devices devices w
    = ((if (sent_until_failure (answers w) (ResetRequest <$> elements devices)).2
        then Ok r else Raise NetworkFailure),
       with_stdout (stdout w ++ lines)
         (with_requests
            (requests w
             ++ (sent_until_failure (answers w)
                   (ResetRequest <$> elements devices)).1) w)).
Proof.
  unfold reset_devices. destruct (decide (size devices = 0)) as [Hzero|Hsome].
  - apply size_empty_inv in Hzero. apply leibniz_equiv in Hzero. subst devices.
    rewrite elements_empty. eexists _, [_].
    erewrite bind_ok by reflexivity.
    cbn [fmap list_fmap sent_until_failure fst snd].
    rewrite app_nil_r. unfold ret, print. f_equal; by destruct w.
  - destruct (decide (1 < size devices)).
    + exists None, ["Warning: Resetting multiple matching devices"].
      erewrite bind_ok by reflexivity.
      unfold bind at 1. rewrite for_each_device_reset_world.
      cbn [answers with_stdout].
      by destruct (sent_until_failure _ _).2.
    + exists None, []. erewrite bind_ok by reflexivity.
      unfold bind at 1. rewrite for_each_device_reset_world.
      destruct (sent_until_failure _ _).2;
        unfold ret, with_stdout, with_requests;
        cbn [stdout master config_file requests network answers storage];
        by rewrite app_nil_r.
Qed.

(** X5: whatever its arguments, [reset] leaves the registry and the
    configuration file unchanged and sends reset requests only: to the
    devices matched by a single argument, one after the other in some
    order and none of them twice, up to the first request that is not
    answered, and none for any other number of arguments.  It returns
    when every request was answered and raises [NetworkFailure]
    otherwise. *)
Theorem reset_effect (args : list string) (w : World) :
  let matched := resolved_devices (master w) args in
  let w' := (reset args w).2 in
  ∃ order,
    order ≡ₚ elements matched
    ∧ NoDup order
    ∧ let planned := ResetRequest <$> order in
      config_file w' = config_file w
      ∧ master w' = master w
      ∧ requests w' = requests w ++ (sent_until_failure (answers w) planned).1
      ∧ ((sent_until_failure (answers w) planned).2 = true →
         ∃ r, (reset args w).1 = Ok r)
      ∧ ((sent_until_failure (answers w) planned).2 = false →
         (reset args w).1 = Raise NetworkFailure).
Proof.
  intros matched w'. subst w'.
  assert (∃ r lines,
    reset args w
    = ((if (sent_until_failure (answers w) (ResetRequest <$> elements matched)).2
        then Ok r else Raise NetworkFailure),
       with_stdout (stdout w ++ lines)
         (with_requests
            (requests w
             ++ (sent_until_failure (answers w)
                   (ResetRequest <$> elements matched)).1) w)))
    as (r & lines & ->).
  { assert (∀ line, ∃ r lines,
      (print line >>> ret (Some 1%Z)) w
      = ((if (sent_until_failure (answers w)
                (ResetRequest <$> elements (∅ : gset DeviceRef))).2
          then Ok r else Raise NetworkFailure),
         with_stdout (stdout w ++ lines)
           (with_requests
              (requests w
               ++ (sent_until_failure (answers w)
                     (ResetRequest <$> elements (∅ : gset DeviceRef))).1) w)))
      as Hrefuse.
    { intros line. eexists _, [line]. rewrite elements_empty.
      cbn [fmap list_fmap sent_until_failure fst snd]. rewrite app_nil_r.
      erewrite bind_ok by reflexivity. unfold ret. f_equal; by destruct w. }
    unfold reset. erewrite bind_ok by reflexivity. subst matched.
    destruct args as [|arg0 [|arg1 rest]]; cbn [resolved_devices].
    - apply Hrefuse.
    - apply reset_devices_world.
    - apply Hrefuse. }
  cbn [fst snd]. exists (elements matched).
  split; [done|]. split; [apply NoDup_elements|]. cbv zeta.
  split; [reflexivity|]. split; [reflexivity|]. split; [reflexivity|]. split.
  - intros ->. by exists r.
  - by intros ->.
Qed.
End HandlerProperties.

(** ** What [save] writes and refuses *)

Lemma dict_has_last {V} k (v : V) (d : list (string * V)) :
  dict_has k (d ++ [(k, v)]) = true.
Proof.
  unfold dict_has. induction d as [|[k0 v0] d IH]; cbn [app dict_get].
  - by rewrite decide_True.
  - by destruct (decide (k = k0)).
Qed.

Lemma save_device_adds_section device parser parser' :
  save_device parser device = Ok parser' →
  dict_has (Device.address device) (cp_sections parser') = true.
Proof.
  unfold save_device.
  destruct (add_section parser (Device.address device)) as [p1|] eqn:H1; [|done].
  cbn [res_bind].
  destruct (set p1 _ _ _) as [p2|] eqn:H2; [|done].
  cbn [res_bind]. intros Hplugs.
  eapply save_plugs_keep_section; [exact Hplugs|].
  eapply set_keeps_section; [exact H2|].
  unfold add_section in H1.
  destruct (decide (Device.address device = DEFAULTSECT)); [done|].
  destruct (dict_has (Device.address device) (cp_sections parser)); [done|].
  injection H1 as <-. cbn [cp_sections]. apply dict_has_last.
Qed.

Lemma save_device_present device parser :
  dict_has (Device.address device) (cp_sections parser) = true →
  ∃ e, save_device parser device = Raise e.
Proof.
  intros Hpresent. unfold save_device, add_section. rewrite Hpresent.
  destruct (decide (Device.address device = DEFAULTSECT)); by eexists.
Qed.

Lemma save_devices_duplicate parser (l : list Device.t) :
  ¬ NoDup (Device.address <$> l)
  ∨ (∃ d, d ∈ l ∧ dict_has (Device.address d) (cp_sections parser) = true) →
  ∃ e, res_foldl save_device parser l = Raise e.
Proof.
  revert parser. induction l as [|d l IH]; intros parser Hbad.
  { destruct Hbad as [Hdup|(d & Hd & _)].
    - destruct Hdup. constructor.
    - by apply elem_of_nil in Hd. }
  cbn [res_foldl].
  destruct (dict_has (Device.address d) (cp_sections parser)) eqn:Hhere.
  { destruct (save_device_present d parser Hhere) as [e ->]. by exists e. }
  destruct (save_device parser d) as [parser1|e] eqn:Hsave; [|by exists e].
  cbn [res_bind]. apply IH.
  destruct Hbad as [Hdup|(d' & Hd' & Hpresent)].
  - rewrite fmap_cons in Hdup.
    destruct (decide (Device.address d ∈ Device.address <$> l)) as [Hin|Hout].
    + right. apply list_elem_of_fmap in Hin as (d' & Heq & Hd').
      exists d'. split; [done|]. rewrite <- Heq.
      by eapply save_device_adds_section.
    + left. intros Hnodup. apply Hdup. by constructor.
  - apply elem_of_cons in Hd' as [->|Hd']; [congruence|].
    right. exists d'. split; [done|]. by eapply save_device_keeps_section.
Qed.

Lemma save_parser_duplicate (registry : PlugMaster) :
  ¬ NoDup (Device.address <$> devices registry) →
  ∃ e, save_parser registry = Raise e.
Proof.
  intros Hdup. unfold save_parser. cbv zeta.
  destruct (add_section configparser.new GENERAL_SECTION) as [p0|e]; [|by exists e].
  cbn [res_bind].
  destruct (set p0 _ _ _) as [p1|e]; [|by exists e]. cbn [res_bind].
  destruct (set p1 _ _ _) as [p2|e]; [|by exists e]. cbn [res_bind].
  destruct (set p2 _ _ _) as [p3|e]; [|by exists e]. cbn [res_bind].
  destruct (set p3 _ _ _) as [p4|e]; [|by exists e]. cbn [res_bind].
  apply save_devices_duplicate. by left.
Qed.

(** X6: [save] never merges devices: when two devices of the registry
    have the same address, it raises and leaves the world, the
    configuration file included, as it was. *)
Theorem save_duplicate_address (args : list string) (w : World) :
  ¬ NoDup (Device.address <$> devices (master w)) →
  ∃ e, save args w = (Raise e, w).
Proof.
  intros Hdup. destruct (save_parser_duplicate (master w) Hdup) as [e He].
  exists e. unfold save. erewrite bind_ok by reflexivity.
  erewrite bind_raise; [reflexivity|]. unfold lift. by rewrite He.
Qed.

Lemma save_duplicate_address_witness :
  ¬ NoDup (Device.address <$> devices (master (world_of twin_registry)))
  ∧ ∃ e, save [] (world_of twin_registry) = (Raise e, world_of twin_registry).
Proof.
  assert (¬ NoDup (Device.address <$> devices (master (world_of twin_registry))))
    as Hdup.
  { intros Hnodup. apply NoDup_cons in Hnodup as [Hfirst _].
    apply Hfirst. vm_compute. left. }
  split; [exact Hdup|].
  exact (save_duplicate_address [] (world_of twin_registry) Hdup).
Defined.

Lemma saved_options (registry : PlugMaster) device :
  storable registry → device ∈ devices registry →
  section_written (saved_config registry) device.
Proof.
  intros Hregistry Hdevice.
  pose proof (saved_section_lookup registry device Hregistry Hdevice) as Hsection.
  destruct Hregistry as [_ Hdevices _ _ _ _].
  eapply Forall_forall in Hdevices; [|done].
  destruct Hdevices as [? ? ? _ Hname _ Hunique Hnonneg Hnames _].
  split; [|split].
  - unfold options. rewrite Hsection.
    cbn [device_section snd dict_update foldl cp_defaults saved_config
         dict_keys fmap list_fmap fst].
    f_equal. f_equal.
    change ((fix go (l : list (string * string)) : list string :=
               match l with
               | [] => []
               | x :: l0 => x.1 :: go l0
               end) (plug_entry <$> Device.plugs device))
      with ((plug_entry <$> Device.plugs device).*1).
    by rewrite <- list_fmap_compose.
  - by eapply get_plain.
  - apply Forall_forall. intros p Hp.
    eapply get_plain; [exact Hsection|apply plug_key_lower| |].
    + by apply plug_entry_lookup.
    + eapply Forall_forall in Hnames; done.
Qed.

(** X7: for a registry that can be stored and a file that can be
    written, [save] writes the text of a parser that [read] gives back from
    the file: it has the general section and then one section per device,
    in registry order and named by the address; the options of a device's
    section are [name] and then one [plug_<index>] key per plug in plug
    order, and each reads back as the device name or the plug name. *)
Theorem save_sections (args : list string) (w : World) :
  storable (master w) →
  storage w = Writable →
  ∃ parser w',
    save args w = (Ok None, w')
    ∧ config_file w' = Some (write parser)
    ∧ read (config_file w') = Ok parser
    ∧ sections parser
      = GENERAL_SECTION :: (Device.address <$> devices (master w))
    ∧ Forall (section_written parser) (devices (master w)).
Proof.
  intros Hstorable Hwritable.
  destruct (save_storable args w Hstorable Hwritable) as [lines Hsave].
  exists (saved_config (master w)). eexists. split; [exact Hsave|].
  split; [reflexivity|]. split; [|split].
  - cbn [config_file with_stdout with_config_file].
    by apply saved_config_read.
  - unfold sections, saved_config, dict_keys. cbn [cp_sections].
    rewrite fmap_cons. cbn [fst]. f_equal.
    by rewrite <- list_fmap_compose.
  - apply Forall_forall. intros d Hd. by apply saved_options.
Qed.

Lemma save_sections_witness :
  storable strip_registry
  ∧ storage (world_of strip_registry) = Writable
  ∧ ∃ parser w',
      save [] (world_of strip_registry) = (Ok None, w')
      ∧ config_file w' = Some (write parser)
      ∧ read (config_file w') = Ok parser
      ∧ sections parser = ["GENERAL"; "192.168.1.50"]
      ∧ Forall (section_written parser) (devices strip_registry).
Proof.
  split; [exact strip_registry_storable|]. split; [reflexivity|].
  exact (save_sections [] (world_of strip_registry) strip_registry_storable
           eq_refl).
Defined.

Lemma storable_forget (registry : PlugMaster) :
  storable registry → storable (forget_states registry).
Proof.
  intros [Hnodup Hdevices ? ? ? ?]. split; try done.
  - unfold forget_states. cbn [devices]. by rewrite <- list_fmap_compose.
  - unfold forget_states. cbn [devices]. apply Forall_fmap.
    eapply Forall_impl; [exact Hdevices|].
    intros d [? ? ? ? ? ? Hunique Hnonneg Hnames Htidy].
    split; cbn [forget_device Device.address Device.name Device.plugs];
      try done.
    + by rewrite <- list_fmap_compose.
    + by apply Forall_fmap.
    + by apply Forall_fmap.
    + by apply Forall_fmap.
Qed.

Lemma saved_config_forget (registry : PlugMaster) :
  saved_config (forget_states registry) = saved_config registry.
Proof.
  unfold saved_config, forget_states, general_entries.
  cbn [devices user password pin pout]. f_equal. f_equal.
  rewrite <- list_fmap_compose. apply list_fmap_ext. intros _ d _.
  unfold compose, device_section, forget_device.
  cbn [Device.address Device.name Device.plugs]. f_equal. f_equal.
  by rewrite <- list_fmap_compose.
Qed.

(** X8: loading a saved file and saving again writes the same file: for
    a registry that can be stored, the file that [save] writes for it
    parses, and a new registry with the same credentials and ports, filled
    by [load_devices] from what was parsed and then saved to a file that
    can be written, gives the same text. *)
Theorem load_then_save (registry : PlugMaster) (args : list string)
    (w : World) :
  storable registry →
  storage w = Writable →
  ∃ config w',
    read (Some (write (saved_config registry))) = Ok config
    ∧ (new_master (pin registry) (pout registry) (user registry)
         (password registry) >>>
       load_devices config >>>
       save args) w
      = (Ok None, w')
    ∧ config_file w' = Some (write (saved_config registry))
    ∧ master w' = forget_states registry.
Proof.
  intros Hstorable Hwritable.
  exists (saved_config registry).
  assert ((new_master (pin registry) (pout registry) (user registry)
             (password registry) >>>
           load_devices (saved_config registry) >>>
           save args) w
          = save args (with_master (forget_states registry) w)) as ->.
  { erewrite bind_ok by reflexivity.
    erewrite bind_ok by (by apply load_devices_saved). reflexivity. }
  destruct (save_storable args (with_master (forget_states registry) w))
    as [lines ->].
  { cbn [master with_master]. by apply storable_forget. }
  { exact Hwritable. }
  eexists. split; [by apply saved_config_read|]. split; [reflexivity|].
  cbn [config_file with_stdout with_config_file master with_master].
  split; [|reflexivity]. by rewrite saved_config_forget.
Qed.

Lemma load_then_save_witness :
  storable strip_registry
  ∧ storage (world_of (registry_of [])) = Writable
  ∧ ∃ config w',
      read (Some (write (saved_config strip_registry))) = Ok config
      ∧ (new_master 75 77 "admin" "anel" >>>
         load_devices config >>>
         save []) (world_of (registry_of []))
        = (Ok None, w')
      ∧ config_file w' = Some (write (saved_config strip_registry))
      ∧ master w' = forget_states strip_registry.
Proof.
  split; [exact strip_registry_storable|]. split; [reflexivity|].
  exact (load_then_save strip_registry [] (world_of (registry_of []))
           strip_registry_storable eq_refl).
Defined.

(** ** What [load_devices] does to the world *)

Lemma with_nothing w :
  with_stdout (stdout w ++ []) (with_master (append_devices [] (master w)) w) = w.
Proof.
  destruct w as [[] ? ? ? ? ? ?]. unfold with_stdout, with_master, append_devices.
  cbn. by rewrite !app_nil_r.
Qed.

Lemma load_device_step (config : ConfigParser) (section : string) (w : World) :
  ∃ added lines,
    (load_device config section w).2
    = with_stdout (stdout w ++ lines)
        (with_master (append_devices added (master w)) w)
    ∧ ((added = [] ∧ lines = [])
       ∨ (added = [] ∧ lines = [nameless_diagnostic]
          ∧ section ≠ GENERAL_SECTION)
       ∨ (lines = [] ∧ section ≠ GENERAL_SECTION
          ∧ ∃ device, added = [device] ∧ Device.address device = section
                      ∧ all_unknown device)).
Proof.
  assert (∃ added lines,
            w = with_stdout (stdout w ++ lines)
                  (with_master (append_devices added (master w)) w)
            ∧ ((added = [] ∧ lines = [])
               ∨ (added = [] ∧ lines = [nameless_diagnostic]
                  ∧ section ≠ GENERAL_SECTION)
               ∨ (lines = [] ∧ section ≠ GENERAL_SECTION
                  ∧ ∃ device, added = [device] ∧ Device.address device = section
                              ∧ all_unknown device))) as Hsame.
  { exists [], []. split; [by rewrite with_nothing|]. by left. }
  unfold load_device.
  destruct (decide (section = GENERAL_SECTION)) as [|Hsection]; [exact Hsame|].
  destruct (has_option config section "name"); cbn [negb].
  2:{ exists [], [nameless_diagnostic]. split; [|right; left; done].
      unfold print, with_stdout, with_master, append_devices. cbn.
      rewrite app_nil_r. by destruct w as [[] ? ? ? ? ? ?]. }
  unfold bind, lift.
  destruct (get config section "name") as [name|e]; [|exact Hsame].
  destruct (options config section) as [keys|e]; [|exact Hsame].
  destruct (res_foldl (load_plug config section) [] keys) as [plugs|e];
    [|exact Hsame].
  unfold create_device. destruct (has_address section (master w)); [exact Hsame|].
  eexists [_], []. split.
  - cbn [snd]. unfold with_stdout, with_master, append_devices, add_device.
    cbn. by rewrite app_nil_r.
  - right; right. split; [done|]. split; [done|].
    eexists. split; [reflexivity|]. split; [reflexivity|].
    unfold all_unknown. cbn [Device.plugs]. apply Forall_fmap.
    by apply Forall_true.
Qed.

Lemma with_appended_twice w added1 lines1 added2 lines2 :
  let w1 := with_stdout (stdout w ++ lines1)
              (with_master (append_devices added1 (master w)) w) in
  with_stdout (stdout w1 ++ lines2)
    (with_master (append_devices added2 (master w1)) w1)
  = with_stdout (stdout w ++ lines1 ++ lines2)
      (with_master (append_devices (added1 ++ added2) (master w)) w).
Proof.
  unfold with_stdout, with_master, append_devices. cbn.
  by rewrite !app_assoc.
Qed.

Lemma load_sections_step (config : ConfigParser) (l : list string) (w : World) :
  ∃ added n,
    (for_each l (load_device config) w).2
    = with_stdout (stdout w ++ replicate n nameless_diagnostic)
        (with_master (append_devices added (master w)) w)
    ∧ Device.address <$> added `sublist_of` device_sections l
    ∧ Forall all_unknown added
    ∧ length added + n ≤ length (device_sections l).
Proof.
  revert w. induction l as [|section l IH]; intros w.
  { exists [], 0. cbn [for_each ret snd replicate].
    split; [by rewrite with_nothing|]. split; [done|]. split; [done|]. cbn. lia. }
  cbn [for_each]. unfold bind.
  destruct (load_device_step config section w) as (added1 & lines1 & Hw1 & Hcases).
  assert (∃ n1, lines1 = replicate n1 nameless_diagnostic
                ∧ Device.address <$> added1 `sublist_of` device_sections [section]
                ∧ Forall all_unknown added1
                ∧ length added1 + n1 ≤ length (device_sections [section]))
    as (n1 & -> & Hsub1 & Hunknown1 & Hlen1).
  { unfold device_sections.
    destruct Hcases as [[-> ->]|[(-> & -> & Hne)|(-> & Hne & d & -> & Hd & Hu)]].
    - exists 0. split; [done|]. split; [apply sublist_nil_l|].
      split; [done|]. cbn. lia.
    - exists 1. split; [done|]. split; [apply sublist_nil_l|].
      split; [done|]. rewrite filter_cons, decide_True by done. cbn. lia.
    - exists 0. split; [done|].
      rewrite filter_cons, decide_True by done. cbn [filter list_filter].
      rewrite ?filter_nil. cbn [fmap list_fmap]. rewrite Hd.
      split; [done|]. split; [by apply Forall_singleton|]. cbn. lia. }
  assert (device_sections (section :: l)
          = device_sections [section] ++ device_sections l) as Hsplit.
  { unfold device_sections. by rewrite (filter_app _ [section] l). }
  destruct (load_device config section w) as [[[]|e] w1]; cbn [snd] in Hw1 |- *.
  - destruct (IH w1) as (added2 & n2 & -> & Hsub2 & Hunknown2 & Hlen2).
    exists (added1 ++ added2), (n1 + n2). subst w1.
    rewrite (with_appended_twice w added1 _ added2 _).
    rewrite replicate_add. split; [done|].
    rewrite Hsplit, fmap_app, !length_app. split; [by apply sublist_app|].
    split; [by apply Forall_app|]. lia.
  - exists added1, n1. split; [done|].
    rewrite Hsplit, length_app. split.
    + by apply sublist_inserts_r.
    + split; [done|]. lia.
Qed.

(** X9: however it ends, [load_devices] only appends devices to the
    registry and diagnostics to the output: the credentials, the ports, the
    devices already present, the configuration file and the network are
    untouched.  The addresses of the new devices are names of sections
    other than the general one, in the order of the sections and each
    section at most once; every new plug is in the unknown state; and a
    section gives a device or a diagnostic, never both. *)
Theorem load_devices_effect (config : ConfigParser) (w : World) :
  ∃ added n,
    (load_devices config w).2
    = with_stdout (stdout w ++ replicate n nameless_diagnostic)
        (with_master (append_devices added (master w)) w)
    ∧ Device.address <$> added `sublist_of` device_sections (sections config)
    ∧ Forall all_unknown added
    ∧ length added + n ≤ length (device_sections (sections config)).
Proof. apply load_sections_step. Qed.

Lemma load_device_raise (config : ConfigParser) (section : string) w e w' :
  load_device config section w = (Raise e, w') → w' = w.
Proof.
  unfold load_device.
  destruct (decide (section = GENERAL_SECTION)); [done|].
  destruct (has_option config section "name"); cbn [negb]; [|done].
  unfold bind, lift.
  destruct (get config section "name"); [|by intros [= _ <-]].
  destruct (options config section); [|by intros [= _ <-]].
  destruct (res_foldl _ _ _); [|by intros [= _ <-]].
  unfold create_device. destruct (has_address section (master w)); [|done].
  by intros [= _ <-].
Qed.

Lemma load_sections_raise (config : ConfigParser) (l : list string) w e w' :
  for_each l (load_device config) w = (Raise e, w') →
  ∃ before section after,
    l = before ++ section :: after
    ∧ for_each before (load_device config) w = (Ok tt, w')
    ∧ load_device config section w' = (Raise e, w').
Proof.
  revert w. induction l as [|section l IH]; intros w; [done|].
  cbn [for_each]. unfold bind.
  destruct (load_device config section w) as [[[]|e1] w1] eqn:Hstep.
  - intros Hrest. destruct (IH w1 Hrest) as (before & s & after & -> & Hbefore & Hs).
    exists (section :: before), s, after. split; [done|]. split; [|done].
    cbn [for_each]. unfold bind. by rewrite Hstep.
  - intros [= <- <-]. pose proof (load_device_raise _ _ _ _ _ Hstep) as ->.
    exists [], section, l. done.
Qed.

(** X10: a failing load stops at the first section that fails and leaves
    no trace of it: the world is exactly what the sections before it made
    of it, the failing section itself changes nothing, and the sections
    after it are not looked at. *)
Theorem load_devices_failure (config : ConfigParser) (w w' : World)
    (e : PyError) :
  load_devices config w = (Raise e, w') →
  ∃ before section after,
    sections config = before ++ section :: after
    ∧ for_each before (load_device config) w = (Ok tt, w')
    ∧ load_device config section w' = (Raise e, w').
Proof. apply load_sections_raise. Qed.

Lemma load_devices_failure_witness :
  let w := world_of (registry_of []) in
  let w' :=
    with_master
      (registry_of [Device.mk "192.168.1.50" "Strip1" [Plug.mk 1 "Lamp" Unknown]])
      w in
  load_devices half_good_config w = (Raise ValueError, w')
  ∧ ∃ before section after,
      sections half_good_config = before ++ section :: after
      ∧ for_each before (load_device half_good_config) w = (Ok tt, w')
      ∧ load_device half_good_config section w' = (Raise ValueError, w').
Proof.
  intros w w'.
  assert (load_devices half_good_config w = (Raise ValueError, w')) as Hrun
    by reflexivity.
  split; [exact Hrun|].
  exact (load_devices_failure half_good_config w w' ValueError Hrun).
Defined.

(** ** The command line *)

Section CommandLine.
Context `{!Matching}.

Lemma unknown_command (command : string) :
  command ∉ ["on"; "off"; "save"; "show"; "reset"] →
  dict_get command commands = None.
Proof.
  rewrite !not_elem_of_cons. intros (? & ? & ? & ? & ? & _).
  unfold commands. cbn [dict_get]. by rewrite !decide_False.
Qed.

(** X11: when the configuration file parses and the defaults load, an
    invocation without the list option and without a command, or with a
    command that is not on, off, save, show or reset, prints its error and
    returns the status 1; no registry is built, nothing is loaded, no
    request is sent and the file is not written. *)
Theorem main_rejects (options : Options) (w : World)
    (config : ConfigParser) (fallback : string * string * Z * Z) :
  opt_list options = false →
  read (config_file w) = Ok config →
  load_defaults config = Ok fallback →
  main options [] w
  = (Ok (Some 1%Z), with_stdout (stdout w ++ ["Command missing, please add one"]) w)
  ∧ ∀ command rest,
      command ∉ ["on"; "off"; "save"; "show"; "reset"] →
      main options (command :: rest) w
      = (Ok (Some 1%Z), with_stdout (stdout w ++ ["Unknown command, sorry"]) w).
Proof.
  intros Hlist Hread Hdefaults. split.
  - unfold main. erewrite bind_ok by (unfold read_config; by rewrite Hread).
    erewrite bind_ok by (unfold lift; by rewrite Hdefaults).
    destruct fallback as [[[? ?] ?] ?]. rewrite Hlist. reflexivity.
  - intros command rest Hcommand. unfold main.
    erewrite bind_ok by (unfold read_config; by rewrite Hread).
    erewrite bind_ok by (unfold lift; by rewrite Hdefaults).
    destruct fallback as [[[? ?] ?] ?]. rewrite Hlist.
    rewrite unknown_command by done. reflexivity.
Qed.

Lemma sorted_table (on off save show reset : list string → M (option Z)) :
  merge_sort (λ a b : string * ((list string → M (option Z)) * string * string),
                String.le a.1 b.1)
    [ ("on", (on, "[device] plug", "switch plug on"));
      ("off", (off, "[device] plug", "switch plug off"));
      ("save", (save, EmptyString, "save options and discovered devices"));
      ("show", (show, EmptyString, "show all discovered or saved devices"));
      ("reset", (reset, EmptyString, "save options and discovered devices")) ]
  = [ ("off", (off, "[device] plug", "switch plug off"));
      ("on", (on, "[device] plug", "switch plug on"));
      ("reset", (reset, EmptyString, "save options and discovered devices"));
      ("save", (save, EmptyString, "save options and discovered devices"));
      ("show", (show, EmptyString, "show all discovered or saved devices")) ].
Proof. vm_compute. reflexivity. Qed.

(** X12: with the list option, when the configuration file parses and
    the defaults load, [main] prints the header and the five commands in
    the order of their names, whatever the arguments, returns the status 0
    and does nothing else. *)
Theorem main_list (options : Options) (args : list string) (w : World)
    (config : ConfigParser) (fallback : string * string * Z * Z) :
  opt_list options = true →
  read (config_file w) = Ok config →
  load_defaults config = Ok fallback →
  main options args w
  = (Ok (Some 0%Z), with_stdout (stdout w ++ command_list) w).
Proof.
  intros Hlist Hread Hdefaults. unfold main.
  erewrite bind_ok by (unfold read_config; by rewrite Hread).
  erewrite bind_ok by (unfold lift; by rewrite Hdefaults).
  destruct fallback as [[[? ?] ?] ?]. rewrite Hlist.
  erewrite bind_ok by reflexivity.
  unfold sorted_commands, commands. rewrite sorted_table.
  erewrite bind_ok by reflexivity.
  unfold ret, with_stdout, print, command_list.
  cbn [stdout master config_file requests network answers storage fst snd].
  f_equal. f_equal. rewrite <- !app_assoc. reflexivity.
Qed.

(** X13: a stored port that is not an integer stops every invocation:
    when the file parses, the user and the password resolve and the value
    of [pin] does not convert, [main] raises [ValueError] before it looks
    at the options or the command, so even the list option fails, and
    nothing is changed. *)
Theorem main_malformed_port (options : Options) (args : list string)
    (w : World) (config : ConfigParser) (user password value : string) :
  read (config_file w) = Ok config →
  get_fallback config GENERAL_SECTION "user" "admin" = Ok user →
  get_fallback config GENERAL_SECTION "password" "anel" = Ok password →
  get config GENERAL_SECTION "pin" = Ok value →
  Py.int value = Raise ValueError →
  main options args w = (Raise ValueError, w).
Proof.
  intros Hread Huser Hpassword Hpin Hint. unfold main.
  erewrite bind_ok by (unfold read_config; by rewrite Hread).
  erewrite bind_raise; [reflexivity|].
  unfold lift, load_defaults. rewrite Huser, Hpassword.
  cbn [res_bind]. unfold getint_fallback at 1. rewrite Hpin, Hint.
  reflexivity.
Qed.

(** X14: the round trip through the command line: when the file holds
    the text that [save] wrote for a registry that can be stored, an
    invocation without options runs [show], [on], [off] and [reset] on a
    registry with the saved credentials, ports, devices and plugs, every
    plug state unknown. *)
Theorem main_runs_on_saved (registry : PlugMaster) (rest : list string)
    (w : World) :
  storable registry →
  config_file w = Some (write (saved_config registry)) →
  let loaded := with_master (forget_states registry) w in
  main no_options ("show" :: rest) w = show rest loaded
  ∧ main no_options ("on" :: rest) w = switch rest true loaded
  ∧ main no_options ("off" :: rest) w = switch rest false loaded
  ∧ main no_options ("reset" :: rest) w = reset rest loaded.
Proof.
  intros Hstorable Hfile loaded.
  assert (read (config_file w) = Ok (saved_config registry)) as Hread.
  { rewrite Hfile. by apply saved_config_read. }
  assert (load_defaults (saved_config registry)
          = Ok (user registry, password registry, pin registry, pout registry))
    as Hdefaults.
  { apply load_defaults_saved; by destruct Hstorable. }
  assert (∀ w0, devices (master w0) = [] →
            pin (master w0) = pin registry → pout (master w0) = pout registry →
            user (master w0) = user registry →
            password (master w0) = password registry →
            load_devices (saved_config registry) w0
            = (Ok tt, with_master (forget_states registry) w0)) as Hload.
  { intros w0 Hempty Hpin Hpout Huser Hpassword.
    rewrite load_devices_saved by done.
    by rewrite Hpin, Hpout, Huser, Hpassword. }
  assert (∀ command handler usage description,
            dict_get command commands = Some (handler, usage, description) →
            command ≠ "save" →
            main no_options (command :: rest) w = handler rest loaded) as Hrun.
  { intros command handler usage description Hcommand Hsave. unfold main.
    erewrite bind_ok by (unfold read_config; by rewrite Hread).
    erewrite bind_ok by (unfold lift; by rewrite Hdefaults).
    cbv iota beta. cbn [opt_list opt_discover no_options opt_user opt_password
                        opt_pin opt_pout default from_option id].
    rewrite Hcommand.
    erewrite bind_ok by reflexivity.
    rewrite bool_decide_eq_false_2 by done. cbn [negb andb].
    erewrite bind_ok by (apply Hload; reflexivity).
    erewrite bind_ok by reflexivity.
    reflexivity. }
  split; [|split; [|split]].
  - by apply (Hrun "show" show EmptyString "show all discovered or saved devices").
  - by apply (Hrun "on" (λ args, switch args true) "[device] plug" "switch plug on").
  - by apply (Hrun "off" (λ args, switch args false) "[device] plug"
                "switch plug off").
  - by apply (Hrun "reset" reset EmptyString "save options and discovered devices").
Qed.
End CommandLine.

Lemma strip_config_read :
  read (config_file (world_with_file strip_config)) = Ok strip_config.
Proof. vm_compute. reflexivity. Qed.

Lemma main_rejects_witness :
  let w := world_with_file strip_config in
  opt_list no_options = false
  ∧ read (config_file w) = Ok strip_config
  ∧ load_defaults strip_config = Ok ("admin", "anel", 75%Z, 77%Z)
  ∧ main no_options [] w
    = (Ok (Some 1%Z), with_stdout ["Command missing, please add one"] w)
  ∧ main no_options ["toggle"; "Lamp"] w
    = (Ok (Some 1%Z), with_stdout ["Unknown command, sorry"] w).
Proof.
  intros w.
  destruct (main_rejects no_options w strip_config ("admin", "anel", 75%Z, 77%Z)
              eq_refl strip_config_read eq_refl) as [Hnone Hunknown].
  split; [reflexivity|]. split; [exact strip_config_read|].
  split; [reflexivity|]. split; [exact Hnone|].
  apply Hunknown. rewrite !not_elem_of_cons.
  repeat (split; [discriminate|]). apply not_elem_of_nil.
Defined.

Lemma main_list_witness :
  let w := world_with_file strip_config in
  opt_list list_options = true
  ∧ read (config_file w) = Ok strip_config
  ∧ load_defaults strip_config = Ok ("admin", "anel", 75%Z, 77%Z)
  ∧ main list_options ["toggle"; "Lamp"] w
    = (Ok (Some 0%Z), with_stdout command_list w).
Proof.
  intros w. split; [reflexivity|]. split; [exact strip_config_read|].
  split; [reflexivity|].
  exact (main_list list_options ["toggle"; "Lamp"] w strip_config
           ("admin", "anel", 75%Z, 77%Z) eq_refl strip_config_read eq_refl).
Defined.

Lemma bad_port_config_read :
  read (config_file (world_with_file bad_port_config)) = Ok bad_port_config.
Proof. vm_compute. reflexivity. Qed.

Lemma main_malformed_port_witness :
  let w := world_with_file bad_port_config in
  read (config_file w) = Ok bad_port_config
  ∧ get bad_port_config GENERAL_SECTION "pin" = Ok "seventy"
  ∧ Py.int "seventy" = Raise ValueError
  ∧ main list_options [] w = (Raise ValueError, w)
  ∧ main no_options ["show"] w = (Raise ValueError, w).
Proof.
  intros w. split; [exact bad_port_config_read|].
  split; [reflexivity|]. split; [reflexivity|]. split.
  - exact (main_malformed_port list_options [] w bad_port_config
             "admin" "anel" "seventy"
             bad_port_config_read eq_refl eq_refl eq_refl eq_refl).
  - exact (main_malformed_port no_options ["show"] w bad_port_config
             "admin" "anel" "seventy"
             bad_port_config_read eq_refl eq_refl eq_refl eq_refl).
Defined.

Lemma main_runs_on_saved_witness :
  let w := world_with_file strip_config in
  storable strip_registry
  ∧ config_file w = Some (write (saved_config strip_registry))
  ∧ main no_options ["show"] w
    = (Ok None,
       with_stdout
         ["Strip1 (192.168.1.50):"; "- Lamp"; "- Fan"; EmptyString;
          "There are 1 device(s) and 2 plug(s)"]
         (with_master (forget_states strip_registry) w)).
Proof.
  intros w.
  split; [exact strip_registry_storable|]. split; [reflexivity|].
  destruct (main_runs_on_saved strip_registry [] w strip_registry_storable
              eq_refl)
    as (Hshow & _).
  rewrite Hshow. reflexivity.
Defined.

Section ParseFailure.
Context `{!Matching}.

(** X17: a configuration file that does not parse stops every
    invocation: [main] raises what [read] raises before it looks at the
    options or the command, so even the list option fails, and nothing is
    changed. *)
Theorem main_unreadable_file (options : Options) (args : list string)
    (w : World) (e : PyError) :
  read (config_file w) = Raise e →
  main options args w = (Raise e, w).
Proof.
  intros Hread. unfold main. erewrite bind_raise; [reflexivity|].
  unfold read_config. by rewrite Hread.
Qed.
End ParseFailure.

Lemma main_unreadable_file_witness :
  let w :=
    with_config_file (Some headless_text) (world_of (registry_of [])) in
  read (config_file w) = Raise MissingSectionHeaderError
  ∧ main list_options [] w = (Raise MissingSectionHeaderError, w)
  ∧ main no_options ["show"] w = (Raise MissingSectionHeaderError, w).
Proof.
  intros w.
  assert (read (config_file w) = Raise MissingSectionHeaderError) as Hread
    by (vm_compute; reflexivity).
  split; [exact Hread|]. split.
  - exact (main_unreadable_file list_options [] w _ Hread).
  - exact (main_unreadable_file no_options ["show"] w _ Hread).
Defined.

(** ** The device qualifier *)

Section Qualifier.
Context `{!Matching}.

Lemma device_search_plug_in_range (registry : PlugMaster) (device : DeviceRef)
    (pattern : string) (plug : PlugRef) :
  plug ∈ device_search_plug registry device pattern →
  device < length (devices registry).
Proof.
  unfold device_search_plug.
  destruct (devices registry !! device) eqn:Hlookup; [|set_solver].
  intros _. by eapply lookup_lt_Some.
Qed.

(** X15: a device qualifier only narrows: the plugs that [on]/[off]
    resolves from a device name and a plug name are among the plugs it
    resolves from the plug name alone. *)
Theorem qualifier_narrows (registry : PlugMaster) (arg0 arg1 : string) :
  plugs_of_devices registry (search_device registry arg0) arg1
  ⊆ search_plug registry arg1.
Proof.
  intros plug. unfold plugs_of_devices, search_plug.
  rewrite elem_of_plugs_of_list, elem_of_union_list.
  intros [Hempty|(device & _ & Hplug)]; [by apply not_elem_of_empty in Hempty|].
  exists (device_search_plug registry device arg1). split; [|done].
  apply list_elem_of_fmap. exists device. split; [done|].
  apply elem_of_seq. pose proof (device_search_plug_in_range _ _ _ _ Hplug). lia.
Qed.

(** X16: when no device matches the first of two arguments, [on]/[off]
    reports that no plug matches, returns the status 1 and sends nothing,
    whatever the second argument. *)
Theorem switch_unknown_device (w : World) (arg0 arg1 : string) (state : bool) :
  search_device (master w) arg0 = ∅ →
  refuses (switch [arg0; arg1] state) w "No matching plugs found, sorry".
Proof.
  intros Hnone.
  assert (plugs_of_devices (master w) (search_device (master w) arg0) arg1 = ∅)
    as Hplugs.
  { unfold plugs_of_devices. rewrite Hnone, elements_empty. reflexivity. }
  unfold switch, refuses. erewrite bind_ok by reflexivity.
  rewrite Hplugs. unfold switch_plugs. rewrite size_empty.
  rewrite decide_True by done. eexists. split; [reflexivity|]. by cbn.
Qed.
End Qualifier.

Lemma switch_unknown_device_witness :
  let w := world_of desks_registry in
  search_device (master w) "Heater" = ∅
  ∧ refuses (switch ["Heater"; "Desk"] true) w "No matching plugs found, sorry".
Proof.
  intros w.
  assert (search_device (master w) "Heater" = ∅) as Hnone
    by (vm_compute; reflexivity).
  split; [exact Hnone|].
  exact (switch_unknown_device w "Heater" "Desk" true Hnone).
Defined.

(** ** The file format on other inputs

    What [read] and [write] do outside the files that [save] writes. *)

(** Lines that start with [#] or [;] are comments. *)
Example read_comments :
  read (Some (text_of ["# saved"; "[GENERAL]"; "; note"; "user = admin"]))
  = Ok {| cp_defaults := [];
          cp_sections := [("GENERAL", [("user", "admin")])] |}.
Proof. vm_compute. reflexivity. Qed.

(** A colon delimits as well, the option name is lower-cased and the value
    loses the white space around it. *)
Example read_colon :
  read (Some (text_of ["[GENERAL]"; "User :   bob  "]))
  = Ok {| cp_defaults := [];
          cp_sections := [("GENERAL", [("user", "bob")])] |}.
Proof. vm_compute. reflexivity. Qed.

(** A line that is indented deeper than its option continues the value. *)
Example read_continuation :
  read (Some (text_of ["[10.0.0.1]"; "name = Strip"; "  one"]))
  = Ok {| cp_defaults := [];
          cp_sections :=
            [("10.0.0.1",
              [("name", "Strip" +:+ String line_feed "one")])] |}.
Proof. vm_compute. reflexivity. Qed.

(** A carriage return ends a line, alone or before a line feed. *)
Example read_carriage_returns :
  read (Some ("[a]" +:+ String carriage_return (String line_feed "name = x")
              +:+ String carriage_return "plug_1 = y"))
  = Ok {| cp_defaults := [];
          cp_sections := [("a", [("name", "x"); ("plug_1", "y")])] |}.
Proof. vm_compute. reflexivity. Qed.

(** The header of a section ends at the last closing bracket. *)
Example read_brackets :
  read (Some (text_of ["[a]b]"; "name = x"]))
  = Ok {| cp_defaults := []; cp_sections := [("a]b", [("name", "x")])] |}.
Proof. vm_compute. reflexivity. Qed.

(** Lines at one indentation are options of their own. *)
Example read_indented :
  read (Some (text_of [" [a]"; " name = x"; " plug_1 = y"]))
  = Ok {| cp_defaults := [];
          cp_sections := [("a", [("name", "x"); ("plug_1", "y")])] |}.
Proof. vm_compute. reflexivity. Qed.

(** The files that [read] refuses. *)
Example read_refuses :
  read (Some (text_of ["[a]"; "[a]"])) = Raise DuplicateSectionError
  ∧ read (Some (text_of ["[a]"; "name = x"; "NAME = y"]))
    = Raise DuplicateOptionError
  ∧ read (Some (text_of ["[a]"; "name"])) = Raise ParsingError
  ∧ read (Some (text_of ["[]"])) = Raise MissingSectionHeaderError
  ∧ read (Some headless_text) = Raise MissingSectionHeaderError.
Proof. repeat split; vm_compute; reflexivity. Qed.

(** [write] puts the defaults first and a tabulator after each line feed
    of a value. *)
Example write_defaults_first :
  write {| cp_defaults := [("k", "v")];
           cp_sections :=
             [("a", [("name", "x" +:+ String line_feed "y")])] |}
  = text_of ["[DEFAULT]"; "k = v"; EmptyString; "[a]"; "name = x";
             String tabulator "y"; EmptyString].
Proof. vm_compute. reflexivity. Qed.

(** A write that fails after five characters leaves these five. *)
Example write_config_exhausted :
  let w :=
    {| master := registry_of []; config_file := Some (write strip_config);
       stdout := []; requests := []; network := []; answers := λ _, true;
       storage := Exhausted 5 |} in
  save [] w = (Raise OSError, with_config_file (Some "[GENE") w).
Proof. vm_compute. reflexivity. Qed.
